(** * XMP sidecar generation: blacklist filter, metadata reader, sidecar
      writer, batch thread and dock widget of taggui, embedded and verified.

    Sources embedded here:
    - [utils/xmp_sidecar_generator.py]     (class [XmpSidecarGenerator])
    - [utils/sidecar_generation_thread.py] (class [SidecarGenerationThread])
    - [widgets/xmp_sidecar_generator.py]   (class [XmpSidecarGeneratorWidget])

    Conventions.  A Python [str], be it a tag, a format name, a file name or
    a line of tool output, is the list of its code points ([str]); literals
    are written as in the source.  [str.lower], [str.strip], [str.isspace]
    and the classes [\s] and [\d] of [re] are those of CPython 3.11 with the
    Unicode 14 character data: the white-space and decimal-digit ranges, the
    lowercase mapping with its multi-character results, and the final-sigma
    rule with the cased and case-ignorable classes.  A Python [set] is a
    [gset], a [dict] whose insertion order is observed is an association
    list.

    The file system, the external tool and the clock are the environment of
    the code: file-system calls and the tool are given by an oracle record
    ([Env]), the files by a finite map, and every effect is recorded in a
    trace.  A file-system call that raises is a call the oracle fails;
    [tempfile.mkdtemp()] is such a call, and the exception it raises leaves
    the function it is called from where the source has no handler for it.
    [print] calls are diagnostic and are left out.  Cancellation of a batch
    is the number of completions consumed when [stop()] takes effect. *)

From Stdlib Require Import ZArith List Lia Bool.
From Stdlib Require Import Strings.Byte.
From stdpp Require Import base decidable option list gmap.
Import ListNotations.

Local Open Scope stdpp_scope.

(** ** Python strings *)

(** A [str]: its code points, as [ord] gives them. *)
Definition str := list Z.

(** Literals are written as in the source and read as UTF-8. *)
Module Utf8.

Local Open Scope Z_scope.

Inductive Literal := LNil | LCons (c : Z) (s : Literal).

Definition continuation (b : Z) : bool := (0x80 <=? b) && (b <? 0xC0).

Definition low6 (b : Z) : Z := b - 0x80.

Fixpoint decode (l : list Z) : option Literal :=
  match l with
  | [] => Some LNil
  | b0 :: r0 =>
      if b0 <? 0x80 then option_map (LCons b0) (decode r0)
      else
        match r0 with
        | [] => None
        | b1 :: r1 =>
            if (0xC2 <=? b0) && (b0 <? 0xE0) then
              if continuation b1
              then option_map (LCons ((b0 - 0xC0) * 64 + low6 b1)) (decode r1)
              else None
            else
              match r1 with
              | [] => None
              | b2 :: r2 =>
                  if (0xE0 <=? b0) && (b0 <? 0xF0) then
                    if continuation b1 && continuation b2
                    then option_map
                           (LCons ((b0 - 0xE0) * 4096 + low6 b1 * 64 + low6 b2))
                           (decode r2)
                    else None
                  else
                    match r2 with
                    | [] => None
                    | b3 :: r3 =>
                        if (0xF0 <=? b0) && (b0 <? 0xF5) && continuation b1
                           && continuation b2 && continuation b3
                        then option_map
                               (LCons ((b0 - 0xF0) * 262144 + low6 b1 * 4096
                                       + low6 b2 * 64 + low6 b3))
                               (decode r3)
                        else None
                    end
              end
        end
  end.

Definition encode_char (c : Z) : list Z :=
  if c <? 0x80 then [c]
  else if c <? 0x800 then [0xC0 + c / 64; 0x80 + c mod 64]
  else if c <? 0x10000 then [0xE0 + c / 4096; 0x80 + (c / 64) mod 64; 0x80 + c mod 64]
  else [0xF0 + c / 262144; 0x80 + (c / 4096) mod 64; 0x80 + (c / 64) mod 64;
        0x80 + c mod 64].

Fixpoint encode (s : Literal) : list Z :=
  match s with
  | LNil => []
  | LCons c s' => encode_char c ++ encode s'
  end.

Definition of_bytes (l : list byte) : option Literal :=
  decode (map (fun b => Z.of_N (Byte.to_N b)) l).

Fixpoint to_bytes_list (l : list Z) : option (list byte) :=
  match l with
  | [] => Some []
  | b :: l' =>
      match Byte.of_N (Z.to_N b), to_bytes_list l' with
      | Some x, Some r => Some (x :: r)
      | _, _ => None
      end
  end.

Definition to_bytes (s : Literal) : option (list byte) :=
  to_bytes_list (encode s).

End Utf8.

Declare Scope str_scope.
Delimit Scope str_scope with str.
#[warnings="-via-type-mismatch"]
String Notation list Utf8.of_bytes Utf8.to_bytes
  (via Utf8.Literal mapping [[nil] => Utf8.LNil, [cons] => Utf8.LCons]) : str_scope.
Local Open Scope str_scope.

(** ** The character data behind [str.lower], [str.strip] and the classes
      [\s] and [\d] of [re] (Unicode 14, as Python 3.11 has it) *)

Module Unicode.

Local Open Scope Z_scope.

(** The characters [str.isspace] holds of, which [str.strip] removes and [\s] matches. *)
Definition whitespace : list (Z * Z) :=
  [(0x9, 0xd); (0x1c, 0x20); (0x85, 0x85); (0xa0, 0xa0); (0x1680, 0x1680);
   (0x2000, 0x200a); (0x2028, 0x2029); (0x202f, 0x202f); (0x205f, 0x205f);
   (0x3000, 0x3000)].

(** The decimal digits, which [\d] matches. *)
Definition decimal_digits : list (Z * Z) :=
  [(0x30, 0x39); (0x660, 0x669); (0x6f0, 0x6f9); (0x7c0, 0x7c9); (0x966, 0x96f);
   (0x9e6, 0x9ef); (0xa66, 0xa6f); (0xae6, 0xaef); (0xb66, 0xb6f); (0xbe6, 0xbef);
   (0xc66, 0xc6f); (0xce6, 0xcef); (0xd66, 0xd6f); (0xde6, 0xdef); (0xe50, 0xe59);
   (0xed0, 0xed9); (0xf20, 0xf29); (0x1040, 0x1049); (0x1090, 0x1099);
   (0x17e0, 0x17e9); (0x1810, 0x1819); (0x1946, 0x194f); (0x19d0, 0x19d9);
   (0x1a80, 0x1a89); (0x1a90, 0x1a99); (0x1b50, 0x1b59); (0x1bb0, 0x1bb9);
   (0x1c40, 0x1c49); (0x1c50, 0x1c59); (0xa620, 0xa629); (0xa8d0, 0xa8d9);
   (0xa900, 0xa909); (0xa9d0, 0xa9d9); (0xa9f0, 0xa9f9); (0xaa50, 0xaa59);
   (0xabf0, 0xabf9); (0xff10, 0xff19); (0x104a0, 0x104a9); (0x10d30, 0x10d39);
   (0x11066, 0x1106f); (0x110f0, 0x110f9); (0x11136, 0x1113f); (0x111d0, 0x111d9);
   (0x112f0, 0x112f9); (0x11450, 0x11459); (0x114d0, 0x114d9); (0x11650, 0x11659);
   (0x116c0, 0x116c9); (0x11730, 0x11739); (0x118e0, 0x118e9); (0x11950, 0x11959);
   (0x11c50, 0x11c59); (0x11d50, 0x11d59); (0x11da0, 0x11da9); (0x16a60, 0x16a69);
   (0x16ac0, 0x16ac9); (0x16b50, 0x16b59); (0x1d7ce, 0x1d7ff); (0x1e140, 0x1e149);
   (0x1e2f0, 0x1e2f9); (0x1e950, 0x1e959); (0x1fbf0, 0x1fbf9)].

(** The cased characters: those with a lowercase or uppercase form, and the titlecase letters. *)
Definition cased_characters : list (Z * Z) :=
  [(0x41, 0x5a); (0x61, 0x7a); (0xaa, 0xaa); (0xb5, 0xb5); (0xba, 0xba); (0xc0, 0xd6);
   (0xd8, 0xf6); (0xf8, 0x1ba); (0x1bc, 0x1bf); (0x1c4, 0x293); (0x295, 0x2b8);
   (0x2c0, 0x2c1); (0x2e0, 0x2e4); (0x345, 0x345); (0x370, 0x373); (0x376, 0x377);
   (0x37a, 0x37d); (0x37f, 0x37f); (0x386, 0x386); (0x388, 0x38a); (0x38c, 0x38c);
   (0x38e, 0x3a1); (0x3a3, 0x3f5); (0x3f7, 0x481); (0x48a, 0x52f); (0x531, 0x556);
   (0x560, 0x588); (0x10a0, 0x10c5); (0x10c7, 0x10c7); (0x10cd, 0x10cd);
   (0x10d0, 0x10fa); (0x10fd, 0x10ff); (0x13a0, 0x13f5); (0x13f8, 0x13fd);
   (0x1c80, 0x1c88); (0x1c90, 0x1cba); (0x1cbd, 0x1cbf); (0x1d00, 0x1dbf);
   (0x1e00, 0x1f15); (0x1f18, 0x1f1d); (0x1f20, 0x1f45); (0x1f48, 0x1f4d);
   (0x1f50, 0x1f57); (0x1f59, 0x1f59); (0x1f5b, 0x1f5b); (0x1f5d, 0x1f5d);
   (0x1f5f, 0x1f7d); (0x1f80, 0x1fb4); (0x1fb6, 0x1fbc); (0x1fbe, 0x1fbe);
   (0x1fc2, 0x1fc4); (0x1fc6, 0x1fcc); (0x1fd0, 0x1fd3); (0x1fd6, 0x1fdb);
   (0x1fe0, 0x1fec); (0x1ff2, 0x1ff4); (0x1ff6, 0x1ffc); (0x2071, 0x2071);
   (0x207f, 0x207f); (0x2090, 0x209c); (0x2102, 0x2102); (0x2107, 0x2107);
   (0x210a, 0x2113); (0x2115, 0x2115); (0x2119, 0x211d); (0x2124, 0x2124);
   (0x2126, 0x2126); (0x2128, 0x2128); (0x212a, 0x212d); (0x212f, 0x2134);
   (0x2139, 0x2139); (0x213c, 0x213f); (0x2145, 0x2149); (0x214e, 0x214e);
   (0x2160, 0x217f); (0x2183, 0x2184); (0x24b6, 0x24e9); (0x2c00, 0x2ce4);
   (0x2ceb, 0x2cee); (0x2cf2, 0x2cf3); (0x2d00, 0x2d25); (0x2d27, 0x2d27);
   (0x2d2d, 0x2d2d); (0xa640, 0xa66d); (0xa680, 0xa69d); (0xa722, 0xa787);
   (0xa78b, 0xa78e); (0xa790, 0xa7ca); (0xa7d0, 0xa7d1); (0xa7d3, 0xa7d3);
   (0xa7d5, 0xa7d9); (0xa7f5, 0xa7f6); (0xa7f8, 0xa7fa); (0xab30, 0xab5a);
   (0xab5c, 0xab68); (0xab70, 0xabbf); (0xfb00, 0xfb06); (0xfb13, 0xfb17);
   (0xff21, 0xff3a); (0xff41, 0xff5a); (0x10400, 0x1044f); (0x104b0, 0x104d3);
   (0x104d8, 0x104fb); (0x10570, 0x1057a); (0x1057c, 0x1058a); (0x1058c, 0x10592);
   (0x10594, 0x10595); (0x10597, 0x105a1); (0x105a3, 0x105b1); (0x105b3, 0x105b9);
   (0x105bb, 0x105bc); (0x10780, 0x10780); (0x10783, 0x10785); (0x10787, 0x107b0);
   (0x107b2, 0x107ba); (0x10c80, 0x10cb2); (0x10cc0, 0x10cf2); (0x118a0, 0x118df);
   (0x16e40, 0x16e7f); (0x1d400, 0x1d454); (0x1d456, 0x1d49c); (0x1d49e, 0x1d49f);
   (0x1d4a2, 0x1d4a2); (0x1d4a5, 0x1d4a6); (0x1d4a9, 0x1d4ac); (0x1d4ae, 0x1d4b9);
   (0x1d4bb, 0x1d4bb); (0x1d4bd, 0x1d4c3); (0x1d4c5, 0x1d505); (0x1d507, 0x1d50a);
   (0x1d50d, 0x1d514); (0x1d516, 0x1d51c); (0x1d51e, 0x1d539); (0x1d53b, 0x1d53e);
   (0x1d540, 0x1d544); (0x1d546, 0x1d546); (0x1d54a, 0x1d550); (0x1d552, 0x1d6a5);
   (0x1d6a8, 0x1d6c0); (0x1d6c2, 0x1d6da); (0x1d6dc, 0x1d6fa); (0x1d6fc, 0x1d714);
   (0x1d716, 0x1d734); (0x1d736, 0x1d74e); (0x1d750, 0x1d76e); (0x1d770, 0x1d788);
   (0x1d78a, 0x1d7a8); (0x1d7aa, 0x1d7c2); (0x1d7c4, 0x1d7cb); (0x1df00, 0x1df09);
   (0x1df0b, 0x1df1e); (0x1e900, 0x1e943); (0x1f130, 0x1f149); (0x1f150, 0x1f169);
   (0x1f170, 0x1f189)].

(** The case-ignorable characters: marks, format controls, modifier letters and symbols, and the punctuation that can stand inside a word. *)
Definition case_ignorable : list (Z * Z) :=
  [(0x27, 0x27); (0x2e, 0x2e); (0x3a, 0x3a); (0x5e, 0x5e); (0x60, 0x60); (0xa8, 0xa8);
   (0xad, 0xad); (0xaf, 0xaf); (0xb4, 0xb4); (0xb7, 0xb8); (0x2b0, 0x36f);
   (0x374, 0x375); (0x37a, 0x37a); (0x384, 0x385); (0x387, 0x387); (0x483, 0x489);
   (0x559, 0x559); (0x55f, 0x55f); (0x591, 0x5bd); (0x5bf, 0x5bf); (0x5c1, 0x5c2);
   (0x5c4, 0x5c5); (0x5c7, 0x5c7); (0x5f4, 0x5f4); (0x600, 0x605); (0x610, 0x61a);
   (0x61c, 0x61c); (0x640, 0x640); (0x64b, 0x65f); (0x670, 0x670); (0x6d6, 0x6dd);
   (0x6df, 0x6e8); (0x6ea, 0x6ed); (0x70f, 0x70f); (0x711, 0x711); (0x730, 0x74a);
   (0x7a6, 0x7b0); (0x7eb, 0x7f5); (0x7fa, 0x7fa); (0x7fd, 0x7fd); (0x816, 0x82d);
   (0x859, 0x85b); (0x888, 0x888); (0x890, 0x891); (0x898, 0x89f); (0x8c9, 0x902);
   (0x93a, 0x93a); (0x93c, 0x93c); (0x941, 0x948); (0x94d, 0x94d); (0x951, 0x957);
   (0x962, 0x963); (0x971, 0x971); (0x981, 0x981); (0x9bc, 0x9bc); (0x9c1, 0x9c4);
   (0x9cd, 0x9cd); (0x9e2, 0x9e3); (0x9fe, 0x9fe); (0xa01, 0xa02); (0xa3c, 0xa3c);
   (0xa41, 0xa42); (0xa47, 0xa48); (0xa4b, 0xa4d); (0xa51, 0xa51); (0xa70, 0xa71);
   (0xa75, 0xa75); (0xa81, 0xa82); (0xabc, 0xabc); (0xac1, 0xac5); (0xac7, 0xac8);
   (0xacd, 0xacd); (0xae2, 0xae3); (0xafa, 0xaff); (0xb01, 0xb01); (0xb3c, 0xb3c);
   (0xb3f, 0xb3f); (0xb41, 0xb44); (0xb4d, 0xb4d); (0xb55, 0xb56); (0xb62, 0xb63);
   (0xb82, 0xb82); (0xbc0, 0xbc0); (0xbcd, 0xbcd); (0xc00, 0xc00); (0xc04, 0xc04);
   (0xc3c, 0xc3c); (0xc3e, 0xc40); (0xc46, 0xc48); (0xc4a, 0xc4d); (0xc55, 0xc56);
   (0xc62, 0xc63); (0xc81, 0xc81); (0xcbc, 0xcbc); (0xcbf, 0xcbf); (0xcc6, 0xcc6);
   (0xccc, 0xccd); (0xce2, 0xce3); (0xd00, 0xd01); (0xd3b, 0xd3c); (0xd41, 0xd44);
   (0xd4d, 0xd4d); (0xd62, 0xd63); (0xd81, 0xd81); (0xdca, 0xdca); (0xdd2, 0xdd4);
   (0xdd6, 0xdd6); (0xe31, 0xe31); (0xe34, 0xe3a); (0xe46, 0xe4e); (0xeb1, 0xeb1);
   (0xeb4, 0xebc); (0xec6, 0xec6); (0xec8, 0xecd); (0xf18, 0xf19); (0xf35, 0xf35);
   (0xf37, 0xf37); (0xf39, 0xf39); (0xf71, 0xf7e); (0xf80, 0xf84); (0xf86, 0xf87);
   (0xf8d, 0xf97); (0xf99, 0xfbc); (0xfc6, 0xfc6); (0x102d, 0x1030); (0x1032, 0x1037);
   (0x1039, 0x103a); (0x103d, 0x103e); (0x1058, 0x1059); (0x105e, 0x1060);
   (0x1071, 0x1074); (0x1082, 0x1082); (0x1085, 0x1086); (0x108d, 0x108d);
   (0x109d, 0x109d); (0x10fc, 0x10fc); (0x135d, 0x135f); (0x1712, 0x1714);
   (0x1732, 0x1733); (0x1752, 0x1753); (0x1772, 0x1773); (0x17b4, 0x17b5);
   (0x17b7, 0x17bd); (0x17c6, 0x17c6); (0x17c9, 0x17d3); (0x17d7, 0x17d7);
   (0x17dd, 0x17dd); (0x180b, 0x180f); (0x1843, 0x1843); (0x1885, 0x1886);
   (0x18a9, 0x18a9); (0x1920, 0x1922); (0x1927, 0x1928); (0x1932, 0x1932);
   (0x1939, 0x193b); (0x1a17, 0x1a18); (0x1a1b, 0x1a1b); (0x1a56, 0x1a56);
   (0x1a58, 0x1a5e); (0x1a60, 0x1a60); (0x1a62, 0x1a62); (0x1a65, 0x1a6c);
   (0x1a73, 0x1a7c); (0x1a7f, 0x1a7f); (0x1aa7, 0x1aa7); (0x1ab0, 0x1ace);
   (0x1b00, 0x1b03); (0x1b34, 0x1b34); (0x1b36, 0x1b3a); (0x1b3c, 0x1b3c);
   (0x1b42, 0x1b42); (0x1b6b, 0x1b73); (0x1b80, 0x1b81); (0x1ba2, 0x1ba5);
   (0x1ba8, 0x1ba9); (0x1bab, 0x1bad); (0x1be6, 0x1be6); (0x1be8, 0x1be9);
   (0x1bed, 0x1bed); (0x1bef, 0x1bf1); (0x1c2c, 0x1c33); (0x1c36, 0x1c37);
   (0x1c78, 0x1c7d); (0x1cd0, 0x1cd2); (0x1cd4, 0x1ce0); (0x1ce2, 0x1ce8);
   (0x1ced, 0x1ced); (0x1cf4, 0x1cf4); (0x1cf8, 0x1cf9); (0x1d2c, 0x1d6a);
   (0x1d78, 0x1d78); (0x1d9b, 0x1dff); (0x1fbd, 0x1fbd); (0x1fbf, 0x1fc1);
   (0x1fcd, 0x1fcf); (0x1fdd, 0x1fdf); (0x1fed, 0x1fef); (0x1ffd, 0x1ffe);
   (0x200b, 0x200f); (0x2018, 0x2019); (0x2024, 0x2024); (0x2027, 0x2027);
   (0x202a, 0x202e); (0x2060, 0x2064); (0x2066, 0x206f); (0x2071, 0x2071);
   (0x207f, 0x207f); (0x2090, 0x209c); (0x20d0, 0x20f0); (0x2c7c, 0x2c7d);
   (0x2cef, 0x2cf1); (0x2d6f, 0x2d6f); (0x2d7f, 0x2d7f); (0x2de0, 0x2dff);
   (0x2e2f, 0x2e2f); (0x3005, 0x3005); (0x302a, 0x302d); (0x3031, 0x3035);
   (0x303b, 0x303b); (0x3099, 0x309e); (0x30fc, 0x30fe); (0xa015, 0xa015);
   (0xa4f8, 0xa4fd); (0xa60c, 0xa60c); (0xa66f, 0xa672); (0xa674, 0xa67d);
   (0xa67f, 0xa67f); (0xa69c, 0xa69f); (0xa6f0, 0xa6f1); (0xa700, 0xa721);
   (0xa770, 0xa770); (0xa788, 0xa78a); (0xa7f2, 0xa7f4); (0xa7f8, 0xa7f9);
   (0xa802, 0xa802); (0xa806, 0xa806); (0xa80b, 0xa80b); (0xa825, 0xa826);
   (0xa82c, 0xa82c); (0xa8c4, 0xa8c5); (0xa8e0, 0xa8f1); (0xa8ff, 0xa8ff);
   (0xa926, 0xa92d); (0xa947, 0xa951); (0xa980, 0xa982); (0xa9b3, 0xa9b3);
   (0xa9b6, 0xa9b9); (0xa9bc, 0xa9bd); (0xa9cf, 0xa9cf); (0xa9e5, 0xa9e6);
   (0xaa29, 0xaa2e); (0xaa31, 0xaa32); (0xaa35, 0xaa36); (0xaa43, 0xaa43);
   (0xaa4c, 0xaa4c); (0xaa70, 0xaa70); (0xaa7c, 0xaa7c); (0xaab0, 0xaab0);
   (0xaab2, 0xaab4); (0xaab7, 0xaab8); (0xaabe, 0xaabf); (0xaac1, 0xaac1);
   (0xaadd, 0xaadd); (0xaaec, 0xaaed); (0xaaf3, 0xaaf4); (0xaaf6, 0xaaf6);
   (0xab5b, 0xab5f); (0xab69, 0xab6b); (0xabe5, 0xabe5); (0xabe8, 0xabe8);
   (0xabed, 0xabed); (0xfb1e, 0xfb1e); (0xfbb2, 0xfbc2); (0xfe00, 0xfe0f);
   (0xfe13, 0xfe13); (0xfe20, 0xfe2f); (0xfe52, 0xfe52); (0xfe55, 0xfe55);
   (0xfeff, 0xfeff); (0xff07, 0xff07); (0xff0e, 0xff0e); (0xff1a, 0xff1a);
   (0xff3e, 0xff3e); (0xff40, 0xff40); (0xff70, 0xff70); (0xff9e, 0xff9f);
   (0xffe3, 0xffe3); (0xfff9, 0xfffb); (0x101fd, 0x101fd); (0x102e0, 0x102e0);
   (0x10376, 0x1037a); (0x10780, 0x10785); (0x10787, 0x107b0); (0x107b2, 0x107ba);
   (0x10a01, 0x10a03); (0x10a05, 0x10a06); (0x10a0c, 0x10a0f); (0x10a38, 0x10a3a);
   (0x10a3f, 0x10a3f); (0x10ae5, 0x10ae6); (0x10d24, 0x10d27); (0x10eab, 0x10eac);
   (0x10f46, 0x10f50); (0x10f82, 0x10f85); (0x11001, 0x11001); (0x11038, 0x11046);
   (0x11070, 0x11070); (0x11073, 0x11074); (0x1107f, 0x11081); (0x110b3, 0x110b6);
   (0x110b9, 0x110ba); (0x110bd, 0x110bd); (0x110c2, 0x110c2); (0x110cd, 0x110cd);
   (0x11100, 0x11102); (0x11127, 0x1112b); (0x1112d, 0x11134); (0x11173, 0x11173);
   (0x11180, 0x11181); (0x111b6, 0x111be); (0x111c9, 0x111cc); (0x111cf, 0x111cf);
   (0x1122f, 0x11231); (0x11234, 0x11234); (0x11236, 0x11237); (0x1123e, 0x1123e);
   (0x112df, 0x112df); (0x112e3, 0x112ea); (0x11300, 0x11301); (0x1133b, 0x1133c);
   (0x11340, 0x11340); (0x11366, 0x1136c); (0x11370, 0x11374); (0x11438, 0x1143f);
   (0x11442, 0x11444); (0x11446, 0x11446); (0x1145e, 0x1145e); (0x114b3, 0x114b8);
   (0x114ba, 0x114ba); (0x114bf, 0x114c0); (0x114c2, 0x114c3); (0x115b2, 0x115b5);
   (0x115bc, 0x115bd); (0x115bf, 0x115c0); (0x115dc, 0x115dd); (0x11633, 0x1163a);
   (0x1163d, 0x1163d); (0x1163f, 0x11640); (0x116ab, 0x116ab); (0x116ad, 0x116ad);
   (0x116b0, 0x116b5); (0x116b7, 0x116b7); (0x1171d, 0x1171f); (0x11722, 0x11725);
   (0x11727, 0x1172b); (0x1182f, 0x11837); (0x11839, 0x1183a); (0x1193b, 0x1193c);
   (0x1193e, 0x1193e); (0x11943, 0x11943); (0x119d4, 0x119d7); (0x119da, 0x119db);
   (0x119e0, 0x119e0); (0x11a01, 0x11a0a); (0x11a33, 0x11a38); (0x11a3b, 0x11a3e);
   (0x11a47, 0x11a47); (0x11a51, 0x11a56); (0x11a59, 0x11a5b); (0x11a8a, 0x11a96);
   (0x11a98, 0x11a99); (0x11c30, 0x11c36); (0x11c38, 0x11c3d); (0x11c3f, 0x11c3f);
   (0x11c92, 0x11ca7); (0x11caa, 0x11cb0); (0x11cb2, 0x11cb3); (0x11cb5, 0x11cb6);
   (0x11d31, 0x11d36); (0x11d3a, 0x11d3a); (0x11d3c, 0x11d3d); (0x11d3f, 0x11d45);
   (0x11d47, 0x11d47); (0x11d90, 0x11d91); (0x11d95, 0x11d95); (0x11d97, 0x11d97);
   (0x11ef3, 0x11ef4); (0x13430, 0x13438); (0x16af0, 0x16af4); (0x16b30, 0x16b36);
   (0x16b40, 0x16b43); (0x16f4f, 0x16f4f); (0x16f8f, 0x16f9f); (0x16fe0, 0x16fe1);
   (0x16fe3, 0x16fe4); (0x1aff0, 0x1aff3); (0x1aff5, 0x1affb); (0x1affd, 0x1affe);
   (0x1bc9d, 0x1bc9e); (0x1bca0, 0x1bca3); (0x1cf00, 0x1cf2d); (0x1cf30, 0x1cf46);
   (0x1d167, 0x1d169); (0x1d173, 0x1d182); (0x1d185, 0x1d18b); (0x1d1aa, 0x1d1ad);
   (0x1d242, 0x1d244); (0x1da00, 0x1da36); (0x1da3b, 0x1da6c); (0x1da75, 0x1da75);
   (0x1da84, 0x1da84); (0x1da9b, 0x1da9f); (0x1daa1, 0x1daaf); (0x1e000, 0x1e006);
   (0x1e008, 0x1e018); (0x1e01b, 0x1e021); (0x1e023, 0x1e024); (0x1e026, 0x1e02a);
   (0x1e130, 0x1e13d); (0x1e2ae, 0x1e2ae); (0x1e2ec, 0x1e2ef); (0x1e8d0, 0x1e8d6);
   (0x1e944, 0x1e94b); (0x1f3fb, 0x1f3ff); (0xe0001, 0xe0001); (0xe0020, 0xe007f);
   (0xe0100, 0xe01ef)].

(** The lowercase mapping: every character [str.lower] changes, in code point
    order, with what it becomes; U+03A3 is not listed, its form depends on its
    place in the word. *)
Definition lowercase_mapping : list (Z * list Z) :=
  [(0x41, [0x61]); (0x42, [0x62]); (0x43, [0x63]); (0x44, [0x64]); (0x45, [0x65]);
   (0x46, [0x66]); (0x47, [0x67]); (0x48, [0x68]); (0x49, [0x69]); (0x4a, [0x6a]);
   (0x4b, [0x6b]); (0x4c, [0x6c]); (0x4d, [0x6d]); (0x4e, [0x6e]); (0x4f, [0x6f]);
   (0x50, [0x70]); (0x51, [0x71]); (0x52, [0x72]); (0x53, [0x73]); (0x54, [0x74]);
   (0x55, [0x75]); (0x56, [0x76]); (0x57, [0x77]); (0x58, [0x78]); (0x59, [0x79]);
   (0x5a, [0x7a]); (0xc0, [0xe0]); (0xc1, [0xe1]); (0xc2, [0xe2]); (0xc3, [0xe3]);
   (0xc4, [0xe4]); (0xc5, [0xe5]); (0xc6, [0xe6]); (0xc7, [0xe7]); (0xc8, [0xe8]);
   (0xc9, [0xe9]); (0xca, [0xea]); (0xcb, [0xeb]); (0xcc, [0xec]); (0xcd, [0xed]);
   (0xce, [0xee]); (0xcf, [0xef]); (0xd0, [0xf0]); (0xd1, [0xf1]); (0xd2, [0xf2]);
   (0xd3, [0xf3]); (0xd4, [0xf4]); (0xd5, [0xf5]); (0xd6, [0xf6]); (0xd8, [0xf8]);
   (0xd9, [0xf9]); (0xda, [0xfa]); (0xdb, [0xfb]); (0xdc, [0xfc]); (0xdd, [0xfd]);
   (0xde, [0xfe]); (0x100, [0x101]); (0x102, [0x103]); (0x104, [0x105]);
   (0x106, [0x107]); (0x108, [0x109]); (0x10a, [0x10b]); (0x10c, [0x10d]);
   (0x10e, [0x10f]); (0x110, [0x111]); (0x112, [0x113]); (0x114, [0x115]);
   (0x116, [0x117]); (0x118, [0x119]); (0x11a, [0x11b]); (0x11c, [0x11d]);
   (0x11e, [0x11f]); (0x120, [0x121]); (0x122, [0x123]); (0x124, [0x125]);
   (0x126, [0x127]); (0x128, [0x129]); (0x12a, [0x12b]); (0x12c, [0x12d]);
   (0x12e, [0x12f]); (0x130, [0x69; 0x307]); (0x132, [0x133]); (0x134, [0x135]);
   (0x136, [0x137]); (0x139, [0x13a]); (0x13b, [0x13c]); (0x13d, [0x13e]);
   (0x13f, [0x140]); (0x141, [0x142]); (0x143, [0x144]); (0x145, [0x146]);
   (0x147, [0x148]); (0x14a, [0x14b]); (0x14c, [0x14d]); (0x14e, [0x14f]);
   (0x150, [0x151]); (0x152, [0x153]); (0x154, [0x155]); (0x156, [0x157]);
   (0x158, [0x159]); (0x15a, [0x15b]); (0x15c, [0x15d]); (0x15e, [0x15f]);
   (0x160, [0x161]); (0x162, [0x163]); (0x164, [0x165]); (0x166, [0x167]);
   (0x168, [0x169]); (0x16a, [0x16b]); (0x16c, [0x16d]); (0x16e, [0x16f]);
   (0x170, [0x171]); (0x172, [0x173]); (0x174, [0x175]); (0x176, [0x177]);
   (0x178, [0xff]); (0x179, [0x17a]); (0x17b, [0x17c]); (0x17d, [0x17e]);
   (0x181, [0x253]); (0x182, [0x183]); (0x184, [0x185]); (0x186, [0x254]);
   (0x187, [0x188]); (0x189, [0x256]); (0x18a, [0x257]); (0x18b, [0x18c]);
   (0x18e, [0x1dd]); (0x18f, [0x259]); (0x190, [0x25b]); (0x191, [0x192]);
   (0x193, [0x260]); (0x194, [0x263]); (0x196, [0x269]); (0x197, [0x268]);
   (0x198, [0x199]); (0x19c, [0x26f]); (0x19d, [0x272]); (0x19f, [0x275]);
   (0x1a0, [0x1a1]); (0x1a2, [0x1a3]); (0x1a4, [0x1a5]); (0x1a6, [0x280]);
   (0x1a7, [0x1a8]); (0x1a9, [0x283]); (0x1ac, [0x1ad]); (0x1ae, [0x288]);
   (0x1af, [0x1b0]); (0x1b1, [0x28a]); (0x1b2, [0x28b]); (0x1b3, [0x1b4]);
   (0x1b5, [0x1b6]); (0x1b7, [0x292]); (0x1b8, [0x1b9]); (0x1bc, [0x1bd]);
   (0x1c4, [0x1c6]); (0x1c5, [0x1c6]); (0x1c7, [0x1c9]); (0x1c8, [0x1c9]);
   (0x1ca, [0x1cc]); (0x1cb, [0x1cc]); (0x1cd, [0x1ce]); (0x1cf, [0x1d0]);
   (0x1d1, [0x1d2]); (0x1d3, [0x1d4]); (0x1d5, [0x1d6]); (0x1d7, [0x1d8]);
   (0x1d9, [0x1da]); (0x1db, [0x1dc]); (0x1de, [0x1df]); (0x1e0, [0x1e1]);
   (0x1e2, [0x1e3]); (0x1e4, [0x1e5]); (0x1e6, [0x1e7]); (0x1e8, [0x1e9]);
   (0x1ea, [0x1eb]); (0x1ec, [0x1ed]); (0x1ee, [0x1ef]); (0x1f1, [0x1f3]);
   (0x1f2, [0x1f3]); (0x1f4, [0x1f5]); (0x1f6, [0x195]); (0x1f7, [0x1bf]);
   (0x1f8, [0x1f9]); (0x1fa, [0x1fb]); (0x1fc, [0x1fd]); (0x1fe, [0x1ff]);
   (0x200, [0x201]); (0x202, [0x203]); (0x204, [0x205]); (0x206, [0x207]);
   (0x208, [0x209]); (0x20a, [0x20b]); (0x20c, [0x20d]); (0x20e, [0x20f]);
   (0x210, [0x211]); (0x212, [0x213]); (0x214, [0x215]); (0x216, [0x217]);
   (0x218, [0x219]); (0x21a, [0x21b]); (0x21c, [0x21d]); (0x21e, [0x21f]);
   (0x220, [0x19e]); (0x222, [0x223]); (0x224, [0x225]); (0x226, [0x227]);
   (0x228, [0x229]); (0x22a, [0x22b]); (0x22c, [0x22d]); (0x22e, [0x22f]);
   (0x230, [0x231]); (0x232, [0x233]); (0x23a, [0x2c65]); (0x23b, [0x23c]);
   (0x23d, [0x19a]); (0x23e, [0x2c66]); (0x241, [0x242]); (0x243, [0x180]);
   (0x244, [0x289]); (0x245, [0x28c]); (0x246, [0x247]); (0x248, [0x249]);
   (0x24a, [0x24b]); (0x24c, [0x24d]); (0x24e, [0x24f]); (0x370, [0x371]);
   (0x372, [0x373]); (0x376, [0x377]); (0x37f, [0x3f3]); (0x386, [0x3ac]);
   (0x388, [0x3ad]); (0x389, [0x3ae]); (0x38a, [0x3af]); (0x38c, [0x3cc]);
   (0x38e, [0x3cd]); (0x38f, [0x3ce]); (0x391, [0x3b1]); (0x392, [0x3b2]);
   (0x393, [0x3b3]); (0x394, [0x3b4]); (0x395, [0x3b5]); (0x396, [0x3b6]);
   (0x397, [0x3b7]); (0x398, [0x3b8]); (0x399, [0x3b9]); (0x39a, [0x3ba]);
   (0x39b, [0x3bb]); (0x39c, [0x3bc]); (0x39d, [0x3bd]); (0x39e, [0x3be]);
   (0x39f, [0x3bf]); (0x3a0, [0x3c0]); (0x3a1, [0x3c1]); (0x3a4, [0x3c4]);
   (0x3a5, [0x3c5]); (0x3a6, [0x3c6]); (0x3a7, [0x3c7]); (0x3a8, [0x3c8]);
   (0x3a9, [0x3c9]); (0x3aa, [0x3ca]); (0x3ab, [0x3cb]); (0x3cf, [0x3d7]);
   (0x3d8, [0x3d9]); (0x3da, [0x3db]); (0x3dc, [0x3dd]); (0x3de, [0x3df]);
   (0x3e0, [0x3e1]); (0x3e2, [0x3e3]); (0x3e4, [0x3e5]); (0x3e6, [0x3e7]);
   (0x3e8, [0x3e9]); (0x3ea, [0x3eb]); (0x3ec, [0x3ed]); (0x3ee, [0x3ef]);
   (0x3f4, [0x3b8]); (0x3f7, [0x3f8]); (0x3f9, [0x3f2]); (0x3fa, [0x3fb]);
   (0x3fd, [0x37b]); (0x3fe, [0x37c]); (0x3ff, [0x37d]); (0x400, [0x450]);
   (0x401, [0x451]); (0x402, [0x452]); (0x403, [0x453]); (0x404, [0x454]);
   (0x405, [0x455]); (0x406, [0x456]); (0x407, [0x457]); (0x408, [0x458]);
   (0x409, [0x459]); (0x40a, [0x45a]); (0x40b, [0x45b]); (0x40c, [0x45c]);
   (0x40d, [0x45d]); (0x40e, [0x45e]); (0x40f, [0x45f]); (0x410, [0x430]);
   (0x411, [0x431]); (0x412, [0x432]); (0x413, [0x433]); (0x414, [0x434]);
   (0x415, [0x435]); (0x416, [0x436]); (0x417, [0x437]); (0x418, [0x438]);
   (0x419, [0x439]); (0x41a, [0x43a]); (0x41b, [0x43b]); (0x41c, [0x43c]);
   (0x41d, [0x43d]); (0x41e, [0x43e]); (0x41f, [0x43f]); (0x420, [0x440]);
   (0x421, [0x441]); (0x422, [0x442]); (0x423, [0x443]); (0x424, [0x444]);
   (0x425, [0x445]); (0x426, [0x446]); (0x427, [0x447]); (0x428, [0x448]);
   (0x429, [0x449]); (0x42a, [0x44a]); (0x42b, [0x44b]); (0x42c, [0x44c]);
   (0x42d, [0x44d]); (0x42e, [0x44e]); (0x42f, [0x44f]); (0x460, [0x461]);
   (0x462, [0x463]); (0x464, [0x465]); (0x466, [0x467]); (0x468, [0x469]);
   (0x46a, [0x46b]); (0x46c, [0x46d]); (0x46e, [0x46f]); (0x470, [0x471]);
   (0x472, [0x473]); (0x474, [0x475]); (0x476, [0x477]); (0x478, [0x479]);
   (0x47a, [0x47b]); (0x47c, [0x47d]); (0x47e, [0x47f]); (0x480, [0x481]);
   (0x48a, [0x48b]); (0x48c, [0x48d]); (0x48e, [0x48f]); (0x490, [0x491]);
   (0x492, [0x493]); (0x494, [0x495]); (0x496, [0x497]); (0x498, [0x499]);
   (0x49a, [0x49b]); (0x49c, [0x49d]); (0x49e, [0x49f]); (0x4a0, [0x4a1]);
   (0x4a2, [0x4a3]); (0x4a4, [0x4a5]); (0x4a6, [0x4a7]); (0x4a8, [0x4a9]);
   (0x4aa, [0x4ab]); (0x4ac, [0x4ad]); (0x4ae, [0x4af]); (0x4b0, [0x4b1]);
   (0x4b2, [0x4b3]); (0x4b4, [0x4b5]); (0x4b6, [0x4b7]); (0x4b8, [0x4b9]);
   (0x4ba, [0x4bb]); (0x4bc, [0x4bd]); (0x4be, [0x4bf]); (0x4c0, [0x4cf]);
   (0x4c1, [0x4c2]); (0x4c3, [0x4c4]); (0x4c5, [0x4c6]); (0x4c7, [0x4c8]);
   (0x4c9, [0x4ca]); (0x4cb, [0x4cc]); (0x4cd, [0x4ce]); (0x4d0, [0x4d1]);
   (0x4d2, [0x4d3]); (0x4d4, [0x4d5]); (0x4d6, [0x4d7]); (0x4d8, [0x4d9]);
   (0x4da, [0x4db]); (0x4dc, [0x4dd]); (0x4de, [0x4df]); (0x4e0, [0x4e1]);
   (0x4e2, [0x4e3]); (0x4e4, [0x4e5]); (0x4e6, [0x4e7]); (0x4e8, [0x4e9]);
   (0x4ea, [0x4eb]); (0x4ec, [0x4ed]); (0x4ee, [0x4ef]); (0x4f0, [0x4f1]);
   (0x4f2, [0x4f3]); (0x4f4, [0x4f5]); (0x4f6, [0x4f7]); (0x4f8, [0x4f9]);
   (0x4fa, [0x4fb]); (0x4fc, [0x4fd]); (0x4fe, [0x4ff]); (0x500, [0x501]);
   (0x502, [0x503]); (0x504, [0x505]); (0x506, [0x507]); (0x508, [0x509]);
   (0x50a, [0x50b]); (0x50c, [0x50d]); (0x50e, [0x50f]); (0x510, [0x511]);
   (0x512, [0x513]); (0x514, [0x515]); (0x516, [0x517]); (0x518, [0x519]);
   (0x51a, [0x51b]); (0x51c, [0x51d]); (0x51e, [0x51f]); (0x520, [0x521]);
   (0x522, [0x523]); (0x524, [0x525]); (0x526, [0x527]); (0x528, [0x529]);
   (0x52a, [0x52b]); (0x52c, [0x52d]); (0x52e, [0x52f]); (0x531, [0x561]);
   (0x532, [0x562]); (0x533, [0x563]); (0x534, [0x564]); (0x535, [0x565]);
   (0x536, [0x566]); (0x537, [0x567]); (0x538, [0x568]); (0x539, [0x569]);
   (0x53a, [0x56a]); (0x53b, [0x56b]); (0x53c, [0x56c]); (0x53d, [0x56d]);
   (0x53e, [0x56e]); (0x53f, [0x56f]); (0x540, [0x570]); (0x541, [0x571]);
   (0x542, [0x572]); (0x543, [0x573]); (0x544, [0x574]); (0x545, [0x575]);
   (0x546, [0x576]); (0x547, [0x577]); (0x548, [0x578]); (0x549, [0x579]);
   (0x54a, [0x57a]); (0x54b, [0x57b]); (0x54c, [0x57c]); (0x54d, [0x57d]);
   (0x54e, [0x57e]); (0x54f, [0x57f]); (0x550, [0x580]); (0x551, [0x581]);
   (0x552, [0x582]); (0x553, [0x583]); (0x554, [0x584]); (0x555, [0x585]);
   (0x556, [0x586]); (0x10a0, [0x2d00]); (0x10a1, [0x2d01]); (0x10a2, [0x2d02]);
   (0x10a3, [0x2d03]); (0x10a4, [0x2d04]); (0x10a5, [0x2d05]); (0x10a6, [0x2d06]);
   (0x10a7, [0x2d07]); (0x10a8, [0x2d08]); (0x10a9, [0x2d09]); (0x10aa, [0x2d0a]);
   (0x10ab, [0x2d0b]); (0x10ac, [0x2d0c]); (0x10ad, [0x2d0d]); (0x10ae, [0x2d0e]);
   (0x10af, [0x2d0f]); (0x10b0, [0x2d10]); (0x10b1, [0x2d11]); (0x10b2, [0x2d12]);
   (0x10b3, [0x2d13]); (0x10b4, [0x2d14]); (0x10b5, [0x2d15]); (0x10b6, [0x2d16]);
   (0x10b7, [0x2d17]); (0x10b8, [0x2d18]); (0x10b9, [0x2d19]); (0x10ba, [0x2d1a]);
   (0x10bb, [0x2d1b]); (0x10bc, [0x2d1c]); (0x10bd, [0x2d1d]); (0x10be, [0x2d1e]);
   (0x10bf, [0x2d1f]); (0x10c0, [0x2d20]); (0x10c1, [0x2d21]); (0x10c2, [0x2d22]);
   (0x10c3, [0x2d23]); (0x10c4, [0x2d24]); (0x10c5, [0x2d25]); (0x10c7, [0x2d27]);
   (0x10cd, [0x2d2d]); (0x13a0, [0xab70]); (0x13a1, [0xab71]); (0x13a2, [0xab72]);
   (0x13a3, [0xab73]); (0x13a4, [0xab74]); (0x13a5, [0xab75]); (0x13a6, [0xab76]);
   (0x13a7, [0xab77]); (0x13a8, [0xab78]); (0x13a9, [0xab79]); (0x13aa, [0xab7a]);
   (0x13ab, [0xab7b]); (0x13ac, [0xab7c]); (0x13ad, [0xab7d]); (0x13ae, [0xab7e]);
   (0x13af, [0xab7f]); (0x13b0, [0xab80]); (0x13b1, [0xab81]); (0x13b2, [0xab82]);
   (0x13b3, [0xab83]); (0x13b4, [0xab84]); (0x13b5, [0xab85]); (0x13b6, [0xab86]);
   (0x13b7, [0xab87]); (0x13b8, [0xab88]); (0x13b9, [0xab89]); (0x13ba, [0xab8a]);
   (0x13bb, [0xab8b]); (0x13bc, [0xab8c]); (0x13bd, [0xab8d]); (0x13be, [0xab8e]);
   (0x13bf, [0xab8f]); (0x13c0, [0xab90]); (0x13c1, [0xab91]); (0x13c2, [0xab92]);
   (0x13c3, [0xab93]); (0x13c4, [0xab94]); (0x13c5, [0xab95]); (0x13c6, [0xab96]);
   (0x13c7, [0xab97]); (0x13c8, [0xab98]); (0x13c9, [0xab99]); (0x13ca, [0xab9a]);
   (0x13cb, [0xab9b]); (0x13cc, [0xab9c]); (0x13cd, [0xab9d]); (0x13ce, [0xab9e]);
   (0x13cf, [0xab9f]); (0x13d0, [0xaba0]); (0x13d1, [0xaba1]); (0x13d2, [0xaba2]);
   (0x13d3, [0xaba3]); (0x13d4, [0xaba4]); (0x13d5, [0xaba5]); (0x13d6, [0xaba6]);
   (0x13d7, [0xaba7]); (0x13d8, [0xaba8]); (0x13d9, [0xaba9]); (0x13da, [0xabaa]);
   (0x13db, [0xabab]); (0x13dc, [0xabac]); (0x13dd, [0xabad]); (0x13de, [0xabae]);
   (0x13df, [0xabaf]); (0x13e0, [0xabb0]); (0x13e1, [0xabb1]); (0x13e2, [0xabb2]);
   (0x13e3, [0xabb3]); (0x13e4, [0xabb4]); (0x13e5, [0xabb5]); (0x13e6, [0xabb6]);
   (0x13e7, [0xabb7]); (0x13e8, [0xabb8]); (0x13e9, [0xabb9]); (0x13ea, [0xabba]);
   (0x13eb, [0xabbb]); (0x13ec, [0xabbc]); (0x13ed, [0xabbd]); (0x13ee, [0xabbe]);
   (0x13ef, [0xabbf]); (0x13f0, [0x13f8]); (0x13f1, [0x13f9]); (0x13f2, [0x13fa]);
   (0x13f3, [0x13fb]); (0x13f4, [0x13fc]); (0x13f5, [0x13fd]); (0x1c90, [0x10d0]);
   (0x1c91, [0x10d1]); (0x1c92, [0x10d2]); (0x1c93, [0x10d3]); (0x1c94, [0x10d4]);
   (0x1c95, [0x10d5]); (0x1c96, [0x10d6]); (0x1c97, [0x10d7]); (0x1c98, [0x10d8]);
   (0x1c99, [0x10d9]); (0x1c9a, [0x10da]); (0x1c9b, [0x10db]); (0x1c9c, [0x10dc]);
   (0x1c9d, [0x10dd]); (0x1c9e, [0x10de]); (0x1c9f, [0x10df]); (0x1ca0, [0x10e0]);
   (0x1ca1, [0x10e1]); (0x1ca2, [0x10e2]); (0x1ca3, [0x10e3]); (0x1ca4, [0x10e4]);
   (0x1ca5, [0x10e5]); (0x1ca6, [0x10e6]); (0x1ca7, [0x10e7]); (0x1ca8, [0x10e8]);
   (0x1ca9, [0x10e9]); (0x1caa, [0x10ea]); (0x1cab, [0x10eb]); (0x1cac, [0x10ec]);
   (0x1cad, [0x10ed]); (0x1cae, [0x10ee]); (0x1caf, [0x10ef]); (0x1cb0, [0x10f0]);
   (0x1cb1, [0x10f1]); (0x1cb2, [0x10f2]); (0x1cb3, [0x10f3]); (0x1cb4, [0x10f4]);
   (0x1cb5, [0x10f5]); (0x1cb6, [0x10f6]); (0x1cb7, [0x10f7]); (0x1cb8, [0x10f8]);
   (0x1cb9, [0x10f9]); (0x1cba, [0x10fa]); (0x1cbd, [0x10fd]); (0x1cbe, [0x10fe]);
   (0x1cbf, [0x10ff]); (0x1e00, [0x1e01]); (0x1e02, [0x1e03]); (0x1e04, [0x1e05]);
   (0x1e06, [0x1e07]); (0x1e08, [0x1e09]); (0x1e0a, [0x1e0b]); (0x1e0c, [0x1e0d]);
   (0x1e0e, [0x1e0f]); (0x1e10, [0x1e11]); (0x1e12, [0x1e13]); (0x1e14, [0x1e15]);
   (0x1e16, [0x1e17]); (0x1e18, [0x1e19]); (0x1e1a, [0x1e1b]); (0x1e1c, [0x1e1d]);
   (0x1e1e, [0x1e1f]); (0x1e20, [0x1e21]); (0x1e22, [0x1e23]); (0x1e24, [0x1e25]);
   (0x1e26, [0x1e27]); (0x1e28, [0x1e29]); (0x1e2a, [0x1e2b]); (0x1e2c, [0x1e2d]);
   (0x1e2e, [0x1e2f]); (0x1e30, [0x1e31]); (0x1e32, [0x1e33]); (0x1e34, [0x1e35]);
   (0x1e36, [0x1e37]); (0x1e38, [0x1e39]); (0x1e3a, [0x1e3b]); (0x1e3c, [0x1e3d]);
   (0x1e3e, [0x1e3f]); (0x1e40, [0x1e41]); (0x1e42, [0x1e43]); (0x1e44, [0x1e45]);
   (0x1e46, [0x1e47]); (0x1e48, [0x1e49]); (0x1e4a, [0x1e4b]); (0x1e4c, [0x1e4d]);
   (0x1e4e, [0x1e4f]); (0x1e50, [0x1e51]); (0x1e52, [0x1e53]); (0x1e54, [0x1e55]);
   (0x1e56, [0x1e57]); (0x1e58, [0x1e59]); (0x1e5a, [0x1e5b]); (0x1e5c, [0x1e5d]);
   (0x1e5e, [0x1e5f]); (0x1e60, [0x1e61]); (0x1e62, [0x1e63]); (0x1e64, [0x1e65]);
   (0x1e66, [0x1e67]); (0x1e68, [0x1e69]); (0x1e6a, [0x1e6b]); (0x1e6c, [0x1e6d]);
   (0x1e6e, [0x1e6f]); (0x1e70, [0x1e71]); (0x1e72, [0x1e73]); (0x1e74, [0x1e75]);
   (0x1e76, [0x1e77]); (0x1e78, [0x1e79]); (0x1e7a, [0x1e7b]); (0x1e7c, [0x1e7d]);
   (0x1e7e, [0x1e7f]); (0x1e80, [0x1e81]); (0x1e82, [0x1e83]); (0x1e84, [0x1e85]);
   (0x1e86, [0x1e87]); (0x1e88, [0x1e89]); (0x1e8a, [0x1e8b]); (0x1e8c, [0x1e8d]);
   (0x1e8e, [0x1e8f]); (0x1e90, [0x1e91]); (0x1e92, [0x1e93]); (0x1e94, [0x1e95]);
   (0x1e9e, [0xdf]); (0x1ea0, [0x1ea1]); (0x1ea2, [0x1ea3]); (0x1ea4, [0x1ea5]);
   (0x1ea6, [0x1ea7]); (0x1ea8, [0x1ea9]); (0x1eaa, [0x1eab]); (0x1eac, [0x1ead]);
   (0x1eae, [0x1eaf]); (0x1eb0, [0x1eb1]); (0x1eb2, [0x1eb3]); (0x1eb4, [0x1eb5]);
   (0x1eb6, [0x1eb7]); (0x1eb8, [0x1eb9]); (0x1eba, [0x1ebb]); (0x1ebc, [0x1ebd]);
   (0x1ebe, [0x1ebf]); (0x1ec0, [0x1ec1]); (0x1ec2, [0x1ec3]); (0x1ec4, [0x1ec5]);
   (0x1ec6, [0x1ec7]); (0x1ec8, [0x1ec9]); (0x1eca, [0x1ecb]); (0x1ecc, [0x1ecd]);
   (0x1ece, [0x1ecf]); (0x1ed0, [0x1ed1]); (0x1ed2, [0x1ed3]); (0x1ed4, [0x1ed5]);
   (0x1ed6, [0x1ed7]); (0x1ed8, [0x1ed9]); (0x1eda, [0x1edb]); (0x1edc, [0x1edd]);
   (0x1ede, [0x1edf]); (0x1ee0, [0x1ee1]); (0x1ee2, [0x1ee3]); (0x1ee4, [0x1ee5]);
   (0x1ee6, [0x1ee7]); (0x1ee8, [0x1ee9]); (0x1eea, [0x1eeb]); (0x1eec, [0x1eed]);
   (0x1eee, [0x1eef]); (0x1ef0, [0x1ef1]); (0x1ef2, [0x1ef3]); (0x1ef4, [0x1ef5]);
   (0x1ef6, [0x1ef7]); (0x1ef8, [0x1ef9]); (0x1efa, [0x1efb]); (0x1efc, [0x1efd]);
   (0x1efe, [0x1eff]); (0x1f08, [0x1f00]); (0x1f09, [0x1f01]); (0x1f0a, [0x1f02]);
   (0x1f0b, [0x1f03]); (0x1f0c, [0x1f04]); (0x1f0d, [0x1f05]); (0x1f0e, [0x1f06]);
   (0x1f0f, [0x1f07]); (0x1f18, [0x1f10]); (0x1f19, [0x1f11]); (0x1f1a, [0x1f12]);
   (0x1f1b, [0x1f13]); (0x1f1c, [0x1f14]); (0x1f1d, [0x1f15]); (0x1f28, [0x1f20]);
   (0x1f29, [0x1f21]); (0x1f2a, [0x1f22]); (0x1f2b, [0x1f23]); (0x1f2c, [0x1f24]);
   (0x1f2d, [0x1f25]); (0x1f2e, [0x1f26]); (0x1f2f, [0x1f27]); (0x1f38, [0x1f30]);
   (0x1f39, [0x1f31]); (0x1f3a, [0x1f32]); (0x1f3b, [0x1f33]); (0x1f3c, [0x1f34]);
   (0x1f3d, [0x1f35]); (0x1f3e, [0x1f36]); (0x1f3f, [0x1f37]); (0x1f48, [0x1f40]);
   (0x1f49, [0x1f41]); (0x1f4a, [0x1f42]); (0x1f4b, [0x1f43]); (0x1f4c, [0x1f44]);
   (0x1f4d, [0x1f45]); (0x1f59, [0x1f51]); (0x1f5b, [0x1f53]); (0x1f5d, [0x1f55]);
   (0x1f5f, [0x1f57]); (0x1f68, [0x1f60]); (0x1f69, [0x1f61]); (0x1f6a, [0x1f62]);
   (0x1f6b, [0x1f63]); (0x1f6c, [0x1f64]); (0x1f6d, [0x1f65]); (0x1f6e, [0x1f66]);
   (0x1f6f, [0x1f67]); (0x1f88, [0x1f80]); (0x1f89, [0x1f81]); (0x1f8a, [0x1f82]);
   (0x1f8b, [0x1f83]); (0x1f8c, [0x1f84]); (0x1f8d, [0x1f85]); (0x1f8e, [0x1f86]);
   (0x1f8f, [0x1f87]); (0x1f98, [0x1f90]); (0x1f99, [0x1f91]); (0x1f9a, [0x1f92]);
   (0x1f9b, [0x1f93]); (0x1f9c, [0x1f94]); (0x1f9d, [0x1f95]); (0x1f9e, [0x1f96]);
   (0x1f9f, [0x1f97]); (0x1fa8, [0x1fa0]); (0x1fa9, [0x1fa1]); (0x1faa, [0x1fa2]);
   (0x1fab, [0x1fa3]); (0x1fac, [0x1fa4]); (0x1fad, [0x1fa5]); (0x1fae, [0x1fa6]);
   (0x1faf, [0x1fa7]); (0x1fb8, [0x1fb0]); (0x1fb9, [0x1fb1]); (0x1fba, [0x1f70]);
   (0x1fbb, [0x1f71]); (0x1fbc, [0x1fb3]); (0x1fc8, [0x1f72]); (0x1fc9, [0x1f73]);
   (0x1fca, [0x1f74]); (0x1fcb, [0x1f75]); (0x1fcc, [0x1fc3]); (0x1fd8, [0x1fd0]);
   (0x1fd9, [0x1fd1]); (0x1fda, [0x1f76]); (0x1fdb, [0x1f77]); (0x1fe8, [0x1fe0]);
   (0x1fe9, [0x1fe1]); (0x1fea, [0x1f7a]); (0x1feb, [0x1f7b]); (0x1fec, [0x1fe5]);
   (0x1ff8, [0x1f78]); (0x1ff9, [0x1f79]); (0x1ffa, [0x1f7c]); (0x1ffb, [0x1f7d]);
   (0x1ffc, [0x1ff3]); (0x2126, [0x3c9]); (0x212a, [0x6b]); (0x212b, [0xe5]);
   (0x2132, [0x214e]); (0x2160, [0x2170]); (0x2161, [0x2171]); (0x2162, [0x2172]);
   (0x2163, [0x2173]); (0x2164, [0x2174]); (0x2165, [0x2175]); (0x2166, [0x2176]);
   (0x2167, [0x2177]); (0x2168, [0x2178]); (0x2169, [0x2179]); (0x216a, [0x217a]);
   (0x216b, [0x217b]); (0x216c, [0x217c]); (0x216d, [0x217d]); (0x216e, [0x217e]);
   (0x216f, [0x217f]); (0x2183, [0x2184]); (0x24b6, [0x24d0]); (0x24b7, [0x24d1]);
   (0x24b8, [0x24d2]); (0x24b9, [0x24d3]); (0x24ba, [0x24d4]); (0x24bb, [0x24d5]);
   (0x24bc, [0x24d6]); (0x24bd, [0x24d7]); (0x24be, [0x24d8]); (0x24bf, [0x24d9]);
   (0x24c0, [0x24da]); (0x24c1, [0x24db]); (0x24c2, [0x24dc]); (0x24c3, [0x24dd]);
   (0x24c4, [0x24de]); (0x24c5, [0x24df]); (0x24c6, [0x24e0]); (0x24c7, [0x24e1]);
   (0x24c8, [0x24e2]); (0x24c9, [0x24e3]); (0x24ca, [0x24e4]); (0x24cb, [0x24e5]);
   (0x24cc, [0x24e6]); (0x24cd, [0x24e7]); (0x24ce, [0x24e8]); (0x24cf, [0x24e9]);
   (0x2c00, [0x2c30]); (0x2c01, [0x2c31]); (0x2c02, [0x2c32]); (0x2c03, [0x2c33]);
   (0x2c04, [0x2c34]); (0x2c05, [0x2c35]); (0x2c06, [0x2c36]); (0x2c07, [0x2c37]);
   (0x2c08, [0x2c38]); (0x2c09, [0x2c39]); (0x2c0a, [0x2c3a]); (0x2c0b, [0x2c3b]);
   (0x2c0c, [0x2c3c]); (0x2c0d, [0x2c3d]); (0x2c0e, [0x2c3e]); (0x2c0f, [0x2c3f]);
   (0x2c10, [0x2c40]); (0x2c11, [0x2c41]); (0x2c12, [0x2c42]); (0x2c13, [0x2c43]);
   (0x2c14, [0x2c44]); (0x2c15, [0x2c45]); (0x2c16, [0x2c46]); (0x2c17, [0x2c47]);
   (0x2c18, [0x2c48]); (0x2c19, [0x2c49]); (0x2c1a, [0x2c4a]); (0x2c1b, [0x2c4b]);
   (0x2c1c, [0x2c4c]); (0x2c1d, [0x2c4d]); (0x2c1e, [0x2c4e]); (0x2c1f, [0x2c4f]);
   (0x2c20, [0x2c50]); (0x2c21, [0x2c51]); (0x2c22, [0x2c52]); (0x2c23, [0x2c53]);
   (0x2c24, [0x2c54]); (0x2c25, [0x2c55]); (0x2c26, [0x2c56]); (0x2c27, [0x2c57]);
   (0x2c28, [0x2c58]); (0x2c29, [0x2c59]); (0x2c2a, [0x2c5a]); (0x2c2b, [0x2c5b]);
   (0x2c2c, [0x2c5c]); (0x2c2d, [0x2c5d]); (0x2c2e, [0x2c5e]); (0x2c2f, [0x2c5f]);
   (0x2c60, [0x2c61]); (0x2c62, [0x26b]); (0x2c63, [0x1d7d]); (0x2c64, [0x27d]);
   (0x2c67, [0x2c68]); (0x2c69, [0x2c6a]); (0x2c6b, [0x2c6c]); (0x2c6d, [0x251]);
   (0x2c6e, [0x271]); (0x2c6f, [0x250]); (0x2c70, [0x252]); (0x2c72, [0x2c73]);
   (0x2c75, [0x2c76]); (0x2c7e, [0x23f]); (0x2c7f, [0x240]); (0x2c80, [0x2c81]);
   (0x2c82, [0x2c83]); (0x2c84, [0x2c85]); (0x2c86, [0x2c87]); (0x2c88, [0x2c89]);
   (0x2c8a, [0x2c8b]); (0x2c8c, [0x2c8d]); (0x2c8e, [0x2c8f]); (0x2c90, [0x2c91]);
   (0x2c92, [0x2c93]); (0x2c94, [0x2c95]); (0x2c96, [0x2c97]); (0x2c98, [0x2c99]);
   (0x2c9a, [0x2c9b]); (0x2c9c, [0x2c9d]); (0x2c9e, [0x2c9f]); (0x2ca0, [0x2ca1]);
   (0x2ca2, [0x2ca3]); (0x2ca4, [0x2ca5]); (0x2ca6, [0x2ca7]); (0x2ca8, [0x2ca9]);
   (0x2caa, [0x2cab]); (0x2cac, [0x2cad]); (0x2cae, [0x2caf]); (0x2cb0, [0x2cb1]);
   (0x2cb2, [0x2cb3]); (0x2cb4, [0x2cb5]); (0x2cb6, [0x2cb7]); (0x2cb8, [0x2cb9]);
   (0x2cba, [0x2cbb]); (0x2cbc, [0x2cbd]); (0x2cbe, [0x2cbf]); (0x2cc0, [0x2cc1]);
   (0x2cc2, [0x2cc3]); (0x2cc4, [0x2cc5]); (0x2cc6, [0x2cc7]); (0x2cc8, [0x2cc9]);
   (0x2cca, [0x2ccb]); (0x2ccc, [0x2ccd]); (0x2cce, [0x2ccf]); (0x2cd0, [0x2cd1]);
   (0x2cd2, [0x2cd3]); (0x2cd4, [0x2cd5]); (0x2cd6, [0x2cd7]); (0x2cd8, [0x2cd9]);
   (0x2cda, [0x2cdb]); (0x2cdc, [0x2cdd]); (0x2cde, [0x2cdf]); (0x2ce0, [0x2ce1]);
   (0x2ce2, [0x2ce3]); (0x2ceb, [0x2cec]); (0x2ced, [0x2cee]); (0x2cf2, [0x2cf3]);
   (0xa640, [0xa641]); (0xa642, [0xa643]); (0xa644, [0xa645]); (0xa646, [0xa647]);
   (0xa648, [0xa649]); (0xa64a, [0xa64b]); (0xa64c, [0xa64d]); (0xa64e, [0xa64f]);
   (0xa650, [0xa651]); (0xa652, [0xa653]); (0xa654, [0xa655]); (0xa656, [0xa657]);
   (0xa658, [0xa659]); (0xa65a, [0xa65b]); (0xa65c, [0xa65d]); (0xa65e, [0xa65f]);
   (0xa660, [0xa661]); (0xa662, [0xa663]); (0xa664, [0xa665]); (0xa666, [0xa667]);
   (0xa668, [0xa669]); (0xa66a, [0xa66b]); (0xa66c, [0xa66d]); (0xa680, [0xa681]);
   (0xa682, [0xa683]); (0xa684, [0xa685]); (0xa686, [0xa687]); (0xa688, [0xa689]);
   (0xa68a, [0xa68b]); (0xa68c, [0xa68d]); (0xa68e, [0xa68f]); (0xa690, [0xa691]);
   (0xa692, [0xa693]); (0xa694, [0xa695]); (0xa696, [0xa697]); (0xa698, [0xa699]);
   (0xa69a, [0xa69b]); (0xa722, [0xa723]); (0xa724, [0xa725]); (0xa726, [0xa727]);
   (0xa728, [0xa729]); (0xa72a, [0xa72b]); (0xa72c, [0xa72d]); (0xa72e, [0xa72f]);
   (0xa732, [0xa733]); (0xa734, [0xa735]); (0xa736, [0xa737]); (0xa738, [0xa739]);
   (0xa73a, [0xa73b]); (0xa73c, [0xa73d]); (0xa73e, [0xa73f]); (0xa740, [0xa741]);
   (0xa742, [0xa743]); (0xa744, [0xa745]); (0xa746, [0xa747]); (0xa748, [0xa749]);
   (0xa74a, [0xa74b]); (0xa74c, [0xa74d]); (0xa74e, [0xa74f]); (0xa750, [0xa751]);
   (0xa752, [0xa753]); (0xa754, [0xa755]); (0xa756, [0xa757]); (0xa758, [0xa759]);
   (0xa75a, [0xa75b]); (0xa75c, [0xa75d]); (0xa75e, [0xa75f]); (0xa760, [0xa761]);
   (0xa762, [0xa763]); (0xa764, [0xa765]); (0xa766, [0xa767]); (0xa768, [0xa769]);
   (0xa76a, [0xa76b]); (0xa76c, [0xa76d]); (0xa76e, [0xa76f]); (0xa779, [0xa77a]);
   (0xa77b, [0xa77c]); (0xa77d, [0x1d79]); (0xa77e, [0xa77f]); (0xa780, [0xa781]);
   (0xa782, [0xa783]); (0xa784, [0xa785]); (0xa786, [0xa787]); (0xa78b, [0xa78c]);
   (0xa78d, [0x265]); (0xa790, [0xa791]); (0xa792, [0xa793]); (0xa796, [0xa797]);
   (0xa798, [0xa799]); (0xa79a, [0xa79b]); (0xa79c, [0xa79d]); (0xa79e, [0xa79f]);
   (0xa7a0, [0xa7a1]); (0xa7a2, [0xa7a3]); (0xa7a4, [0xa7a5]); (0xa7a6, [0xa7a7]);
   (0xa7a8, [0xa7a9]); (0xa7aa, [0x266]); (0xa7ab, [0x25c]); (0xa7ac, [0x261]);
   (0xa7ad, [0x26c]); (0xa7ae, [0x26a]); (0xa7b0, [0x29e]); (0xa7b1, [0x287]);
   (0xa7b2, [0x29d]); (0xa7b3, [0xab53]); (0xa7b4, [0xa7b5]); (0xa7b6, [0xa7b7]);
   (0xa7b8, [0xa7b9]); (0xa7ba, [0xa7bb]); (0xa7bc, [0xa7bd]); (0xa7be, [0xa7bf]);
   (0xa7c0, [0xa7c1]); (0xa7c2, [0xa7c3]); (0xa7c4, [0xa794]); (0xa7c5, [0x282]);
   (0xa7c6, [0x1d8e]); (0xa7c7, [0xa7c8]); (0xa7c9, [0xa7ca]); (0xa7d0, [0xa7d1]);
   (0xa7d6, [0xa7d7]); (0xa7d8, [0xa7d9]); (0xa7f5, [0xa7f6]); (0xff21, [0xff41]);
   (0xff22, [0xff42]); (0xff23, [0xff43]); (0xff24, [0xff44]); (0xff25, [0xff45]);
   (0xff26, [0xff46]); (0xff27, [0xff47]); (0xff28, [0xff48]); (0xff29, [0xff49]);
   (0xff2a, [0xff4a]); (0xff2b, [0xff4b]); (0xff2c, [0xff4c]); (0xff2d, [0xff4d]);
   (0xff2e, [0xff4e]); (0xff2f, [0xff4f]); (0xff30, [0xff50]); (0xff31, [0xff51]);
   (0xff32, [0xff52]); (0xff33, [0xff53]); (0xff34, [0xff54]); (0xff35, [0xff55]);
   (0xff36, [0xff56]); (0xff37, [0xff57]); (0xff38, [0xff58]); (0xff39, [0xff59]);
   (0xff3a, [0xff5a]); (0x10400, [0x10428]); (0x10401, [0x10429]);
   (0x10402, [0x1042a]); (0x10403, [0x1042b]); (0x10404, [0x1042c]);
   (0x10405, [0x1042d]); (0x10406, [0x1042e]); (0x10407, [0x1042f]);
   (0x10408, [0x10430]); (0x10409, [0x10431]); (0x1040a, [0x10432]);
   (0x1040b, [0x10433]); (0x1040c, [0x10434]); (0x1040d, [0x10435]);
   (0x1040e, [0x10436]); (0x1040f, [0x10437]); (0x10410, [0x10438]);
   (0x10411, [0x10439]); (0x10412, [0x1043a]); (0x10413, [0x1043b]);
   (0x10414, [0x1043c]); (0x10415, [0x1043d]); (0x10416, [0x1043e]);
   (0x10417, [0x1043f]); (0x10418, [0x10440]); (0x10419, [0x10441]);
   (0x1041a, [0x10442]); (0x1041b, [0x10443]); (0x1041c, [0x10444]);
   (0x1041d, [0x10445]); (0x1041e, [0x10446]); (0x1041f, [0x10447]);
   (0x10420, [0x10448]); (0x10421, [0x10449]); (0x10422, [0x1044a]);
   (0x10423, [0x1044b]); (0x10424, [0x1044c]); (0x10425, [0x1044d]);
   (0x10426, [0x1044e]); (0x10427, [0x1044f]); (0x104b0, [0x104d8]);
   (0x104b1, [0x104d9]); (0x104b2, [0x104da]); (0x104b3, [0x104db]);
   (0x104b4, [0x104dc]); (0x104b5, [0x104dd]); (0x104b6, [0x104de]);
   (0x104b7, [0x104df]); (0x104b8, [0x104e0]); (0x104b9, [0x104e1]);
   (0x104ba, [0x104e2]); (0x104bb, [0x104e3]); (0x104bc, [0x104e4]);
   (0x104bd, [0x104e5]); (0x104be, [0x104e6]); (0x104bf, [0x104e7]);
   (0x104c0, [0x104e8]); (0x104c1, [0x104e9]); (0x104c2, [0x104ea]);
   (0x104c3, [0x104eb]); (0x104c4, [0x104ec]); (0x104c5, [0x104ed]);
   (0x104c6, [0x104ee]); (0x104c7, [0x104ef]); (0x104c8, [0x104f0]);
   (0x104c9, [0x104f1]); (0x104ca, [0x104f2]); (0x104cb, [0x104f3]);
   (0x104cc, [0x104f4]); (0x104cd, [0x104f5]); (0x104ce, [0x104f6]);
   (0x104cf, [0x104f7]); (0x104d0, [0x104f8]); (0x104d1, [0x104f9]);
   (0x104d2, [0x104fa]); (0x104d3, [0x104fb]); (0x10570, [0x10597]);
   (0x10571, [0x10598]); (0x10572, [0x10599]); (0x10573, [0x1059a]);
   (0x10574, [0x1059b]); (0x10575, [0x1059c]); (0x10576, [0x1059d]);
   (0x10577, [0x1059e]); (0x10578, [0x1059f]); (0x10579, [0x105a0]);
   (0x1057a, [0x105a1]); (0x1057c, [0x105a3]); (0x1057d, [0x105a4]);
   (0x1057e, [0x105a5]); (0x1057f, [0x105a6]); (0x10580, [0x105a7]);
   (0x10581, [0x105a8]); (0x10582, [0x105a9]); (0x10583, [0x105aa]);
   (0x10584, [0x105ab]); (0x10585, [0x105ac]); (0x10586, [0x105ad]);
   (0x10587, [0x105ae]); (0x10588, [0x105af]); (0x10589, [0x105b0]);
   (0x1058a, [0x105b1]); (0x1058c, [0x105b3]); (0x1058d, [0x105b4]);
   (0x1058e, [0x105b5]); (0x1058f, [0x105b6]); (0x10590, [0x105b7]);
   (0x10591, [0x105b8]); (0x10592, [0x105b9]); (0x10594, [0x105bb]);
   (0x10595, [0x105bc]); (0x10c80, [0x10cc0]); (0x10c81, [0x10cc1]);
   (0x10c82, [0x10cc2]); (0x10c83, [0x10cc3]); (0x10c84, [0x10cc4]);
   (0x10c85, [0x10cc5]); (0x10c86, [0x10cc6]); (0x10c87, [0x10cc7]);
   (0x10c88, [0x10cc8]); (0x10c89, [0x10cc9]); (0x10c8a, [0x10cca]);
   (0x10c8b, [0x10ccb]); (0x10c8c, [0x10ccc]); (0x10c8d, [0x10ccd]);
   (0x10c8e, [0x10cce]); (0x10c8f, [0x10ccf]); (0x10c90, [0x10cd0]);
   (0x10c91, [0x10cd1]); (0x10c92, [0x10cd2]); (0x10c93, [0x10cd3]);
   (0x10c94, [0x10cd4]); (0x10c95, [0x10cd5]); (0x10c96, [0x10cd6]);
   (0x10c97, [0x10cd7]); (0x10c98, [0x10cd8]); (0x10c99, [0x10cd9]);
   (0x10c9a, [0x10cda]); (0x10c9b, [0x10cdb]); (0x10c9c, [0x10cdc]);
   (0x10c9d, [0x10cdd]); (0x10c9e, [0x10cde]); (0x10c9f, [0x10cdf]);
   (0x10ca0, [0x10ce0]); (0x10ca1, [0x10ce1]); (0x10ca2, [0x10ce2]);
   (0x10ca3, [0x10ce3]); (0x10ca4, [0x10ce4]); (0x10ca5, [0x10ce5]);
   (0x10ca6, [0x10ce6]); (0x10ca7, [0x10ce7]); (0x10ca8, [0x10ce8]);
   (0x10ca9, [0x10ce9]); (0x10caa, [0x10cea]); (0x10cab, [0x10ceb]);
   (0x10cac, [0x10cec]); (0x10cad, [0x10ced]); (0x10cae, [0x10cee]);
   (0x10caf, [0x10cef]); (0x10cb0, [0x10cf0]); (0x10cb1, [0x10cf1]);
   (0x10cb2, [0x10cf2]); (0x118a0, [0x118c0]); (0x118a1, [0x118c1]);
   (0x118a2, [0x118c2]); (0x118a3, [0x118c3]); (0x118a4, [0x118c4]);
   (0x118a5, [0x118c5]); (0x118a6, [0x118c6]); (0x118a7, [0x118c7]);
   (0x118a8, [0x118c8]); (0x118a9, [0x118c9]); (0x118aa, [0x118ca]);
   (0x118ab, [0x118cb]); (0x118ac, [0x118cc]); (0x118ad, [0x118cd]);
   (0x118ae, [0x118ce]); (0x118af, [0x118cf]); (0x118b0, [0x118d0]);
   (0x118b1, [0x118d1]); (0x118b2, [0x118d2]); (0x118b3, [0x118d3]);
   (0x118b4, [0x118d4]); (0x118b5, [0x118d5]); (0x118b6, [0x118d6]);
   (0x118b7, [0x118d7]); (0x118b8, [0x118d8]); (0x118b9, [0x118d9]);
   (0x118ba, [0x118da]); (0x118bb, [0x118db]); (0x118bc, [0x118dc]);
   (0x118bd, [0x118dd]); (0x118be, [0x118de]); (0x118bf, [0x118df]);
   (0x16e40, [0x16e60]); (0x16e41, [0x16e61]); (0x16e42, [0x16e62]);
   (0x16e43, [0x16e63]); (0x16e44, [0x16e64]); (0x16e45, [0x16e65]);
   (0x16e46, [0x16e66]); (0x16e47, [0x16e67]); (0x16e48, [0x16e68]);
   (0x16e49, [0x16e69]); (0x16e4a, [0x16e6a]); (0x16e4b, [0x16e6b]);
   (0x16e4c, [0x16e6c]); (0x16e4d, [0x16e6d]); (0x16e4e, [0x16e6e]);
   (0x16e4f, [0x16e6f]); (0x16e50, [0x16e70]); (0x16e51, [0x16e71]);
   (0x16e52, [0x16e72]); (0x16e53, [0x16e73]); (0x16e54, [0x16e74]);
   (0x16e55, [0x16e75]); (0x16e56, [0x16e76]); (0x16e57, [0x16e77]);
   (0x16e58, [0x16e78]); (0x16e59, [0x16e79]); (0x16e5a, [0x16e7a]);
   (0x16e5b, [0x16e7b]); (0x16e5c, [0x16e7c]); (0x16e5d, [0x16e7d]);
   (0x16e5e, [0x16e7e]); (0x16e5f, [0x16e7f]); (0x1e900, [0x1e922]);
   (0x1e901, [0x1e923]); (0x1e902, [0x1e924]); (0x1e903, [0x1e925]);
   (0x1e904, [0x1e926]); (0x1e905, [0x1e927]); (0x1e906, [0x1e928]);
   (0x1e907, [0x1e929]); (0x1e908, [0x1e92a]); (0x1e909, [0x1e92b]);
   (0x1e90a, [0x1e92c]); (0x1e90b, [0x1e92d]); (0x1e90c, [0x1e92e]);
   (0x1e90d, [0x1e92f]); (0x1e90e, [0x1e930]); (0x1e90f, [0x1e931]);
   (0x1e910, [0x1e932]); (0x1e911, [0x1e933]); (0x1e912, [0x1e934]);
   (0x1e913, [0x1e935]); (0x1e914, [0x1e936]); (0x1e915, [0x1e937]);
   (0x1e916, [0x1e938]); (0x1e917, [0x1e939]); (0x1e918, [0x1e93a]);
   (0x1e919, [0x1e93b]); (0x1e91a, [0x1e93c]); (0x1e91b, [0x1e93d]);
   (0x1e91c, [0x1e93e]); (0x1e91d, [0x1e93f]); (0x1e91e, [0x1e940]);
   (0x1e91f, [0x1e941]); (0x1e920, [0x1e942]); (0x1e921, [0x1e943])].

(** Membership in a list of inclusive ranges. *)
Definition in_ranges (rs : list (Z * Z)) (c : Z) : bool :=
  existsb (fun r => (fst r <=? c) && (c <=? snd r)) rs.

(** The entry of a character in a mapping listed in code point order. *)
Fixpoint mapped (c : Z) (t : list (Z * list Z)) : option (list Z) :=
  match t with
  | [] => None
  | (k, v) :: t' =>
      if c =? k then Some v
      else if c <? k then None
      else mapped c t'
  end.

End Unicode.

(** ** Python string primitives *)

Module PyStr.

Local Open Scope Z_scope.

(** [c.isspace()] *)
Definition is_space (c : Z) : bool := Unicode.in_ranges Unicode.whitespace c.

Definition is_cased (c : Z) : bool := Unicode.in_ranges Unicode.cased_characters c.

Definition is_case_ignorable (c : Z) : bool :=
  Unicode.in_ranges Unicode.case_ignorable c.

(** The lowercase form of one character other than U+03A3. *)
Definition lower_char (c : Z) : str :=
  match Unicode.mapped c Unicode.lowercase_mapping with
  | Some v => v
  | None => [c]
  end.

Fixpoint skip_ignorable (s : str) : str :=
  match s with
  | [] => []
  | c :: s' => if is_case_ignorable c then skip_ignorable s' else s
  end.

(** Whether a capital sigma ends a word: a cased character comes before it,
    case-ignorable ones apart, and none comes after it. *)
Definition final_sigma (after_cased : bool) (rest : str) : bool :=
  after_cased
  && match skip_ignorable rest with
     | [] => true
     | c :: _ => negb (is_cased c)
     end.

(** [s.lower()] from some position on; [after_cased] tells whether the
    nearest character before it that is not case-ignorable is cased. *)
Fixpoint lower_from (after_cased : bool) (s : str) : str :=
  match s with
  | [] => []
  | c :: s' =>
      (if c =? 0x3A3
       then [if final_sigma after_cased s' then 0x3C2 else 0x3C3]
       else lower_char c)
      ++ lower_from (if is_case_ignorable c then after_cased else is_cased c) s'
  end.

(** [s.lower()] *)
Definition lower (s : str) : str := lower_from false s.

(** [s.lstrip()] *)
Fixpoint lstrip (s : str) : str :=
  match s with
  | [] => []
  | c :: s' => if is_space c then lstrip s' else s
  end.

(** [s.rstrip()] *)
Fixpoint rstrip (s : str) : str :=
  match s with
  | [] => []
  | c :: s' =>
      match rstrip s' with
      | [] => if is_space c then [] else [c]
      | r => c :: r
      end
  end.

(** [s.strip()] *)
Definition strip (s : str) : str := rstrip (lstrip s).

(** [s.startswith(p)] *)
Fixpoint startswith (p s : str) : bool :=
  match p, s with
  | [], _ => true
  | a :: p', b :: s' => if a =? b then startswith p' s' else false
  | _ :: _, [] => false
  end.

(** [p in s] for strings. *)
Fixpoint contains (p s : str) : bool :=
  startswith p s ||
  match s with
  | [] => false
  | _ :: s' => contains p s'
  end.

(** Python truthiness of a string. *)
Definition truthy (s : str) : bool :=
  match s with [] => false | _ => true end.

(** Every character is whitespace (this includes the empty string). *)
Fixpoint all_space (s : str) : bool :=
  match s with
  | [] => true
  | c :: s' => is_space c && all_space s'
  end.

End PyStr.

(** ** Regular expressions and string helpers of the metadata reader

    The lines handed to these functions come from [stdout.split('\n')], so
    they hold no newline and [.] of a regular expression matches each of
    their characters. *)

Module Re.
Import PyStr.

Local Open Scope Z_scope.

(** The rest of [s] after the prefix [p], if [s] starts with [p]. *)
Fixpoint drop_prefix (p s : str) : option str :=
  match p, s with
  | [], _ => Some s
  | a :: p', b :: s' => if a =? b then drop_prefix p' s' else None
  | _ :: _, [] => None
  end.

Fixpoint last_char (s : str) : str :=
  match s with
  | [] => []
  | [c] => s
  | _ :: s' => last_char s'
  end.

(** [\s*(.+)] against all of [v]: group 1.  The greedy [\s*] gives one
    character back when nothing else is left for [.+]. *)
Definition capture (v : str) : option str :=
  match v with
  | [] => None
  | _ => match lstrip v with
         | [] => Some (last_char v)
         | r => Some r
         end
  end.

(** [kw\s*:\s*(.+)] matched at the start of [s]. *)
Definition match_here (kw s : str) : option str :=
  match drop_prefix kw s with
  | Some r => match lstrip r with
              | 0x3A :: v => capture v
              | _ => None
              end
  | None => None
  end.

(** [re.search(kw + r'\s*:\s*(.+)', s).group(1)], leftmost match. *)
Fixpoint search_field (kw s : str) : option str :=
  match match_here kw s with
  | Some g => Some g
  | None => match s with
            | [] => None
            | _ :: s' => search_field kw s'
            end
  end.

(** [re.search(r':\s*(.+)', s).group(1)]: the first colon that has something
    after it. *)
Fixpoint search_value (s : str) : option str :=
  match s with
  | [] => None
  | c :: s' =>
      if c =? 0x3A then
        match capture s' with
        | Some g => Some g
        | None => search_value s'
        end
      else search_value s'
  end.

(** [re.search(r'(?:RegionName|RegionPersonDisplayName)\s*:\s*(.+)', s)]:
    at each position the first alternative is tried first. *)
Fixpoint search_region_name (s : str) : option str :=
  match match_here "RegionName" s with
  | Some g => Some g
  | None =>
      match match_here "RegionPersonDisplayName" s with
      | Some g => Some g
      | None => match s with
                | [] => None
                | _ :: s' => search_region_name s'
                end
      end
  end.

(** [\d] *)
Definition is_digit (c : Z) : bool := Unicode.in_ranges Unicode.decimal_digits c.

(** One or more characters of the class [cls], then the rest. *)
Fixpoint skip (cls : Z -> bool) (s : str) : str :=
  match s with
  | c :: s' => if cls c then skip cls s' else s
  | [] => []
  end.

Definition plus (cls : Z -> bool) (s : str) : option str :=
  match s with
  | c :: s' => if cls c then Some (skip cls s') else None
  | [] => None
  end.

(** [re.match(r'^\d+\s+\d+\s+\d+\s+\d+$', s)] on a stripped [s]. *)
Definition four_integers (s : str) : bool :=
  match plus is_digit s with
  | Some s1 =>
    match plus is_space s1 with
    | Some s2 =>
      match plus is_digit s2 with
      | Some s3 =>
        match plus is_space s3 with
        | Some s4 =>
          match plus is_digit s4 with
          | Some s5 =>
            match plus is_space s5 with
            | Some s6 =>
              match plus is_digit s6 with
              | Some [] => true
              | _ => false
              end
            | None => false
            end
          | None => false
          end
        | None => false
        end
      | None => false
      end
    | None => false
    end
  | None => false
  end.

(** [s.split(c, 1)] when [c] occurs in [s]: the parts around its first
    occurrence. *)
Fixpoint split1 (c : Z) (s : str) : option (str * str) :=
  match s with
  | [] => None
  | a :: s' =>
      if a =? c then Some ([], s')
      else match split1 c s' with
           | Some (k, v) => Some (a :: k, v)
           | None => None
           end
  end.

(** [s.replace(a, b)] for single characters. *)
Fixpoint replace_char (a b : Z) (s : str) : str :=
  match s with
  | [] => []
  | c :: s' => (if c =? a then b else c) :: replace_char a b s'
  end.

(** [s.split('\n')] *)
Fixpoint split_lines (s : str) : list str :=
  match s with
  | [] => [[]]
  | c :: s' =>
      if c =? 0x0A then [] :: split_lines s'
      else match split_lines s' with
           | l :: ls => (c :: l) :: ls
           | [] => [[c]]
           end
  end.

End Re.

(** ** Checks on the character data *)

Module UnicodeChecks.
Import PyStr.

Local Open Scope Z_scope.

(** A character that [str.lower] leaves as it is, wherever it stands. *)
Definition settled (x : Z) : bool :=
  negb (x =? 0x3A3)
  && match Unicode.mapped x Unicode.lowercase_mapping with
     | None => true
     | Some _ => false
     end.

(** What holds of every entry of the lowercase mapping: the character is no
    whitespace, and what it becomes is not empty and made of characters that
    are no whitespace and are themselves left alone. *)
Definition entry_ok (kv : Z * list Z) : bool :=
  negb (is_space (fst kv))
  && match snd kv with [] => false | _ => true end
  && forallb (fun x => negb (is_space x) && settled x) (snd kv).

(** The whitespace characters, one by one. *)
Definition spaces : list Z :=
  [ 0x9; 0xA; 0xB; 0xC; 0xD; 0x1C; 0x1D; 0x1E; 0x1F; 0x20; 0x85; 0xA0; 0x1680;
    0x2000; 0x2001; 0x2002; 0x2003; 0x2004; 0x2005; 0x2006; 0x2007; 0x2008;
    0x2009; 0x200A; 0x2028; 0x2029; 0x202F; 0x205F; 0x3000 ].

(** A whitespace character is neither cased nor case-ignorable, is no capital
    sigma, and [str.lower] leaves it as it is. *)
Definition space_ok (c : Z) : bool :=
  is_space c && negb (is_cased c) && negb (is_case_ignorable c) && settled c.

(** The step of [lower_from]: what the character at hand becomes. *)
Definition step_output (after_cased : bool) (c : Z) (rest : str) : str :=
  if c =? 0x3A3
  then [if final_sigma after_cased rest then 0x3C2 else 0x3C3]
  else lower_char c.

End UnicodeChecks.

(** ** The blacklist ([XmpSidecarGenerator._load_blacklist]) *)

Definition default_blacklist_list : list str :=
  [ "blurry"; "low quality"; "bad quality"; "worst quality"; "jpeg artifacts";
    "watermark"; "text"; "signature"; "username"; "logo";
    "image"; "picture"; "photo"; "art"; "artwork"; "drawing"; "painting";
    "digital art"; "digital painting"; "illustration"; "sketch";
    "ai generated"; "artificial intelligence"; "machine learning";
    "deep learning"; "neural network"; "gan"; "stable diffusion";
    "midjourney"; "dalle"; "openai"; "automatic1111" ].

Definition default_blacklist : gset str := list_to_set default_blacklist_list.

(** What opening and iterating the blacklist file gives: the path does not
    exist, reading raises, or the lines (each still carrying its newline). *)
Inductive FileRead :=
| NotFound
| ReadError
| Lines (ls : list str).

(** [{tag.strip().lower() for tag in custom_blacklist_tags if tag.strip()}] *)
Definition custom_tags (custom_blacklist_tags : list str) : gset str :=
  list_to_set
    (map (fun tag => PyStr.lower (PyStr.strip tag))
       (List.filter (fun tag => PyStr.truthy (PyStr.strip tag)) custom_blacklist_tags)).

(** [{line.strip().lower() for line in f
       if line.strip() and not line.startswith('#')}] *)
Definition file_blacklist (ls : list str) : gset str :=
  list_to_set
    (map (fun line => PyStr.lower (PyStr.strip line))
       (List.filter
          (fun line => PyStr.truthy (PyStr.strip line) && negb (PyStr.startswith "#" line))
          ls)).

Definition _load_blacklist (read_file : str -> FileRead)
    (blacklist_file : option str)
    (custom_blacklist_tags : option (list str)) : gset str :=
  if decide (blacklist_file = Some "DISABLED") then ∅
  else
    let final_blacklist := default_blacklist in
    let final_blacklist :=
      match custom_blacklist_tags with
      | Some (t :: ts) => final_blacklist ∪ custom_tags (t :: ts)
      | _ => final_blacklist
      end in
    let final_blacklist :=
      match blacklist_file with
      | Some path =>
          if PyStr.truthy path then
            match read_file path with
            | Lines ls => final_blacklist ∪ file_blacklist ls
            | NotFound => final_blacklist
            | ReadError => final_blacklist
            end
          else final_blacklist
      | None => final_blacklist
      end in
    final_blacklist.

(** The inputs of a run as lists: the custom tags given ([None] gives
    none) and the lines of the blacklist file (none when no file is named,
    or it is missing or unreadable). *)
Definition custom_entries (custom_blacklist_tags : option (list str)) : list str :=
  match custom_blacklist_tags with
  | Some ts => ts
  | None => []
  end.

Definition file_lines (read_file : str -> FileRead) (blacklist_file : option str)
  : list str :=
  match blacklist_file with
  | Some [] => []
  | Some path => match read_file path with
                 | Lines ls => ls
                 | _ => []
                 end
  | None => []
  end.

(** ** The tag filter ([XmpSidecarGenerator.filter_tags]) *)

(** The test of the loop body: [tag_lower and tag_lower not in self.blacklist]. *)
Definition keeps (blacklist : gset str) (tag : str) : bool :=
  let tag_lower := PyStr.strip (PyStr.lower tag) in
  PyStr.truthy tag_lower && bool_decide (tag_lower ∉ blacklist).

(** The [for] loop, with [filtered_tags] threaded through. *)
Fixpoint filter_tags_loop (blacklist : gset str) (tags filtered_tags : list str)
  : list str :=
  match tags with
  | [] => filtered_tags
  | tag :: rest =>
      if keeps blacklist tag
      then filter_tags_loop blacklist rest (filtered_tags ++ [tag])
      else filter_tags_loop blacklist rest filtered_tags
  end.

Definition filter_tags (blacklist : gset str) (tags : list str) : list str :=
  filter_tags_loop blacklist tags [].

(** ** The metadata reader: parsing of the tool's output
      ([XmpSidecarGenerator.read_existing_metadata], the loop over [lines]) *)

(** One value of [face_regions_by_name]: the dict [{'name': ...}] and the keys
    added to it later. *)
Record FaceRegion := mkFaceRegion {
  fr_name : str;
  rectangle : option str;
  area_x : option str;
  area_y : option str;
  area_w : option str;
  area_h : option str;
  applied_w : option str;
  applied_h : option str;
  applied_unit : option str
}.

Definition new_region (face_name : str) : FaceRegion :=
  mkFaceRegion face_name None None None None None None None None.

(** The keys a region line can set. *)
Inductive RegionKey :=
| KRectangle | KAreaX | KAreaY | KAreaW | KAreaH
| KAppliedW | KAppliedH | KAppliedUnit.

(** [region[key] = v] *)
Definition set_key (k : RegionKey) (v : str) (r : FaceRegion) : FaceRegion :=
  match k with
  | KRectangle => mkFaceRegion (fr_name r) (Some v) (area_x r) (area_y r) (area_w r)
                    (area_h r) (applied_w r) (applied_h r) (applied_unit r)
  | KAreaX => mkFaceRegion (fr_name r) (rectangle r) (Some v) (area_y r) (area_w r)
                (area_h r) (applied_w r) (applied_h r) (applied_unit r)
  | KAreaY => mkFaceRegion (fr_name r) (rectangle r) (area_x r) (Some v) (area_w r)
                (area_h r) (applied_w r) (applied_h r) (applied_unit r)
  | KAreaW => mkFaceRegion (fr_name r) (rectangle r) (area_x r) (area_y r) (Some v)
                (area_h r) (applied_w r) (applied_h r) (applied_unit r)
  | KAreaH => mkFaceRegion (fr_name r) (rectangle r) (area_x r) (area_y r) (area_w r)
                (Some v) (applied_w r) (applied_h r) (applied_unit r)
  | KAppliedW => mkFaceRegion (fr_name r) (rectangle r) (area_x r) (area_y r) (area_w r)
                   (area_h r) (Some v) (applied_h r) (applied_unit r)
  | KAppliedH => mkFaceRegion (fr_name r) (rectangle r) (area_x r) (area_y r) (area_w r)
                   (area_h r) (applied_w r) (Some v) (applied_unit r)
  | KAppliedUnit => mkFaceRegion (fr_name r) (rectangle r) (area_x r) (area_y r) (area_w r)
                      (area_h r) (applied_w r) (applied_h r) (Some v)
  end.

(** The field name a key is read from, in the order of the [elif] chain. *)
Definition region_fields : list (str * RegionKey) :=
  [ ("RegionRectangle", KRectangle);
    ("RegionAreaX", KAreaX);
    ("RegionAreaY", KAreaY);
    ("RegionAreaW", KAreaW);
    ("RegionAreaH", KAreaH);
    ("RegionAppliedToDimensionsW", KAppliedW);
    ("RegionAppliedToDimensionsH", KAppliedH);
    ("RegionAppliedToDimensionsUnit", KAppliedUnit) ].

(** The [metadata] dict together with the local [face_regions_by_name], a
    dict in insertion order. *)
Record Metadata := mkMetadata {
  existing_tags : list str;
  hierarchical_subjects : list str;
  faces : list str;
  face_regions : list FaceRegion;
  gps_location : option str;
  all_metadata : gmap str str
}.

Record ParseState := mkParseState {
  md : Metadata;
  face_regions_by_name : list (str * FaceRegion)
}.

Definition empty_metadata : Metadata := mkMetadata [] [] [] [] None ∅.

Definition mem (s : str) (l : list str) : bool := bool_decide (s ∈ l).

(** [key in d] for the insertion-ordered dict. *)
Definition has_name (n : str) (d : list (str * FaceRegion)) : bool :=
  mem n (map fst d).

(** [for face_name in face_regions_by_name: ...[key] = v; break]: the first
    key in iteration order is the one updated. *)
Definition set_on_first (k : RegionKey) (v : str) (d : list (str * FaceRegion))
  : list (str * FaceRegion) :=
  match d with
  | [] => []
  | (n, r) :: rest => (n, set_key k v r) :: rest
  end.

(** [if ':' in line: ...]: store the line under its key and its bare key. *)
Definition store_line (line : str) (m : gmap str str) : gmap str str :=
  match Re.split1 0x3A%Z line with
  | Some (key, value) =>
      let key := PyStr.strip key in
      let value := PyStr.strip value in
      let m := <[key := value]> m in
      match Re.split1 0x5D%Z key with
      | Some (_, simple_key) => <[PyStr.strip simple_key := value]> m
      | None => m
      end
  | None => m
  end.

(** [if 'GPSPosition' in line: ...] *)
Definition gps_of_line (line : str) (gps : option str) : option str :=
  if PyStr.contains "GPSPosition" line then
    match Re.search_field "GPSPosition" line with
    | Some g => Some (PyStr.strip g)
    | None => gps
    end
  else gps.

Definition tag_fields : list str :=
  ["Keywords"; "Subject"; "TagsList"; "HierarchicalSubject"].

Definition append_new (s : str) (l : list str) : list str :=
  if mem s l then l else l ++ [s].

(** The tag block.  [None] is the [continue] taken on coordinate noise, which
    also skips the face block of that line. *)
Definition tags_of_line (line : str) (m : Metadata) : option Metadata :=
  if existsb (fun tag_field => PyStr.contains tag_field line) tag_fields then
    match Re.search_value line with
    | Some g =>
        let tag_content := PyStr.strip g in
        if PyStr.truthy tag_content && negb (bool_decide (tag_content = "(none)")) then
          if Re.four_integers tag_content then None
          else if PyStr.contains "|" tag_content then
            Some (mkMetadata (existing_tags m)
                    (append_new tag_content (hierarchical_subjects m))
                    (faces m) (face_regions m) (gps_location m) (all_metadata m))
          else if PyStr.contains "/" tag_content
                  && negb (PyStr.startswith "http" tag_content) then
            let tag_content := Re.replace_char 0x2F%Z 0x7C%Z tag_content in
            Some (mkMetadata (existing_tags m)
                    (append_new tag_content (hierarchical_subjects m))
                    (faces m) (face_regions m) (gps_location m) (all_metadata m))
          else
            Some (mkMetadata (append_new tag_content (existing_tags m))
                    (hierarchical_subjects m)
                    (faces m) (face_regions m) (gps_location m) (all_metadata m))
        else Some m
    | None => Some m
    end
  else Some m.

(** The [elif] chain over the region fields: the first field name contained
    in the line decides, whether or not its pattern then matches. *)
Fixpoint region_field_chain (fields : list (str * RegionKey)) (line : str)
    (d : list (str * FaceRegion)) : list (str * FaceRegion) :=
  match fields with
  | [] => d
  | (field, key) :: rest =>
      if PyStr.contains field line then
        match Re.search_field field line with
        | Some g => set_on_first key (PyStr.strip g) d
        | None => d
        end
      else region_field_chain rest line d
  end.

(** The face block of the loop body. *)
Definition faces_of_line (line : str) (st : ParseState) : ParseState :=
  if PyStr.contains "RegionName" line || PyStr.contains "RegionPersonDisplayName" line then
    match Re.search_region_name line with
    | Some g =>
        let face_name := PyStr.strip g in
        if PyStr.truthy face_name then
          if has_name face_name (face_regions_by_name st) then st
          else
            let m := md st in
            mkParseState
              (mkMetadata (existing_tags m) (hierarchical_subjects m)
                 (append_new face_name (faces m))
                 (face_regions m) (gps_location m) (all_metadata m))
              (face_regions_by_name st ++ [(face_name, new_region face_name)])
        else st
    | None => st
    end
  else
    mkParseState (md st)
      (region_field_chain region_fields line (face_regions_by_name st)).

(** One iteration of [for line in lines]. *)
Definition parse_line (st : ParseState) (line : str) : ParseState :=
  let line := PyStr.strip line in
  if negb (PyStr.truthy line) then st
  else
    let m := md st in
    let m := mkMetadata (existing_tags m) (hierarchical_subjects m) (faces m)
               (face_regions m) (gps_of_line line (gps_location m))
               (store_line line (all_metadata m)) in
    match tags_of_line line m with
    | None => mkParseState m (face_regions_by_name st)
    | Some m => faces_of_line line (mkParseState m (face_regions_by_name st))
    end.

(** The loop and [metadata['face_regions'] = list(face_regions_by_name.values())]. *)
Definition parse_lines (lines : list str) : Metadata :=
  let st := fold_left parse_line lines (mkParseState empty_metadata []) in
  let m := md st in
  mkMetadata (existing_tags m) (hierarchical_subjects m) (faces m)
    (map snd (face_regions_by_name st)) (gps_location m) (all_metadata m).

Definition parse_stdout (stdout : str) : Metadata :=
  parse_lines (Re.split_lines stdout).

(** ** Paths and the file system *)

(** A file name. *)
Definition Name := str.

(** A directory is one the caller's files live in, given by its path, or one
    made by [tempfile.mkdtemp()], which never coincides with a directory that
    existed before. *)
Inductive Dir :=
| UserDir (d : str)
| TempDir (k : nat).

Record Path := mkPath { parent : Dir; name : Name }.

Global Instance Dir_eq_dec : EqDecision Dir.
Proof. solve_decision. Defined.

Global Instance Dir_countable : Countable Dir.
Proof.
  refine (inj_countable'
            (fun d => match d with UserDir s => inl s | TempDir k => inr k end)
            (fun x => match x with inl s => UserDir s | inr k => TempDir k end) _).
  intros []; reflexivity.
Defined.

Global Instance Path_eq_dec : EqDecision Path.
Proof. solve_decision. Defined.

Global Instance Path_countable : Countable Path.
Proof.
  refine (inj_countable' (fun p => (parent p, name p))
            (fun x => mkPath (fst x) (snd x)) _).
  intros []; reflexivity.
Defined.

(** [name.rfind('.')] *)
Fixpoint rfind_dot (n : Name) : option nat :=
  match n with
  | [] => None
  | c :: n' =>
      match rfind_dot n' with
      | Some i => Some (S i)
      | None => if Z.eqb c 46 then Some 0%nat else None
      end
  end.

(** [PurePath.suffix] and [PurePath.stem]: the name is cut at its last dot
    when that dot is neither its first nor its last character. *)
Definition cut_point (n : Name) : option nat :=
  match rfind_dot n with
  | Some i => if (0 <? i)%nat && (i <? length n - 1)%nat then Some i else None
  | None => None
  end.

Definition suffix (p : Path) : Name :=
  match cut_point (name p) with
  | Some i => drop i (name p)
  | None => []
  end.

Definition stem (p : Path) : Name :=
  match cut_point (name p) with
  | Some i => take i (name p)
  | None => name p
  end.

(** [output_dir / f"{image_file.stem}.xmp"] *)
Definition sidecar_of (image_file : Path) : Path :=
  mkPath (parent image_file) (stem image_file ++ ".xmp").

(** [XmpSidecarGenerator._has_unicode_surrogates] *)
Definition in_range (lo hi c : Z) : bool := (lo <=? c)%Z && (c <=? hi)%Z.

Definition _has_unicode_surrogates (filename : Name) : bool :=
  existsb (in_range 0xD800 0xDFFF) filename
  || existsb (fun c =>
        in_range 0x1F600 0x1F64F c
        || in_range 0x1F300 0x1F5FF c
        || in_range 0x1F680 0x1F6FF c
        || in_range 0x1F1E0 0x1F1FF c
        || in_range 0x2600 0x26FF c
        || in_range 0x2700 0x27BF c
        || in_range 0xFE00 0xFE0F c
        || in_range 0x1F900 0x1F9FF c) filename.

(** [uuid.uuid4().hex]: 32 lowercase hexadecimal digits. *)
Definition hex_digit (d : Z) : Z := if (d <? 10)%Z then (48 + d)%Z else (87 + d)%Z.

Fixpoint hex_go (n : nat) (u : Z) (acc : Name) : Name :=
  match n with
  | O => acc
  | S n' => hex_go n' (u / 16)%Z (hex_digit (u mod 16)%Z :: acc)
  end.

Definition uuid_hex (u : nat) : Name := hex_go 32 (Z.of_nat u) [].

(** The text after the last [/] of a directory's path: [Path.name]. *)
Fixpoint after_last_slash (d : str) : str :=
  match d with
  | [] => []
  | c :: d' =>
      if PyStr.contains "/" d' then after_last_slash d'
      else if Z.eqb c 0x2F then d' else d
  end.

(** [temp_dir.name] for the parent of a path: [mkdtemp] names its
    directories [tmp] followed by eight random characters. *)
Definition dir_name (d : Dir) : str :=
  match d with
  | UserDir p => after_last_slash p
  | TempDir k => "tmp" ++ drop 24 (uuid_hex k)
  end.

(** The content of a file, opaque to this code. *)
Definition Content := str.

(** ** The external tool and the operating system *)

(** An exception of the operating system, as far as the handlers of the
    code tell them apart. *)
Inductive OsError :=
| FileNotFound                  (* FileNotFoundError *)
| OtherOsError (msg : str).     (* any other OSError *)

(** An argument of the tool's command line. *)
Inductive Arg :=
| Lit (s : str)                       (* a fixed option *)
| File (p : Path)                        (* a path, as passed to the subprocess *)
| TagArg (directive : str) (tag : str).  (* f"{directive}{tag}" *)

(** How [subprocess.run(..., check=True)] ends. *)
Inductive Status :=
| Exit0                        (* returns *)
| NonZeroExit                  (* subprocess.CalledProcessError *)
| NotInstalled                 (* FileNotFoundError *)
| DecodeError                  (* UnicodeDecodeError *)
| OtherError (msg : str).   (* any other exception *)

(** The environment a run meets: whether the n-th file-system call raises
    and with which exception, what the tool prints in read mode, and, in
    write mode, how it ends and what it leaves at the path given after [-o]
    (nothing, or a file). *)
Record Env := mkEnv {
  os_fails : nat -> bool;
  os_error : nat -> OsError;
  exiftool_read : Path -> gmap Path Content -> Status * str;
  exiftool_write : list Arg -> gmap Path Content -> Status * option Content
}.

(** What a run does to the world, in order. *)
Inductive Event :=
| EvUnlink (p : Path) (ok : bool)
| EvSleep
| EvMkdtemp (k : nat)
| EvMkdtempFailed (e : OsError)
| EvCopy (src dst : Path) (ok : bool)
| EvMove (src dst : Path) (ok : bool)
| EvRmdir (k : nat) (ok : bool)
| EvRmdirUser (d : str) (ok : bool)
| EvExifRead (p : Path) (st : Status)
| EvExifWrite (cmd : list Arg) (out : Path) (st : Status) (written : option Content).

Record World := mkWorld {
  fs : gmap Path Content;     (* the regular files *)
  tmpdirs : gset nat;         (* the directories made by mkdtemp that exist *)
  fresh : nat;                (* supply of mkdtemp names and uuid4 values *)
  clock : nat;                (* number of file-system calls made so far *)
  trace : list Event
}.

(** State passing. *)
Definition M (A : Type) : Type := World -> A * World.

Global Instance M_ret : MRet M := fun A x w => (x, w).
Global Instance M_bind : MBind M :=
  fun A B f c w => let (x, w') := c w in f x w'.

Definition emit (e : Event) : M unit :=
  fun w => (tt, mkWorld (fs w) (tmpdirs w) (fresh w) (clock w) (trace w ++ [e])).

Definition get_fs : M (gmap Path Content) := fun w => (fs w, w).

Definition put_fs (f : gmap Path Content) : M unit :=
  fun w => (tt, mkWorld f (tmpdirs w) (fresh w) (clock w) (trace w)).

Definition tick : M nat :=
  fun w => (clock w, mkWorld (fs w) (tmpdirs w) (fresh w) (S (clock w)) (trace w)).

Definition next_fresh : M nat :=
  fun w => (fresh w, mkWorld (fs w) (tmpdirs w) (S (fresh w)) (clock w) (trace w)).

Definition get_tmpdirs : M (gset nat) := fun w => (tmpdirs w, w).

Definition put_tmpdirs (d : gset nat) : M unit :=
  fun w => (tt, mkWorld (fs w) d (fresh w) (clock w) (trace w)).

(** What [generate_sidecar] hands back to its caller. *)
Inductive Outcome :=
| Returned (b : bool)
| Raised (msg : str).

(** A call that returns a value or raises an exception of the operating
    system. *)
Inductive Exc (A : Type) :=
| Ok (x : A)
| Raise (e : OsError).

Arguments Ok {A} x.
Arguments Raise {A} e.

(** What the handlers of [generate_sidecar] make of an exception of the
    operating system: [except FileNotFoundError: return False]; any other
    one leaves the function. *)
Definition raised (e : OsError) : Outcome :=
  match e with
  | FileNotFound => Returned false
  | OtherOsError msg => Raised msg
  end.

(** The fixed table of [-dst<src] directives of the write command. *)
Definition field_mappings : list str :=
  [ "-XMP-tiff:Make<EXIF:Make";
    "-XMP-tiff:Model<EXIF:Model";
    "-XMP-tiff:Orientation<EXIF:Orientation";
    "-XMP-tiff:XResolution<EXIF:XResolution";
    "-XMP-tiff:YResolution<EXIF:YResolution";
    "-XMP-tiff:ResolutionUnit<EXIF:ResolutionUnit";
    "-XMP-exif:ExposureTime<EXIF:ExposureTime";
    "-XMP-exif:FNumber<EXIF:FNumber";
    "-XMP-exif:ISOSpeedRatings<EXIF:ISO";
    "-XMP-exif:FocalLength<EXIF:FocalLength";
    "-XMP-exif:DateTimeOriginal<EXIF:DateTimeOriginal";
    "-XMP-exif:LensModel<EXIF:LensModel";
    "-XMP-exif:LensMake<EXIF:LensMake";
    "-XMP-exif:WhiteBalance<EXIF:WhiteBalance";
    "-XMP-exif:MeteringMode<EXIF:MeteringMode";
    "-XMP-exif:ExposureProgram<EXIF:ExposureProgram";
    "-XMP-aux:Lens<EXIF:LensModel";
    "-XMP-aux:LensID<Composite:LensID";
    "-XMP-exif:ExposureBiasValue<EXIF:ExposureBiasValue";
    "-XMP-exif:ShutterSpeedValue<EXIF:ShutterSpeedValue";
    "-XMP-exif:ApertureValue<EXIF:ApertureValue";
    "-XMP-exif:BrightnessValue<EXIF:BrightnessValue";
    "-XMP-exif:Flash<EXIF:Flash";
    "-XMP-exif:FocalLengthIn35mmFilm<EXIF:FocalLengthIn35mmFilm";
    "-XMP-exif:ColorSpace<EXIF:ColorSpace";
    "-XMP-exif:ExifVersion<EXIF:ExifVersion";
    "-XMP-exif:SceneCaptureType<EXIF:SceneCaptureType";
    "-XMP-exif:SensingMethod<EXIF:SensingMethod";
    "-XMP-exif:SubjectArea<EXIF:SubjectArea";
    "-XMP-exif:PixelXDimension<EXIF:ExifImageWidth";
    "-XMP-exif:PixelYDimension<EXIF:ExifImageHeight";
    "-XMP-exif:PhotographicSensitivity<EXIF:ISO";
    "-XMP-exif:OffsetTime<EXIF:OffsetTime";
    "-XMP-exif:OffsetTimeOriginal<EXIF:OffsetTimeOriginal";
    "-XMP-exif:OffsetTimeDigitized<EXIF:OffsetTimeDigitized";
    "-XMP-exif:SubSecTimeOriginal<EXIF:SubSecTimeOriginal";
    "-XMP-exif:SubSecTimeDigitized<EXIF:SubSecTimeDigitized";
    "-XMP-exif:HostComputer<IFD0:HostComputer";
    "-XMP-exif:GPSLatitude<Composite:GPSLatitude";
    "-XMP-exif:GPSLongitude<Composite:GPSLongitude";
    "-XMP-exif:GPSAltitude<GPS:GPSAltitude";
    "-XMP-exif:GPSDateStamp<GPS:GPSDateStamp";
    "-XMP-exif:GPSTimeStamp<GPS:GPSTimeStamp";
    "-XMP-exif:GPSSpeed<GPS:GPSSpeed";
    "-XMP-exif:GPSSpeedRef<GPS:GPSSpeedRef";
    "-XMP-exif:GPSImgDirection<GPS:GPSImgDirection";
    "-XMP-exif:GPSImgDirectionRef<GPS:GPSImgDirectionRef";
    "-XMP-exif:GPSDestBearing<GPS:GPSDestBearing";
    "-XMP-exif:GPSDestBearingRef<GPS:GPSDestBearingRef";
    "-XMP-xmp:CreateDate<EXIF:CreateDate";
    "-XMP-xmp:ModifyDate<EXIF:ModifyDate";
    "-XMP-xmp:CreatorTool<IFD0:Software";
    "-XMP-dc:Title<IPTC:ObjectName";
    "-XMP-dc:Description<IPTC:Caption-Abstract";
    "-XMP-dc:Creator<IPTC:By-line";
    "-XMP-dc:Rights<IPTC:CopyrightNotice" ].

Definition group_copies : list str :=
  [ "-XMP-exif:all<EXIF:all";
    "-XMP-exif:all<ExifIFD:all";
    "-XMP-tiff:all<IFD0:all";
    "-XMP-exif:all<GPS:all" ].

Definition catch_all : list str :=
  [ "-XMP:all<EXIF:all";
    "-XMP:all<ExifIFD:all";
    "-XMP:all<IFD0:all";
    "-XMP:all<GPS:all";
    "-XMP:all<XMP:all";
    "-XMP:all<Composite:all" ].

(** The command line of the write invocation. *)
Definition exiftool_cmd (src out : Path) (tags : list str) : list Arg :=
  [Lit "exiftool"; Lit "-tagsFromFile"; File src; Lit "-all:all"]
  ++ map Lit field_mappings
  ++ map Lit group_copies
  ++ map Lit catch_all
  ++ map (TagArg "-XMP-lr:HierarchicalSubject+=Auto Tags|") tags
  ++ map (TagArg "-XMP-digiKam:TagsList+=Auto Tags/") tags
  ++ map (TagArg "-XMP:Subject+=") tags
  ++ map (TagArg "-IPTC:Keywords+=") tags
  ++ [Lit "-o"; File out; File src].

(** No file of [f] lies in the temporary directory [k]. *)
Definition dir_empty (f : gmap Path Content) (k : nat) : bool :=
  forallb (fun p => negb (bool_decide (parent p = TempDir k))) (map fst (map_to_list f)).

(** No file of [f] lies in the caller's directory [d]. *)
Definition user_dir_empty (f : gmap Path Content) (d : str) : bool :=
  forallb (fun p => negb (bool_decide (parent p = UserDir d))) (map fst (map_to_list f)).

Section Generator.

Variable env : Env.

(** [p.exists()] for a file. *)
Definition path_exists (p : Path) : M bool :=
  f ← get_fs; mret (bool_decide (is_Some (f !! p))).

(** [p.unlink()]; the result tells whether it returned ([true]) or raised. *)
Definition unlink (p : Path) : M bool :=
  n ← tick;
  f ← get_fs;
  if os_fails env n || negb (bool_decide (is_Some (f !! p)))
  then emit (EvUnlink p false);; mret false
  else put_fs (delete p f);; emit (EvUnlink p true);; mret true.

(** [tempfile.mkdtemp()]: it makes a new directory or raises. *)
Definition mkdtemp : M (Exc nat) :=
  n ← tick;
  if os_fails env n
  then emit (EvMkdtempFailed (os_error env n));; mret (Raise (os_error env n))
  else
    k ← next_fresh;
    d ← get_tmpdirs;
    put_tmpdirs ({[k]} ∪ d);;
    emit (EvMkdtemp k);;
    mret (Ok k).

(** [shutil.copy2(src, dst)] *)
Definition copy2 (src dst : Path) : M bool :=
  n ← tick;
  f ← get_fs;
  match f !! src with
  | Some c =>
      if os_fails env n then emit (EvCopy src dst false);; mret false
      else put_fs (<[dst := c]> f);; emit (EvCopy src dst true);; mret true
  | None => emit (EvCopy src dst false);; mret false
  end.

(** [shutil.move(src, dst)] *)
Definition move (src dst : Path) : M bool :=
  n ← tick;
  f ← get_fs;
  match f !! src with
  | Some c =>
      if os_fails env n then emit (EvMove src dst false);; mret false
      else put_fs (<[dst := c]> (delete src f));; emit (EvMove src dst true);; mret true
  | None => emit (EvMove src dst false);; mret false
  end.

(** [d.rmdir()] for a directory made by [mkdtemp]: it raises when the
    directory still holds a file. *)
Definition rmdir (k : nat) : M bool :=
  n ← tick;
  f ← get_fs;
  d ← get_tmpdirs;
  if os_fails env n || negb (bool_decide (k ∈ d)) || negb (dir_empty f k)
  then emit (EvRmdir k false);; mret false
  else put_tmpdirs (d ∖ {[k]});; emit (EvRmdir k true);; mret true.

(** [d.rmdir()] for a directory of the caller: it raises when the directory
    still holds a file; the files of the world are not affected by it. *)
Definition rmdir_user (d : str) : M bool :=
  n ← tick;
  f ← get_fs;
  if os_fails env n || negb (user_dir_empty f d)
  then emit (EvRmdirUser d false);; mret false
  else emit (EvRmdirUser d true);; mret true.

(** [XmpSidecarGenerator._create_temp_copy_for_exiftool]; [mkdtemp] is
    called outside the [try], so its exception leaves the function. *)
Definition _create_temp_copy_for_exiftool (file_path : Path) : M (Exc (Path * bool)) :=
  if negb (_has_unicode_surrogates (name file_path)) then mret (Ok (file_path, false))
  else
    r ← mkdtemp;
    match r with
    | Raise e => mret (Raise e)
    | Ok temp_dir =>
        u ← next_fresh;
        let temp_path :=
          mkPath (TempDir temp_dir) ("temp_exif_" ++ uuid_hex u ++ suffix file_path) in
        ok ← copy2 file_path temp_path;
        if ok : bool then mret (Ok (temp_path, true)) else mret (Ok (file_path, false))
    end.

(** [XmpSidecarGenerator._cleanup_temp_file]: an exception of [unlink] or
    [rmdir] ends the [try] block and is swallowed.  The parent directory,
    which exists, is removed when its name starts with [tmp]. *)
Definition _cleanup_temp_file (temp_path : Path) : M unit :=
  e ← path_exists temp_path;
  ok ← (if e : bool then unlink temp_path else mret true);
  if ok : bool then
    match parent temp_path with
    | TempDir k =>
        d ← get_tmpdirs;
        if bool_decide (k ∈ d) && PyStr.startswith "tmp" (dir_name (TempDir k))
        then rmdir k;; mret tt
        else mret tt
    | UserDir p =>
        if PyStr.startswith "tmp" (dir_name (UserDir p))
        then rmdir_user p;; mret tt
        else mret tt
    end
  else mret tt.

(** [XmpSidecarGenerator.read_existing_metadata]: every exception, of the
    copy or of the tool, is caught and leaves the initial, empty record. *)
Definition read_existing_metadata (image_file : Path) : M Metadata :=
  r ← _create_temp_copy_for_exiftool image_file;
  match r with
  | Raise _ => mret empty_metadata
  | Ok (temp_file, was_copied) =>
      f ← get_fs;
      let '(st, stdout) := exiftool_read env temp_file f in
      emit (EvExifRead temp_file st);;
      (if was_copied : bool then _cleanup_temp_file temp_file else mret tt);;
      mret (match st with
            | Exit0 => parse_stdout stdout
            | _ => empty_metadata
            end)
  end.

(** The retry loop [for i in range(3)] around [xmp_file.unlink()]; the
    result is [deleted]. *)
Fixpoint delete_attempts (n : nat) (xmp_file : Path) : M bool :=
  match n with
  | O => mret false
  | S n' =>
      ok ← unlink xmp_file;
      if ok : bool then mret true
      else emit EvSleep;; delete_attempts n' xmp_file
  end.

(** [subprocess.run(exiftool_cmd, ..., check=True)] in write mode: a tool
    that was started may leave a file at the output path. *)
Definition run_exiftool_write (cmd : list Arg) (out : Path) : M Status :=
  f ← get_fs;
  let '(st, written) := exiftool_write env cmd f in
  let written := match st with NotInstalled => None | _ => written end in
  match written with
  | Some c => put_fs (<[out := c]> f)
  | None => mret tt
  end;;
  emit (EvExifWrite cmd out st written);;
  mret st.

(** The first part of the [finally] block: move the temporary sidecar to
    the final path; any exception is caught and only printed. *)
Definition move_to_final (sidecar_output_path sidecar_file : Path) : M unit :=
  if bool_decide (sidecar_output_path ≠ sidecar_file) then
    e ← path_exists sidecar_output_path;
    if e : bool then
      e' ← path_exists sidecar_file;
      ok ← (if e' : bool then unlink sidecar_file else mret true);
      if ok : bool then move sidecar_output_path sidecar_file;; mret tt else mret tt
    else mret tt
  else mret tt.

(** The choice of the output path: [tempfile.mkdtemp()] is called inside the
    outer [try], before the [try ... finally] that cleans up. *)
Definition sidecar_output (sidecar_file : Path) (unicode_in_output was_copied : bool)
  : M (Exc (option nat * Path)) :=
  if unicode_in_output || was_copied then
    r ← mkdtemp;
    match r with
    | Raise e => mret (Raise e)
    | Ok d =>
        u ← next_fresh;
        mret (Ok (Some d, mkPath (TempDir d) ("temp_" ++ uuid_hex u ++ ".xmp")))
    end
  else mret (Ok (None, sidecar_file)).

(** The [if format_type.lower() == "xmp":] branch after the metadata was read. *)
Definition write_sidecar (image_file : Path) (tags : list str) : M Outcome :=
  let sidecar_file := sidecar_of image_file in
  r ← _create_temp_copy_for_exiftool image_file;
  match r with
  | Raise e => mret (raised e)
  | Ok (temp_image_file, was_copied) =>
      let unicode_in_output := _has_unicode_surrogates (name sidecar_file) in
      r' ← sidecar_output sidecar_file unicode_in_output was_copied;
      match r' with
      | Raise e => mret (raised e)
      | Ok (temp_sidecar_dir, sidecar_output_path) =>
          st ← run_exiftool_write
                 (exiftool_cmd temp_image_file sidecar_output_path tags)
                 sidecar_output_path;
          move_to_final sidecar_output_path sidecar_file;;
          (if was_copied : bool then _cleanup_temp_file temp_image_file else mret tt);;
          match temp_sidecar_dir with
          | Some k =>
              d ← get_tmpdirs;
              if bool_decide (k ∈ d) then rmdir k;; mret tt else mret tt
          | None => mret tt
          end;;
          mret (match st with
                | Exit0 => Returned true
                | NonZeroExit | NotInstalled | DecodeError => Returned false
                | OtherError msg => Raised msg
                end)
      end
  end.

(** [XmpSidecarGenerator.generate_sidecar], for a generator whose
    [self.blacklist] is [blacklist]. *)
Definition generate_sidecar (blacklist : gset str) (image_file : Path)
    (tags : list str) (format_type : str) (overwrite : bool) : M Outcome :=
  match tags with
  | [] => mret (Returned false)
  | _ =>
    let tags := filter_tags blacklist tags in
    match tags with
    | [] => mret (Returned false)
    | _ =>
      let is_xmp := bool_decide (PyStr.lower format_type = "xmp") in
      let xmp_file := sidecar_of image_file in
      e ← (if is_xmp && overwrite then path_exists xmp_file else mret false);
      deleted ← (if e : bool then delete_attempts 3 xmp_file else mret true);
      if negb deleted then mret (Returned false)
      else
        read_existing_metadata image_file;;
        if is_xmp then write_sidecar image_file tags
        else mret (Returned false)
    end
  end.

End Generator.

(** ** The batch thread ([SidecarGenerationThread]) *)

(** [models.image_list_model.Image], as far as the thread reads it. *)
Record Image := mkImage {
  path : Path;
  tags : list str
}.

(** A line of [log_batch]. *)
Inductive LogLine :=
| Created (format_type : str) (filename : Name)          (* "✓ Created ... sidecar for ..." *)
| ErrorProcessing (filename : Name) (error : str)        (* "✗ Error processing ...: ..." *)
| FailedToCreate (format_type : str) (filename : Name).  (* "✗ Failed to create ... sidecar for ..." *)

(** The Qt signals of the thread.  [progress_updated] carries [completed] and
    the values interpolated into its text. *)
Inductive Signal :=
| log_updated (batch : list LogLine)
| progress_updated (completed : nat) (filename : Name) (total : nat)
| sidecars_generated (images : list Image)
| generation_finished (processed_count error_count : nat) (cancelled : bool).

Definition BATCH_SIZE : nat := 50.

(** The locals of [run]. *)
Record RunState := mkRunState {
  processed_count : nat;
  error_count : nat;
  successful_images : list Image;
  log_batch : list LogLine;
  completed : nat;
  signals : list Signal
}.

Definition initial_run_state : RunState := mkRunState 0 0 [] [] 0 [].

(** When [stop()] is called: never, or once [k] completions have been
    consumed, so that the test at the head of the loop sees [self.cancelled]
    set from then on; [self.cancelled] is never reset. *)
Definition cancelled_after (stop : option nat) (completed : nat) : bool :=
  match stop with
  | Some k => (k <=? completed)%nat
  | None => false
  end.

(** [process_single_image]: the worker, run in the world it meets. *)
Definition process_single_image (env : Env) (blacklist : gset str)
    (format_type : str) (overwrite : bool) (job : Image * World)
  : Image * bool * option str :=
  let '(image, w) := job in
  match fst (generate_sidecar env blacklist (path image) (tags image)
               format_type overwrite w) with
  | Returned success => (image, success, None)
  | Raised e => (image, false, Some e)
  end.

(** The body of [for future in as_completed(...)] after the cancellation
    test, for one result. *)
Definition consume (format_type : str) (total : nat)
    (result : Image * bool * option str) (st : RunState) : RunState :=
  let '(image, success, error) := result in
  let completed := (completed st + 1)%nat in
  let filename := name (path image) in
  let '(processed_count, error_count, successful_images, line) :=
    if success : bool then
      ((processed_count st + 1)%nat, error_count st, successful_images st ++ [image],
       Created format_type filename)
    else
      (processed_count st, (error_count st + 1)%nat, successful_images st,
       match error with
       | Some (c :: e) => ErrorProcessing filename (c :: e)
       | _ => FailedToCreate format_type filename
       end) in
  let log_batch := log_batch st ++ [line] in
  if ((completed mod BATCH_SIZE =? 0) || (completed =? total))%nat then
    mkRunState processed_count error_count successful_images [] completed
      (signals st ++ [log_updated log_batch; progress_updated completed filename total])
  else
    mkRunState processed_count error_count successful_images log_batch completed
      (signals st).

(** The loop over the results in the order [as_completed] yields them. *)
Fixpoint run_loop (stop : option nat) (format_type : str) (total : nat)
    (results : list (Image * bool * option str)) (st : RunState) : RunState :=
  match results with
  | [] => st
  | result :: rest =>
      if cancelled_after stop (completed st) then st
      else run_loop stop format_type total rest (consume format_type total result st)
  end.

(** [SidecarGenerationThread.run].  [order] lists the submitted images in the
    order their futures complete, each with the world its worker ran in; the
    result is the sequence of signals emitted. *)
Definition run (env : Env) (read_file : str -> FileRead)
    (files : list Image) (format_type : str) (overwrite : bool)
    (blacklist_file : option str) (custom_blacklist_tags : option (list str))
    (order : list (Image * World)) (stop : option nat) : list Signal :=
  let blacklist := _load_blacklist read_file blacklist_file custom_blacklist_tags in
  let results := map (process_single_image env blacklist format_type overwrite) order in
  let st := run_loop stop format_type (length files) results initial_run_state in
  signals st
  ++ match successful_images st with
     | [] => []
     | imgs => [sidecars_generated imgs]
     end
  ++ match log_batch st with
     | [] => []
     | batch => [log_updated batch]
     end
  ++ [generation_finished (processed_count st) (error_count st)
        (match stop with Some _ => true | None => false end)].

(** The number of results the loop consumed before it ended. *)
Definition consumed (stop : option nat) (order : list (Image * World)) : nat :=
  match stop with
  | Some k => Nat.min k (length order)
  | None => length order
  end.

(** ** Observations on signals and traces *)

(** The summary carried by the terminal signal. *)
Fixpoint summary (s : list Signal) : option (nat * nat * bool) :=
  match s with
  | [] => None
  | generation_finished p e c :: _ => Some (p, e, c)
  | _ :: s' => summary s'
  end.

(** The images announced as successful. *)
Fixpoint succeeded (s : list Signal) : list Image :=
  match s with
  | [] => []
  | sidecars_generated imgs :: s' => imgs ++ succeeded s'
  | _ :: s' => succeeded s'
  end.

(** The completion counts carried by the progress signals, in order. *)
Fixpoint progress_counts (s : list Signal) : list nat :=
  match s with
  | [] => []
  | progress_updated c _ _ :: s' => c :: progress_counts s'
  | _ :: s' => progress_counts s'
  end.

(** The completion counts of the flushes: a batched log signal followed at
    once by its progress signal. *)
Fixpoint flush_counts (s : list Signal) : list nat :=
  match s with
  | [] => []
  | log_updated _ :: s' =>
      match s' with
      | progress_updated c _ _ :: _ => c :: flush_counts s'
      | _ => flush_counts s'
      end
  | _ :: s' => flush_counts s'
  end.

Definition is_log (s : Signal) : bool :=
  match s with log_updated _ => true | _ => false end.

(** The counts at which a batch of [n] images flushes: the multiples of 50
    and [n] itself. *)
Definition flush_points (n : nat) : list nat :=
  List.filter (fun c => ((c mod 50 =? 0) || (c =? n))%nat) (seq 1 n).

(** ** Specifications of stateful code *)

(** [c] run from any world ends in a world related to it by [R], with a
    result satisfying [Q]. *)
Definition hoare {A} (R : World -> World -> Prop) (c : M A) (Q : A -> Prop) : Prop :=
  forall w, R w (snd (c w)) /\ Q (fst (c w)).

(** No file of a caller's directory changes. *)
Definition user_frame (w w' : World) : Prop :=
  forall u d, parent u = UserDir d -> fs w' !! u = fs w !! u.

(** The trace grows, by events that all satisfy [P]. *)
Definition trace_grows (P : Event -> Prop) (w w' : World) : Prop :=
  exists ext, trace w' = trace w ++ ext /\ Forall P ext.

(** The events added between two worlds. *)
Definition new_events (w w' : World) : list Event :=
  drop (length (trace w)) (trace w').

(** An event of the tool in write mode names an output path in a temporary
    directory; any other event passes. *)
Definition writes_to_temp (e : Event) : Prop :=
  match e with
  | EvExifWrite _ out _ _ => exists k, parent out = TempDir k
  | _ => True
  end.

(** The number of leading failures among the file-system calls
    [start], [start+1], ..., at most [n]. *)
Fixpoint failures (fails : nat -> bool) (start n : nat) : nat :=
  match n with
  | O => O
  | S n' => if fails start then S (failures fails (S start) n') else O
  end.

(** [k] failed delete attempts, each followed by [time.sleep(0.1)]. *)
Fixpoint failed_attempts (k : nat) (p : Path) : list Event :=
  match k with
  | O => []
  | S k' => EvUnlink p false :: EvSleep :: failed_attempts k' p
  end.

(** The path after [-o] in a command line. *)
Fixpoint output_path (cmd : list Arg) : option Path :=
  match cmd with
  | [] => None
  | Lit o :: rest =>
      if bool_decide (o = "-o") then
        match rest with
        | File p :: _ => Some p
        | _ => output_path rest
        end
      else output_path rest
  | _ :: rest => output_path rest
  end.

(** Whether a worker's result is a success, and its image. *)
Definition success_of (result : Image * bool * option str) : bool := snd (fst result).
Definition image_of (result : Image * bool * option str) : Image := fst (fst result).

(** The results the loop gets to see: with [stop() ] observed once [k]
    completions are consumed, only the first [k]. *)
Definition seen (stop : option nat) (results : list (Image * bool * option str))
  : list (Image * bool * option str) :=
  match stop with
  | Some k => take k results
  | None => results
  end.

(** A signal of a flush: a batched log or a progress signal. *)
Definition is_flush_signal (s : Signal) : bool :=
  match s with
  | log_updated _ | progress_updated _ _ _ => true
  | _ => false
  end.

(** The test that decides a flush. *)
Definition flushes_at (total c : nat) : bool :=
  ((c mod BATCH_SIZE =? 0) || (c =? total))%nat.

(** ** The properties as the specification words them *)

(** "[processedCount + errorCount] equals the batch size exactly when
    [cancelled] is false", read off the terminal signal. *)
Definition full_count_iff_not_cancelled (s : list Signal) (batch_size : nat) : Prop :=
  match summary s with
  | Some (p, e, c) => p + e = batch_size <-> c = false
  | None => False
  end.

(** "On failure no partial or corrupt sidecar is left at the true
    destination": a call that does not succeed leaves the file at the
    destination as it was. *)
Definition destination_kept_on_failure (env : Env) (blacklist : gset str)
    (image_file : Path) (tags : list str) (format_type : str)
    (overwrite : bool) (w : World) : Prop :=
  let '(r, w') := generate_sidecar env blacklist image_file tags format_type overwrite w in
  r <> Returned true -> fs w' !! sidecar_of image_file = fs w !! sidecar_of image_file.

(** "The tool never writes directly to the true destination". *)
Definition tool_never_given_destination (env : Env) (blacklist : gset str)
    (image_file : Path) (tags : list str) (format_type : str)
    (overwrite : bool) (w : World) : Prop :=
  let '(_, w') := generate_sidecar env blacklist image_file tags format_type overwrite w in
  Forall (fun e => match e with
                   | EvExifWrite _ out _ _ => out <> sidecar_of image_file
                   | _ => True
                   end) (new_events w w').

(** "Every format other than the str "xmp" is rejected". *)
Definition other_formats_rejected : Prop :=
  forall (format_type : str), format_type <> "xmp" ->
  forall (env : Env) (blacklist : gset str) (image_file : Path) (tags : list str)
         (overwrite : bool) (w : World),
    fst (generate_sidecar env blacklist image_file tags format_type overwrite w)
    = Returned false.

(** ** Concrete files, tools and worlds *)

Definition bird_jpg : Path := mkPath (UserDir "/photos") ("bird.jpg").

(** A name starting with U+1F4F7 (camera), in the pictograph range. *)
Definition camera_jpg : Path := mkPath (UserDir "/photos") (0x1F4F7%Z :: ".jpg").

(** A world holding the given files, with no temporary directory. *)
Definition world_with (files : list (Path * Content)) : World :=
  mkWorld (list_to_map files) ∅ 0 0 [].

(** A tool that, like exiftool with [-o], refuses to write over an existing
    output file and otherwise writes the sidecar. *)
Definition exiftool_no_clobber (cmd : list Arg) (f : gmap Path Content)
  : Status * option Content :=
  match output_path cmd with
  | Some out =>
      match f !! out with
      | Some _ => (NonZeroExit, None)
      | None => (Exit0, Some "new sidecar")
      end
  | None => (NonZeroExit, None)
  end.

Definition no_output (p : Path) (f : gmap Path Content) : Status * str :=
  (Exit0, "").

(** The exception the calls of the sample systems raise when they raise. *)
Definition access_denied (n : nat) : OsError := OtherOsError "access denied".

(** A quiet system with a working tool. *)
Definition calm_env : Env := mkEnv (fun _ => false) access_denied no_output exiftool_no_clobber.

(** A system on which every file-system call raises. *)
Definition locked_env : Env := mkEnv (fun _ => true) access_denied no_output exiftool_no_clobber.

(** A system whose first file-system call raises and whose later ones do
    not. *)
Definition flaky_env : Env :=
  mkEnv (fun n => (n =? 0)%nat) access_denied no_output exiftool_no_clobber.

(** A quiet system whose tool exits with an error and writes nothing. *)
Definition failing_tool_env : Env :=
  mkEnv (fun _ => false) access_denied no_output (fun _ _ => (NonZeroExit, None)).

Definition bird_world : World :=
  world_with [(bird_jpg, "jpeg data"); (sidecar_of bird_jpg, "old sidecar")].

Definition camera_world : World :=
  world_with [(camera_jpg, "jpeg data"); (sidecar_of camera_jpg, "old sidecar")].

Definition bird : Image := mkImage bird_jpg ["orange cat"].

(** The tool output of an image with two named faces and one rectangle. *)
Definition two_faces_lines : list str :=
  [ "[XMP-mwg-rs]    RegionName                      : Alice";
    "[XMP-MPReg]     RegionPersonDisplayName         : Bob";
    "[XMP-MPReg]     RegionRectangle                 : 0.5, 0.4, 0.1, 0.2" ].

Definition blacklist_file_lines : list str :=
  [ "# my blacklist
";  "Lens Flare
";  "
";  " # not a comment
" ].

(** ** Further observations on runs *)

(** The line [run] appends to [log_batch] for a result. *)
Definition line_of (format_type : str) (result : Image * bool * option str)
  : LogLine :=
  let '(image, success, error) := result in
  let filename := name (path image) in
  if success : bool then Created format_type filename
  else match error with
       | Some (c :: e) => ErrorProcessing filename (c :: e)
       | _ => FailedToCreate format_type filename
       end.

(** All log lines carried by the [log_updated] signals, in order. *)
Fixpoint log_lines (s : list Signal) : list LogLine :=
  match s with
  | [] => []
  | log_updated batch :: s' => batch ++ log_lines s'
  | _ :: s' => log_lines s'
  end.

Definition is_finished (s : Signal) : bool :=
  match s with generation_finished _ _ _ => true | _ => false end.

Definition is_generated (s : Signal) : bool :=
  match s with sidecars_generated _ => true | _ => false end.



(** The tags named by the directives of a command line. *)
Fixpoint tags_of_cmd (cmd : list Arg) : list (str * str) :=
  match cmd with
  | [] => []
  | TagArg directive tag :: cmd' => (directive, tag) :: tags_of_cmd cmd'
  | _ :: cmd' => tags_of_cmd cmd'
  end.

(** The four places a tag is written to. *)
Definition tag_directives : list str :=
  [ "-XMP-lr:HierarchicalSubject+=Auto Tags|";
    "-XMP-digiKam:TagsList+=Auto Tags/";
    "-XMP:Subject+=";
    "-IPTC:Keywords+=" ].

(** Every write-mode event of a trace names only tags that pass the filter. *)
Definition only_kept_tags (blacklist : gset str) (e : Event) : Prop :=
  match e with
  | EvExifWrite cmd _ _ _ =>
      forall directive tag, (directive, tag) ∈ tags_of_cmd cmd ->
                            keeps blacklist tag = true
  | _ => True
  end.

(** The name supply is ahead of every temporary directory in use: no
    directory or file of the world lies at or beyond [fresh]. *)
Definition fresh_ahead (w : World) : Prop :=
  forall k, fresh w <= k ->
            (k ∉ tmpdirs w) /\ (forall n, fs w !! mkPath (TempDir k) n = None).

(** A system on which no file-system call raises. *)
Definition os_quiet (env : Env) : Prop := forall n, os_fails env n = false.

(** The name of the temporary copy of a file. *)
Definition temp_copy_name (u : nat) (file_path : Path) : Name :=
  "temp_exif_" ++ uuid_hex u ++ suffix file_path.

(** The name of the temporary sidecar. *)
Definition temp_sidecar_name (u : nat) : Name :=
  "temp_" ++ uuid_hex u ++ ".xmp".

(** ** The dock widget ([XmpSidecarGeneratorWidget]): what it hands to the thread *)

(** An entry of [image_list_model.images]: the image as the thread reads it,
    and its [has_xmp] flag. *)
Record ListedImage := mkListedImage {
  listed : Image;
  has_xmp : bool
}.

(** The state the widget reads: the model's images (an absent model or image
    list reads as no image), the selection and the settings. *)
Record WidgetState := mkWidgetState {
  images : list ListedImage;
  selected_image_indices : list Z;
  only_no_sidecars : bool;
  overwrite_checked : bool;
  use_blacklist : bool;
  custom_blacklist_text : str
}.

(** [l[i]] of Python: a negative index counts from the end, an index out of
    range raises [IndexError] ([None]). *)
Definition py_index {A} (l : list A) (i : Z) : option A :=
  if (0 <=? i)%Z then l !! Z.to_nat i
  else if (- Z.of_nat (length l) <=? i)%Z then l !! Z.to_nat (Z.of_nat (length l) + i)
  else None.

(** [[images[i] for i in selected if i < len(images)]] *)
Fixpoint select_images (imgs : list ListedImage) (selected : list Z)
  : option (list ListedImage) :=
  match selected with
  | [] => Some []
  | i :: rest =>
      if (i <? Z.of_nat (length imgs))%Z then
        match py_index imgs i, select_images imgs rest with
        | Some img, Some files => Some (img :: files)
        | _, _ => None
        end
      else select_images imgs rest
  end.

(** [XmpSidecarGeneratorWidget._get_files_to_process]; [None] is an
    [IndexError] escaping it. *)
Definition _get_files_to_process (ws : WidgetState) : option (list ListedImage) :=
  match images ws with
  | [] => Some []
  | _ =>
      match select_images (images ws) (selected_image_indices ws) with
      | Some files =>
          Some (if only_no_sidecars ws
                then List.filter (fun img => negb (has_xmp img)) files
                else files)
      | None => None
      end
  end.

(** The arguments [start_generation] builds the thread from. *)
Record ThreadArgs := mkThreadArgs {
  ta_files : list Image;
  ta_format_type : str;
  ta_overwrite : bool;
  ta_blacklist_file : option str;
  ta_custom_blacklist_tags : option (list str)
}.

(** How [generate_sidecars] proceeds up to its confirmation dialog. *)
Inductive Plan :=
| IndexError                       (* the selection indexes past the start of the list *)
| NoFilesWarning                   (* 'No files with tags were found to process.' *)
| Confirm (images_to_process_count sidecars_to_generate_count : nat)
          (args : ThreadArgs).     (* the dialog, and what runs on Yes *)

Definition has_tags (img : ListedImage) : bool :=
  match tags (listed img) with [] => false | _ => true end.

(** [[line.strip() for line in text.split('\n') if line.strip()]] *)
Definition text_lines (text : str) : list str :=
  map PyStr.strip
    (List.filter (fun line => PyStr.truthy (PyStr.strip line)) (Re.split_lines text)).

(** [XmpSidecarGeneratorWidget.generate_sidecars] *)
Definition generate_sidecars (ws : WidgetState) : Plan :=
  match _get_files_to_process ws with
  | None => IndexError
  | Some files_to_process =>
      let files_with_tags := List.filter has_tags files_to_process in
      match files_with_tags with
      | [] => NoFilesWarning
      | _ =>
          let overwrite := overwrite_checked ws in
          let blacklist_file := if use_blacklist ws then None else Some "DISABLED" in
          let format_type := "xmp" in
          let custom_blacklist_tags :=
            if use_blacklist ws then
              let text := PyStr.strip (custom_blacklist_text ws) in
              if PyStr.truthy text then Some (text_lines text) else None
            else None in
          let files_without_sidecars :=
            List.filter (fun img => negb (has_xmp img)) files_with_tags in
          let sidecars_to_generate :=
            if overwrite then length files_with_tags
            else length files_without_sidecars in
          Confirm (length files_with_tags) sidecars_to_generate
            (mkThreadArgs (map listed files_with_tags) format_type overwrite
               blacklist_file custom_blacklist_tags)
      end
  end.

(** A widget state with two tagged images, one of them with a sidecar. *)
Definition sample_widget : WidgetState :=
  mkWidgetState
    [ mkListedImage bird true;
      mkListedImage (mkImage camera_jpg ["sunset"]) false;
      mkListedImage (mkImage (mkPath (UserDir "/photos") ("empty.jpg")) []) false ]
    [2%Z; 0%Z; 7%Z; 1%Z] false false true " Lens Flare
bokeh ".

(** A write-mode event gives the tool an output path whose name needs no
    safe copy. *)
Definition output_named_safely (e : Event) : Prop :=
  match e with
  | EvExifWrite _ out _ _ => _has_unicode_surrogates (name out) = false
  | _ => True
  end.

(** A write-mode event names exactly the tags [kept], each under the four
    directives, directive by directive. *)
Definition writes_tags (kept : list str) (e : Event) : Prop :=
  match e with
  | EvExifWrite cmd _ _ _ => tags_of_cmd cmd = list_prod tag_directives kept
  | _ => True
  end.

(** An event other than a run of the tool in write mode. *)
Definition not_a_write (e : Event) : Prop :=
  match e with
  | EvExifWrite _ _ _ _ => False
  | _ => True
  end.

(** The events a call for the image [image_file] with the eligible tags
    [kept] may add when no safe copy is involved: attempts to delete the
    sidecar with their delays, the read of the image itself, and the write
    from the image itself to the sidecar itself. *)
Definition plain_event (image_file : Path) (kept : list str) (e : Event) : Prop :=
  match e with
  | EvUnlink p _ => p = sidecar_of image_file
  | EvSleep => True
  | EvExifRead p _ => p = image_file
  | EvExifWrite cmd out _ _ =>
      out = sidecar_of image_file
      /\ cmd = exiftool_cmd image_file (sidecar_of image_file) kept
  | _ => False
  end.


(** What a call may do when no safe copy is involved: change no file but
    the sidecar, make no temporary directory, draw no name, and add only
    [plain_event]s. *)
Definition plain_rel (image_file : Path) (kept : list str) (w w' : World) : Prop :=
  (forall u, u <> sidecar_of image_file -> fs w' !! u = fs w !! u)
  /\ tmpdirs w' = tmpdirs w
  /\ fresh w' = fresh w
  /\ trace_grows (plain_event image_file kept) w w'.

(** What holds of an entry of [existing_tags]: it is a trimmed, non-empty
    value other than ["(none)"], not four integers, with no [|], and with a
    [/] only when it starts with ["http"]. *)
Definition tag_ok (t : str) : Prop :=
  t <> []
  /\ t <> "(none)"
  /\ PyStr.strip t = t
  /\ PyStr.contains "|" t = false
  /\ Re.four_integers t = false
  /\ (PyStr.contains "/" t = true -> PyStr.startswith "http" t = true).

(** What holds of an entry of [hierarchical_subjects]. *)
Definition subject_ok (h : str) : Prop :=
  h <> [] /\ PyStr.contains "|" h = true.

(** What the loop over the lines keeps true of its state. *)
Definition parse_inv (st : ParseState) : Prop :=
  NoDup (existing_tags (md st))
  /\ NoDup (hierarchical_subjects (md st))
  /\ NoDup (faces (md st))
  /\ map fst (face_regions_by_name st) = faces (md st)
  /\ Forall (fun nr => fr_name (snd nr) = fst nr) (face_regions_by_name st)
  /\ Forall tag_ok (existing_tags (md st))
  /\ Forall subject_ok (hierarchical_subjects (md st)).

(** What the write-mode runs of the tool in a trace left at their output
    path, in order. *)
Fixpoint written_of (evs : list Event) : list (option Content) :=
  match evs with
  | [] => []
  | EvExifWrite _ _ _ written :: evs' => written :: written_of evs'
  | _ :: evs' => written_of evs'
  end.

(** Where the tool is told to write: a generated name in a temporary
    directory, or the sidecar itself when its name needs no safe copy and no
    copy of the image was made. *)
Definition output_choice (image_file : Path) (was_copied : bool)
    (x : Exc (option nat * Path)) : Prop :=
  match x with
  | Raise _ => True
  | Ok (_, out) =>
      (exists k u, out = mkPath (TempDir k) (temp_sidecar_name u))
      \/ (out = sidecar_of image_file
          /\ _has_unicode_surrogates (name (sidecar_of image_file)) = false
          /\ was_copied = false)
  end.


(** An event that changes the file at [p]: a delete of [p] that succeeded, a
    move onto [p] that succeeded, or a run of the tool in write mode with the
    output path [p] that left a file. *)
Definition touches (p : Path) (e : Event) : Prop :=
  match e with
  | EvUnlink q true => q = p
  | EvMove _ dst true => dst = p
  | EvExifWrite _ out _ (Some _) => out = p
  | _ => False
  end.

(** What a call for [image_file] does to files: it deletes the sidecar or a
    file of a temporary directory, copies into a temporary directory, moves a
    file of a temporary directory onto the sidecar, and has the tool write to
    the sidecar or into a temporary directory. *)
Definition dest_event (image_file : Path) (e : Event) : Prop :=
  match e with
  | EvUnlink q _ => q = sidecar_of image_file \/ exists k, parent q = TempDir k
  | EvCopy _ dst _ => exists k, parent dst = TempDir k
  | EvMove src dst _ => (exists k, parent src = TempDir k) /\ dst = sidecar_of image_file
  | EvExifWrite _ out _ _ => out = sidecar_of image_file \/ exists k, parent out = TempDir k
  | _ => True
  end.

(** The trace grows by events of a call for [image_file], and the sidecar is
    as before unless one of them changed it. *)
Definition dest_rel (image_file : Path) (w w' : World) : Prop :=
  exists ext, trace w' = trace w ++ ext
    /\ Forall (dest_event image_file) ext
    /\ (Forall (fun e => ~ touches (sidecar_of image_file) e) ext ->
        fs w' !! sidecar_of image_file = fs w !! sidecar_of image_file).

(** An event of the tool in write mode names [p] as its output path; any
    other event passes. *)
Definition writes_to (p : Path) (e : Event) : Prop :=
  match e with
  | EvExifWrite _ out _ _ => out = p
  | _ => True
  end.

(** A quiet system whose tool exits with an error after it has written a
    part of its output. *)
Definition partial_tool_env : Env :=
  mkEnv (fun _ => false) access_denied no_output
    (fun _ _ => (NonZeroExit, Some "partial output")).

(** A world with the camera image and no sidecar. *)
Definition camera_only_world : World := world_with [(camera_jpg, "jpeg data")].

(** * Properties *)

(** ** Character data *)

Module UnicodeFacts.
Import PyStr UnicodeChecks.

Local Open Scope Z_scope.

(** An entry found for a character is an entry of the table. *)
Lemma mapped_In (c : Z) (t : list (Z * list Z)) (v : list Z) :
  Unicode.mapped c t = Some v -> In (c, v) t.
Proof.
  induction t as [|[k w] t IH]; simpl; [discriminate|].
  destruct (c =? k) eqn:E.
  - intros [= <-]. apply Z.eqb_eq in E. subst. now left.
  - destruct (c <? k); [discriminate|]. intros H. right. now apply IH.
Qed.

Lemma lowercase_mapping_ok : forallb entry_ok Unicode.lowercase_mapping = true.
Proof. vm_compute. reflexivity. Qed.

Lemma mapped_ok (c : Z) (v : list Z) :
  Unicode.mapped c Unicode.lowercase_mapping = Some v -> entry_ok (c, v) = true.
Proof.
  intros H. apply mapped_In in H.
  exact (proj1 (forallb_forall _ _) lowercase_mapping_ok _ H).
Qed.

Lemma range_In (lo hi c : Z) (l : list Z) :
  (forall x, lo <= x <= hi -> In x l) -> (lo <=? c) && (c <=? hi) = true -> In c l.
Proof.
  intros H Hc. apply andb_prop in Hc as [H1 H2].
  apply H. split; [now apply Z.leb_le | now apply Z.leb_le].
Qed.

Lemma is_space_spaces (c : Z) : is_space c = true -> In c spaces.
Proof.
  unfold is_space, Unicode.in_ranges, Unicode.whitespace. cbn [existsb fst snd].
  rewrite !orb_true_iff.
  intros H. decompose [or] H; clear H;
    match goal with
    | H : _ && _ = true |- _ =>
        revert H; apply range_In; intros x Hx; unfold spaces; cbn [In]; lia
    | H : false = true |- _ => discriminate H
    end.
Qed.

Lemma spaces_ok : forallb space_ok spaces = true.
Proof. vm_compute. reflexivity. Qed.

Lemma is_space_ok (c : Z) : is_space c = true -> space_ok c = true.
Proof.
  intros H. apply is_space_spaces in H.
  exact (proj1 (forallb_forall _ _) spaces_ok _ H).
Qed.

End UnicodeFacts.

(** ** Strings *)

Module PyStrFacts.
Import PyStr.

Local Open Scope Z_scope.

Lemma all_space_app (a b : str) : all_space (a ++ b) = all_space a && all_space b.
Proof.
  induction a as [|c a IH]; [reflexivity|].
  cbn [app all_space]. now rewrite IH, andb_assoc.
Qed.

Lemma all_space_forallb (s : str) : all_space s = forallb is_space s.
Proof. induction s as [|c s IH]; [reflexivity|]. cbn [all_space forallb]. now rewrite IH. Qed.

(** What a character other than the capital sigma becomes is whitespace
    exactly when the character is. *)
Lemma all_space_lower_char (c : Z) : all_space (lower_char c) = is_space c.
Proof.
  unfold lower_char.
  destruct (Unicode.mapped c Unicode.lowercase_mapping) as [v|] eqn:Hm.
  - apply UnicodeFacts.mapped_ok in Hm. unfold UnicodeChecks.entry_ok in Hm.
    cbn [fst snd] in Hm.
    apply andb_prop in Hm as [Hm Hall]. apply andb_prop in Hm as [Hc Hne].
    apply negb_true_iff in Hc. rewrite Hc.
    destruct v as [|x v]; [discriminate|].
    cbn [forallb] in Hall. apply andb_prop in Hall as [Hx _].
    apply andb_prop in Hx as [Hx _]. apply negb_true_iff in Hx.
    cbn [all_space]. now rewrite Hx.
  - cbn [all_space]. apply andb_true_r.
Qed.

Lemma all_space_lower_from (b : bool) (s : str) :
  all_space (lower_from b s) = all_space s.
Proof.
  revert b. induction s as [|c s IH]; intros b; [reflexivity|].
  cbn [lower_from all_space]. rewrite all_space_app, IH. f_equal.
  destruct (c =? 0x3A3) eqn:E.
  - apply Z.eqb_eq in E. subst c. now destruct (final_sigma b s).
  - apply all_space_lower_char.
Qed.

Lemma all_space_lower (s : str) : all_space (lower s) = all_space s.
Proof. apply all_space_lower_from. Qed.

Lemma lstrip_all_space (s : str) : all_space s = true -> lstrip s = [].
Proof.
  induction s as [|c s IH]; simpl; [reflexivity|].
  destruct (is_space c); simpl; [exact IH | discriminate].
Qed.

Lemma lstrip_head (s : str) :
  all_space s = false ->
  exists c r, lstrip s = c :: r /\ is_space c = false.
Proof.
  induction s as [|c s IH]; simpl; [discriminate|].
  destruct (is_space c) eqn:Hc; simpl; [exact IH|].
  intros _. exists c, s. split; [reflexivity | exact Hc].
Qed.

Lemma rstrip_head (c : Z) (r : str) :
  is_space c = false -> truthy (rstrip (c :: r)) = true.
Proof.
  intros Hc. cbn [rstrip]. destruct (rstrip r); [rewrite Hc|]; reflexivity.
Qed.

(** A string strips to the empty string exactly when it is all whitespace. *)
Lemma truthy_strip (s : str) : truthy (strip s) = negb (all_space s).
Proof.
  unfold strip. destruct (all_space s) eqn:Hs.
  - now rewrite (lstrip_all_space s Hs).
  - destruct (lstrip_head s Hs) as (c & r & -> & Hc).
    now rewrite (rstrip_head c r Hc).
Qed.

Lemma truthy_true (s : str) : truthy s = true <-> s <> [].
Proof. destruct s; simpl; split; congruence. Qed.

End PyStrFacts.

(** ** The tag filter *)

Lemma filter_tags_loop_app (blacklist : gset str) (tags acc : list str) :
  filter_tags_loop blacklist tags acc = acc ++ List.filter (keeps blacklist) tags.
Proof.
  revert acc. induction tags as [|t ts IH]; intros acc; simpl.
  - now rewrite app_nil_r.
  - destruct (keeps blacklist t); rewrite IH; [|reflexivity].
    now rewrite <- app_assoc.
Qed.

Lemma filter_tags_filter (blacklist : gset str) (tags : list str) :
  filter_tags blacklist tags = List.filter (keeps blacklist) tags.
Proof. unfold filter_tags. now rewrite filter_tags_loop_app. Qed.

Lemma filter_sublist {A} (f : A -> bool) (l : list A) : List.filter f l `sublist_of` l.
Proof.
  induction l as [|x l IH]; simpl; [constructor|].
  destruct (f x); now constructor.
Qed.

Lemma keeps_not_blacklisted (blacklist : gset str) (t : str) :
  keeps blacklist t = true <->
  PyStr.strip (PyStr.lower t) <> [] /\ PyStr.strip (PyStr.lower t) ∉ blacklist.
Proof.
  unfold keeps. rewrite andb_true_iff, PyStrFacts.truthy_true, bool_decide_eq_true.
  reflexivity.
Qed.

Lemma keeps_blank (blacklist : gset str) (t : str) :
  PyStr.all_space t = true -> keeps blacklist t = false.
Proof.
  intros H. unfold keeps.
  rewrite PyStrFacts.truthy_strip, PyStrFacts.all_space_lower, H. reflexivity.
Qed.

Lemma keeps_empty_blacklist (t : str) : keeps ∅ t = negb (PyStr.all_space t).
Proof.
  unfold keeps. rewrite PyStrFacts.truthy_strip, PyStrFacts.all_space_lower.
  rewrite bool_decide_eq_true_2 by apply not_elem_of_empty. apply andb_true_r.
Qed.

Lemma elem_of_filter_tags (blacklist : gset str) (tags : list str) (t : str) :
  t ∈ filter_tags blacklist tags <-> t ∈ tags /\ keeps blacklist t = true.
Proof.
  rewrite filter_tags_filter, !list_elem_of_In. apply filter_In.
Qed.

(** C7: the result of [filter_tags] is a subsequence of its input (the tags
    kept are the caller's own strings, in their order) and holds no tag whose
    lowercased, trimmed form is in the blacklist.  It is exactly the input
    without the tags whose lowercased, trimmed form is empty or in the
    blacklist: every other tag is kept, as often as it occurs. *)
Theorem filter_tags_subsequence_clean :
  forall (blacklist : gset str) (tags : list str),
    filter_tags blacklist tags `sublist_of` tags
    /\ (forall t, t ∈ filter_tags blacklist tags ->
                  PyStr.strip (PyStr.lower t) ∉ blacklist)
    /\ filter_tags blacklist tags
       = List.filter
           (fun t => bool_decide (PyStr.strip (PyStr.lower t) <> []
                                  /\ PyStr.strip (PyStr.lower t) ∉ blacklist))
           tags.
Proof.
  intros blacklist tags. split; [|split].
  - rewrite filter_tags_filter. apply filter_sublist.
  - intros t Ht. apply elem_of_filter_tags in Ht as [_ Hk].
    now apply keeps_not_blacklisted in Hk.
  - rewrite filter_tags_filter. apply filter_ext. intros t.
    destruct (keeps blacklist t) eqn:Hk.
    + symmetry. apply bool_decide_eq_true. now apply keeps_not_blacklisted.
    + symmetry. apply bool_decide_eq_false. intros H.
      apply keeps_not_blacklisted in H. congruence.
Qed.

(** C10: [filter_tags] removes every empty or whitespace-only tag, whatever
    the blacklist; its result holds no such tag; and with the empty blacklist
    these are the only tags it removes. *)
Theorem filter_tags_drops_blank :
  forall (blacklist : gset str) (tags : list str),
    (forall t, t ∈ tags -> PyStr.all_space t = true -> t ∉ filter_tags blacklist tags)
    /\ (forall t, t ∈ filter_tags blacklist tags -> PyStr.all_space t = false)
    /\ filter_tags ∅ tags = List.filter (fun t => negb (PyStr.all_space t)) tags.
Proof.
  intros blacklist tags. split; [|split].
  - intros t _ Hb Hin. apply elem_of_filter_tags in Hin as [_ Hk].
    rewrite (keeps_blank blacklist t Hb) in Hk. discriminate.
  - intros t Hin. apply elem_of_filter_tags in Hin as [_ Hk].
    destruct (PyStr.all_space t) eqn:Hb; [|reflexivity].
    rewrite (keeps_blank blacklist t Hb) in Hk. discriminate.
  - rewrite filter_tags_filter. apply filter_ext. intros t. apply keeps_empty_blacklist.
Qed.

(** ** The blacklist *)

Lemma elem_of_custom_tags (ts : list str) (x : str) :
  x ∈ custom_tags ts <->
  exists t, t ∈ ts /\ PyStr.strip t <> [] /\ x = PyStr.lower (PyStr.strip t).
Proof.
  unfold custom_tags. rewrite elem_of_list_to_set, list_elem_of_In, in_map_iff.
  split.
  - intros (t & <- & Ht). apply filter_In in Ht as [Hin Htr].
    exists t. rewrite list_elem_of_In. split; [exact Hin|].
    split; [now apply PyStrFacts.truthy_true | reflexivity].
  - intros (t & Hin & Hne & ->). exists t. split; [reflexivity|].
    apply filter_In. split; [now apply list_elem_of_In | now apply PyStrFacts.truthy_true].
Qed.

Lemma elem_of_file_blacklist (ls : list str) (x : str) :
  x ∈ file_blacklist ls <->
  exists line, line ∈ ls /\ PyStr.strip line <> []
               /\ PyStr.startswith "#" line = false
               /\ x = PyStr.lower (PyStr.strip line).
Proof.
  unfold file_blacklist. rewrite elem_of_list_to_set, list_elem_of_In, in_map_iff.
  split.
  - intros (l & <- & Hl). apply filter_In in Hl as [Hin Hc].
    apply andb_prop in Hc as [Htr Hs]. apply negb_true_iff in Hs.
    exists l. rewrite list_elem_of_In. split; [exact Hin|].
    split; [now apply PyStrFacts.truthy_true | split; [exact Hs | reflexivity]].
  - intros (l & Hin & Hne & Hs & ->). exists l. split; [reflexivity|].
    apply filter_In. split; [now apply list_elem_of_In|].
    apply andb_true_intro. split; [now apply PyStrFacts.truthy_true | now rewrite Hs].
Qed.

Lemma load_blacklist_enabled (read_file : str -> FileRead)
    (blacklist_file : option str) (custom : option (list str)) :
  blacklist_file <> Some "DISABLED" ->
  _load_blacklist read_file blacklist_file custom
  = default_blacklist ∪ custom_tags (custom_entries custom)
      ∪ file_blacklist (file_lines read_file blacklist_file).
Proof.
  intros Hne. unfold _load_blacklist. rewrite decide_False by exact Hne.
  assert (Hc : match custom with
               | Some (t :: ts) => default_blacklist ∪ custom_tags (t :: ts)
               | _ => default_blacklist
               end = default_blacklist ∪ custom_tags (custom_entries custom)).
  { destruct custom as [[|t ts]|]; simpl; try reflexivity;
      change (custom_tags []) with (∅ : gset str);
      now rewrite union_empty_r_L. }
  rewrite Hc. clear Hc.
  destruct blacklist_file as [[|c p]|]; simpl.
  - change (file_blacklist []) with (∅ : gset str). now rewrite union_empty_r_L.
  - destruct (read_file (c :: p)); try reflexivity;
      change (file_blacklist []) with (∅ : gset str); now rewrite union_empty_r_L.
  - change (file_blacklist []) with (∅ : gset str). now rewrite union_empty_r_L.
Qed.

(** C9: unless the blacklist file is the sentinel ["DISABLED"], the blacklist
    holds exactly the built-in defaults, the trimmed and lowercased custom
    tags, and the trimmed and lowercased lines of the file that are neither
    blank nor start with [#]; with the sentinel it is empty, whatever custom
    tags are given.  Blank entries only ever stand for the empty str, which
    is never a member, so for a non-empty str membership does not depend
    on them. *)
Theorem load_blacklist_union_or_disabled :
  forall (read_file : str -> FileRead) (blacklist_file : option str)
         (custom : option (list str)),
    (blacklist_file = Some "DISABLED" ->
     _load_blacklist read_file blacklist_file custom = ∅)
    /\ (blacklist_file <> Some "DISABLED" ->
        forall x : str,
          x ∈ _load_blacklist read_file blacklist_file custom <->
          x ∈ default_blacklist_list
          \/ (exists t, t ∈ custom_entries custom
                        /\ PyStr.strip t <> []
                        /\ x = PyStr.lower (PyStr.strip t))
          \/ (exists line, line ∈ file_lines read_file blacklist_file
                           /\ PyStr.strip line <> []
                           /\ PyStr.startswith "#" line = false
                           /\ x = PyStr.lower (PyStr.strip line)))
    /\ (blacklist_file <> Some "DISABLED" ->
        forall x : str,
          x <> [] ->
          (x ∈ _load_blacklist read_file blacklist_file custom <->
           x ∈ default_blacklist_list
           \/ (exists t, t ∈ custom_entries custom /\ x = PyStr.lower (PyStr.strip t))
           \/ (exists line, line ∈ file_lines read_file blacklist_file
                            /\ PyStr.startswith "#" line = false
                            /\ x = PyStr.lower (PyStr.strip line)))).
Proof.
  intros read_file blacklist_file custom.
  assert (Hmem : blacklist_file <> Some "DISABLED" ->
                 forall x : str,
                   x ∈ _load_blacklist read_file blacklist_file custom <->
                   x ∈ default_blacklist_list
                   \/ (exists t, t ∈ custom_entries custom
                                 /\ PyStr.strip t <> []
                                 /\ x = PyStr.lower (PyStr.strip t))
                   \/ (exists line, line ∈ file_lines read_file blacklist_file
                                    /\ PyStr.strip line <> []
                                    /\ PyStr.startswith "#" line = false
                                    /\ x = PyStr.lower (PyStr.strip line))).
  { intros Hne x. rewrite (load_blacklist_enabled _ _ _ Hne).
    rewrite !elem_of_union, elem_of_custom_tags, elem_of_file_blacklist.
    unfold default_blacklist. rewrite elem_of_list_to_set. tauto. }
  split; [intros ->; reflexivity|]. split; [exact Hmem|].
  intros Hne x Hx. rewrite (Hmem Hne x). clear Hmem.
  assert (Hblank : forall t, x = PyStr.lower (PyStr.strip t) ->
                             PyStr.strip t <> []).
  { intros t -> Ht. rewrite Ht in Hx. now apply Hx. }
  split.
  - intros [H | [(t & Ht & _ & Hxt) | (l & Hl & _ & Hs & Hxl)]]; eauto 6.
  - intros [H | [(t & Ht & Hxt) | (l & Hl & Hs & Hxl)]]; [eauto | |].
    + right. left. exists t. eauto.
    + right. right. exists l. eauto 6.
Qed.


(** ** Reasoning about stateful code *)

Section Hoare.

Variable R : World -> World -> Prop.
Hypothesis R_refl : forall w, R w w.
Hypothesis R_trans : forall w1 w2 w3, R w1 w2 -> R w2 w3 -> R w1 w3.

Lemma hoare_ret {A} (x : A) (Q : A -> Prop) : Q x -> hoare R (mret x) Q.
Proof. intros H w. split; [apply R_refl | exact H]. Qed.

Lemma hoare_bind {A B} (c : M A) (f : A -> M B) (Q : A -> Prop) (Q' : B -> Prop) :
  hoare R c Q -> (forall x, Q x -> hoare R (f x) Q') -> hoare R (c ≫= f) Q'.
Proof.
  intros Hc Hf w. unfold mbind, M_bind.
  destruct (Hc w) as [HR HQ]. destruct (c w) as [x w1]. simpl in *.
  destruct (Hf x HQ w1) as [HR' HQ']. split; [now apply R_trans with w1 | exact HQ'].
Qed.

Lemma hoare_weaken {A} (c : M A) (Q Q' : A -> Prop) :
  hoare R c Q -> (forall x, Q x -> Q' x) -> hoare R c Q'.
Proof. intros Hc HQ w. destruct (Hc w). split; auto. Qed.

Lemma hoare_if {A} (b : bool) (c1 c2 : M A) (Q : A -> Prop) :
  hoare R c1 Q -> hoare R c2 Q -> hoare R (if b then c1 else c2) Q.
Proof. now destruct b. Qed.

End Hoare.

Lemma user_frame_refl (w : World) : user_frame w w.
Proof. intros u d _. reflexivity. Qed.

Lemma user_frame_trans (w1 w2 w3 : World) :
  user_frame w1 w2 -> user_frame w2 w3 -> user_frame w1 w3.
Proof. intros H1 H2 u d Hu. rewrite (H2 u d Hu). now apply H1 with d. Qed.

Lemma trace_grows_refl (P : Event -> Prop) (w : World) : trace_grows P w w.
Proof. exists []. split; [now rewrite app_nil_r | constructor]. Qed.

Lemma trace_grows_trans (P : Event -> Prop) (w1 w2 w3 : World) :
  trace_grows P w1 w2 -> trace_grows P w2 w3 -> trace_grows P w1 w3.
Proof.
  intros (e1 & H1 & F1) (e2 & H2 & F2). exists (e1 ++ e2). split.
  - now rewrite H2, H1, <- app_assoc.
  - apply Forall_app. now split.
Qed.

Lemma new_events_grows (P : Event -> Prop) (w w' : World) :
  trace_grows P w w' -> trace w' = trace w ++ new_events w w' /\ Forall P (new_events w w').
Proof.
  intros (ext & H & F). unfold new_events. rewrite H, drop_app_length. now split.
Qed.

(** ** What each operation adds to the trace *)

Section TraceFacts.

Variable env : Env.
Variable P : Event -> Prop.
Hypothesis P_other :
  forall e, match e with EvExifWrite _ _ _ _ => True | _ => P e end.

Local Abbreviation TG := (trace_grows P).

Lemma tg_ret {A} (x : A) (Q : A -> Prop) : Q x -> hoare TG (mret x) Q.
Proof. apply hoare_ret, trace_grows_refl. Qed.

Lemma tg_bind {A B} (c : M A) (f : A -> M B) (Q : A -> Prop) (Q' : B -> Prop) :
  hoare TG c Q -> (forall x, Q x -> hoare TG (f x) Q') -> hoare TG (c ≫= f) Q'.
Proof. apply hoare_bind, trace_grows_trans. Qed.

Lemma tg_silent {A} (c : M A) :
  (forall w, trace (snd (c w)) = trace w) -> hoare TG c (fun _ => True).
Proof.
  intros H w. split; [|trivial]. exists []. rewrite H, app_nil_r. now split.
Qed.

Lemma tg_emit (e : Event) : P e -> hoare TG (emit e) (fun _ => True).
Proof.
  intros He w. split; [|trivial]. exists [e]. split; [reflexivity | now constructor].
Qed.

Lemma tg_seq {A B} (c : M A) (d : M B) (Q : B -> Prop) :
  hoare TG c (fun _ => True) -> hoare TG d Q -> hoare TG (c ;; d) Q.
Proof. intros Hc Hd. eapply tg_bind; [exact Hc | intros _ _; exact Hd]. Qed.

Lemma tg_path_exists (p : Path) : hoare TG (path_exists p) (fun _ => True).
Proof. now apply tg_silent. Qed.

Lemma tg_unlink (p : Path) : hoare TG (unlink env p) (fun _ => True).
Proof.
  intros w. split; [|trivial]. unfold unlink, mbind, M_bind; simpl.
  destruct (os_fails env (clock w) || _); simpl.
  - exists [EvUnlink p false]. split; [reflexivity|]. constructor; [|constructor].
    apply (P_other (EvUnlink p false)).
  - exists [EvUnlink p true]. split; [reflexivity|]. constructor; [|constructor].
    apply (P_other (EvUnlink p true)).
Qed.

Lemma tg_mkdtemp : hoare TG (mkdtemp env) (fun _ => True).
Proof.
  intros w. split; [|trivial]. unfold mkdtemp, mbind, M_bind; simpl.
  destruct (os_fails env (clock w)); simpl.
  - exists [EvMkdtempFailed (os_error env (clock w))].
    split; [reflexivity|]. constructor; [|constructor].
    apply (P_other (EvMkdtempFailed (os_error env (clock w)))).
  - exists [EvMkdtemp (fresh w)].
    split; [reflexivity|]. constructor; [|constructor].
    apply (P_other (EvMkdtemp (fresh w))).
Qed.

Lemma tg_next_fresh : hoare TG next_fresh (fun _ => True).
Proof. now apply tg_silent. Qed.

Lemma tg_copy2 (src dst : Path) : hoare TG (copy2 env src dst) (fun _ => True).
Proof.
  intros w. split; [|trivial]. unfold copy2, mbind, M_bind; simpl.
  destruct (fs w !! src); [destruct (os_fails env (clock w))|]; simpl.
  - exists [EvCopy src dst false]. split; [reflexivity|]. constructor; [|constructor].
    apply (P_other (EvCopy src dst false)).
  - exists [EvCopy src dst true]. split; [reflexivity|]. constructor; [|constructor].
    apply (P_other (EvCopy src dst true)).
  - exists [EvCopy src dst false]. split; [reflexivity|]. constructor; [|constructor].
    apply (P_other (EvCopy src dst false)).
Qed.

Lemma tg_move (src dst : Path) : hoare TG (move env src dst) (fun _ => True).
Proof.
  intros w. split; [|trivial]. unfold move, mbind, M_bind; simpl.
  destruct (fs w !! src); [destruct (os_fails env (clock w))|]; simpl.
  - exists [EvMove src dst false]. split; [reflexivity|]. constructor; [|constructor].
    apply (P_other (EvMove src dst false)).
  - exists [EvMove src dst true]. split; [reflexivity|]. constructor; [|constructor].
    apply (P_other (EvMove src dst true)).
  - exists [EvMove src dst false]. split; [reflexivity|]. constructor; [|constructor].
    apply (P_other (EvMove src dst false)).
Qed.

Lemma tg_rmdir (k : nat) : hoare TG (rmdir env k) (fun _ => True).
Proof.
  intros w. split; [|trivial]. unfold rmdir, mbind, M_bind; simpl.
  destruct (os_fails env (clock w) || _ || _); simpl.
  - exists [EvRmdir k false]. split; [reflexivity|]. constructor; [|constructor].
    apply (P_other (EvRmdir k false)).
  - exists [EvRmdir k true]. split; [reflexivity|]. constructor; [|constructor].
    apply (P_other (EvRmdir k true)).
Qed.

Lemma tg_rmdir_user (d : str) : hoare TG (rmdir_user env d) (fun _ => True).
Proof.
  intros w. split; [|trivial]. unfold rmdir_user, mbind, M_bind; simpl.
  destruct (os_fails env (clock w) || _); simpl.
  - exists [EvRmdirUser d false]. split; [reflexivity|]. constructor; [|constructor].
    apply (P_other (EvRmdirUser d false)).
  - exists [EvRmdirUser d true]. split; [reflexivity|]. constructor; [|constructor].
    apply (P_other (EvRmdirUser d true)).
Qed.

Lemma tg_create_temp_copy (p : Path) :
  hoare TG (_create_temp_copy_for_exiftool env p) (fun _ => True).
Proof.
  unfold _create_temp_copy_for_exiftool.
  destruct (negb _); [now apply tg_ret|].
  eapply tg_bind; [apply tg_mkdtemp | intros [k|e] _]; [|now apply tg_ret].
  eapply tg_bind; [apply tg_next_fresh | intros u _].
  eapply tg_bind; [apply tg_copy2 | intros ok _].
  destruct ok; now apply tg_ret.
Qed.

Lemma tg_rmdir_if_exists (k : nat) :
  hoare TG (d ← get_tmpdirs; if bool_decide (k ∈ d) then rmdir env k;; mret tt else mret tt)
    (fun _ => True).
Proof.
  eapply tg_bind; [now apply tg_silent | intros d _].
  destruct (bool_decide _); [|now apply tg_ret].
  apply tg_seq; [apply tg_rmdir | now apply tg_ret].
Qed.

Lemma tg_cleanup (p : Path) : hoare TG (_cleanup_temp_file env p) (fun _ => True).
Proof.
  unfold _cleanup_temp_file.
  eapply tg_bind; [apply tg_path_exists | intros e _].
  eapply tg_bind with (Q := fun _ => True).
  { destruct e; [apply tg_unlink | now apply tg_ret]. }
  intros ok _. destruct ok; [|now apply tg_ret].
  destruct (parent p) as [d|k].
  - destruct (PyStr.startswith _ _); [|now apply tg_ret].
    apply tg_seq; [apply tg_rmdir_user | now apply tg_ret].
  - eapply tg_bind; [now apply tg_silent | intros d _].
    destruct (_ && _); [|now apply tg_ret].
    apply tg_seq; [apply tg_rmdir | now apply tg_ret].
Qed.

Lemma tg_read_existing_metadata (p : Path) :
  hoare TG (read_existing_metadata env p) (fun _ => True).
Proof.
  unfold read_existing_metadata.
  eapply tg_bind; [apply tg_create_temp_copy | intros [[temp_file was_copied]|e] _];
    [|now apply tg_ret].
  eapply tg_bind; [now apply tg_silent | intros f _].
  destruct (exiftool_read env temp_file f) as [st stdout].
  apply tg_seq.
  { apply tg_emit. apply (P_other (EvExifRead temp_file st)). }
  apply tg_seq; [|now apply tg_ret].
  destruct was_copied; [apply tg_cleanup | now apply tg_ret].
Qed.

Lemma tg_delete_attempts (n : nat) (p : Path) :
  hoare TG (delete_attempts env n p) (fun _ => True).
Proof.
  induction n as [|n IH]; simpl; [now apply tg_ret|].
  eapply tg_bind; [apply tg_unlink | intros ok _].
  destruct ok; [now apply tg_ret|].
  apply tg_seq; [|exact IH]. apply tg_emit. apply (P_other EvSleep).
Qed.

Lemma tg_run_exiftool_write (cmd : list Arg) (out : Path) :
  (forall st wr, P (EvExifWrite cmd out st wr)) ->
  hoare TG (run_exiftool_write env cmd out) (fun _ => True).
Proof.
  intros HP. unfold run_exiftool_write.
  eapply tg_bind; [now apply tg_silent | intros f _].
  destruct (exiftool_write env cmd f) as [st written].
  apply tg_seq.
  { destruct (match st with NotInstalled => None | _ => written end);
      now apply tg_silent. }
  apply tg_seq; [apply tg_emit, HP | now apply tg_ret].
Qed.

Lemma tg_move_to_final (out dest : Path) :
  hoare TG (move_to_final env out dest) (fun _ => True).
Proof.
  unfold move_to_final. destruct (bool_decide _); [|now apply tg_ret].
  eapply tg_bind; [apply tg_path_exists | intros e _].
  destruct e; [|now apply tg_ret].
  eapply tg_bind; [apply tg_path_exists | intros e' _].
  eapply tg_bind with (Q := fun _ => True).
  { destruct e'; [apply tg_unlink | now apply tg_ret]. }
  intros ok _. destruct ok; [|now apply tg_ret].
  apply tg_seq; [apply tg_move | now apply tg_ret].
Qed.

End TraceFacts.

Section TraceOfGenerate.

Variable env : Env.
Variable P : Event -> Prop.
Hypothesis P_other :
  forall e, match e with EvExifWrite _ _ _ _ => True | _ => P e end.
Hypothesis P_temp :
  forall cmd k n st wr, P (EvExifWrite cmd (mkPath (TempDir k) n) st wr).

Lemma tg_sidecar_output (image_file : Path) (was_copied : bool) :
  hoare (trace_grows P)
    (sidecar_output env (sidecar_of image_file)
       (_has_unicode_surrogates (name (sidecar_of image_file))) was_copied)
    (output_choice image_file was_copied).
Proof.
  unfold sidecar_output.
  destruct (_has_unicode_surrogates (name (sidecar_of image_file))) eqn:Hu;
    [|destruct was_copied]; cbn [orb].
  - eapply tg_bind; [now apply tg_mkdtemp | intros [d|e] _]; [|now apply tg_ret].
    eapply tg_bind; [now apply tg_next_fresh | intros u _].
    apply tg_ret. left. eauto.
  - eapply tg_bind; [now apply tg_mkdtemp | intros [d|e] _]; [|now apply tg_ret].
    eapply tg_bind; [now apply tg_next_fresh | intros u _].
    apply tg_ret. left. eauto.
  - apply tg_ret. right. now repeat split.
Qed.

Lemma tg_write_sidecar (image_file : Path) (tags : list str) :
  (_has_unicode_surrogates (name (sidecar_of image_file)) = false ->
   forall cmd st wr, P (EvExifWrite cmd (sidecar_of image_file) st wr)) ->
  hoare (trace_grows P) (write_sidecar env image_file tags) (fun _ => True).
Proof.
  intros Hplain. unfold write_sidecar.
  eapply tg_bind; [now apply tg_create_temp_copy | intros [[temp was_copied]|e] _];
    [|now apply tg_ret].
  eapply tg_bind; [apply tg_sidecar_output | intros [[temp_sidecar_dir out]|e] Hout];
    [|now apply tg_ret].
  cbn [output_choice] in Hout.
  eapply tg_bind with (Q := fun _ => True).
  { apply tg_run_exiftool_write.
    destruct Hout as [(k & u & ->) | (-> & Hu & _)]; intros st wr.
    - apply P_temp.
    - now apply Hplain. }
  intros st _.
  apply tg_seq; [now apply tg_move_to_final|].
  apply tg_seq.
  { destruct was_copied; [now apply tg_cleanup | now apply tg_ret]. }
  apply tg_seq; [|now apply tg_ret].
  destruct temp_sidecar_dir; [now apply tg_rmdir_if_exists | now apply tg_ret].
Qed.

Lemma tg_generate_sidecar (blacklist : gset str) (image_file : Path)
    (tags : list str) (format_type : str) (overwrite : bool) :
  (_has_unicode_surrogates (name (sidecar_of image_file)) = false ->
   forall cmd st wr, P (EvExifWrite cmd (sidecar_of image_file) st wr)) ->
  hoare (trace_grows P)
    (generate_sidecar env blacklist image_file tags format_type overwrite)
    (fun _ => True).
Proof.
  intros Hplain. unfold generate_sidecar.
  destruct tags as [|t ts]; [now apply tg_ret|].
  destruct (filter_tags blacklist (t :: ts)) as [|t' ts']; [now apply tg_ret|].
  eapply tg_bind with (Q := fun _ => True).
  { destruct (_ && overwrite); [now apply tg_path_exists | now apply tg_ret]. }
  intros e _.
  eapply tg_bind with (Q := fun _ => True).
  { destruct e; [now apply tg_delete_attempts | now apply tg_ret]. }
  intros deleted _. destruct deleted; simpl; [|now apply tg_ret].
  apply tg_seq; [now apply tg_read_existing_metadata|].
  destruct (bool_decide _); [now apply tg_write_sidecar | now apply tg_ret].
Qed.

End TraceOfGenerate.


(** ** The delete-and-retry step *)

Lemma failures_le (fails : nat -> bool) (start n : nat) : failures fails start n <= n.
Proof.
  revert start. induction n as [|n IH]; intros start; simpl; [lia|].
  destruct (fails start); [specialize (IH (S start)) |]; lia.
Qed.

Lemma unlink_run (env : Env) (p : Path) (w : World) (c : Content) :
  fs w !! p = Some c ->
  unlink env p w =
    if os_fails env (clock w)
    then (false, mkWorld (fs w) (tmpdirs w) (fresh w) (S (clock w))
                   (trace w ++ [EvUnlink p false]))
    else (true, mkWorld (delete p (fs w)) (tmpdirs w) (fresh w) (S (clock w))
                  (trace w ++ [EvUnlink p true])).
Proof.
  intros H. unfold unlink, mbind, M_bind; simpl. rewrite H.
  rewrite bool_decide_eq_true_2 by eauto. simpl. rewrite orb_false_r.
  now destruct (os_fails env (clock w)).
Qed.

Lemma delete_attempts_run (env : Env) (p : Path) (c : Content) (n : nat) (w : World) :
  fs w !! p = Some c ->
  let k := failures (os_fails env) (clock w) n in
  delete_attempts env n p w =
    if (k <? n)%nat
    then (true, mkWorld (delete p (fs w)) (tmpdirs w) (fresh w) (clock w + k + 1)
                  (trace w ++ failed_attempts k p ++ [EvUnlink p true]))
    else (false, mkWorld (fs w) (tmpdirs w) (fresh w) (clock w + n)
                   (trace w ++ failed_attempts n p)).
Proof.
  revert w. induction n as [|n IH]; intros w H; simpl.
  - destruct w; simpl. unfold mret, M_ret. now rewrite Nat.add_0_r, app_nil_r.
  - unfold mbind, M_bind. rewrite (unlink_run env p w c H).
    destruct (os_fails env (clock w)) eqn:Hf.
    + unfold emit; simpl.
      match goal with |- context [delete_attempts env n p ?w1] =>
        specialize (IH w1 H); simpl in IH; rewrite IH end.
      change (S (failures (os_fails env) (S (clock w)) n) <? S n)%nat
        with (failures (os_fails env) (S (clock w)) n <? n)%nat.
      destruct (_ <? n)%nat; f_equal; f_equal; try lia;
        now rewrite <- !app_assoc.
    + simpl. unfold mret, M_ret. f_equal. f_equal; first [lia | reflexivity].
Qed.

(** With no eligible tag nothing is done at all. *)
Lemma generate_sidecar_no_tags (env : Env) (blacklist : gset str) (image_file : Path)
    (tags : list str) (format_type : str) (overwrite : bool) (w : World) :
  filter_tags blacklist tags = [] ->
  generate_sidecar env blacklist image_file tags format_type overwrite w
  = (Returned false, w).
Proof.
  intros H. unfold generate_sidecar. destruct tags as [|t ts]; [reflexivity|].
  now rewrite H.
Qed.

Lemma generate_sidecar_overwrite_run (env : Env) (blacklist : gset str)
    (image_file : Path) (tags : list str) (format_type : str) (w : World)
    (c : Content) (t : str) (ts : list str) :
  filter_tags blacklist tags = t :: ts ->
  PyStr.lower format_type = "xmp" ->
  fs w !! sidecar_of image_file = Some c ->
  generate_sidecar env blacklist image_file tags format_type true w
  = let (deleted, w1) := delete_attempts env 3 (sidecar_of image_file) w in
    if deleted
    then (read_existing_metadata env image_file;;
          write_sidecar env image_file (t :: ts)) w1
    else (Returned false, w1).
Proof.
  intros Hf Hx He. unfold generate_sidecar.
  destruct tags as [|t0 ts0]; [discriminate|].
  rewrite Hf, Hx. rewrite (bool_decide_eq_true_2 ("xmp" = "xmp") eq_refl).
  cbv beta iota zeta. simpl andb.
  unfold mbind at 1, M_bind at 1.
  unfold path_exists at 1. unfold mbind at 1, M_bind at 1. simpl get_fs.
  unfold get_fs, mret, M_ret. rewrite He.
  rewrite bool_decide_eq_true_2 by eauto.
  unfold mbind at 1, M_bind at 1.
  destruct (delete_attempts env 3 (sidecar_of image_file) w) as [[] w1]; reflexivity.
Qed.

Lemma any_event_other :
  forall e, match e with
            | EvExifWrite _ _ _ _ => True
            | _ => (fun _ : Event => True) e
            end.
Proof. intros e. destruct e; exact I. Qed.

Lemma read_then_write_grows (env : Env) (image_file : Path) (tags : list str) :
  hoare (trace_grows (fun _ => True))
    (read_existing_metadata env image_file;; write_sidecar env image_file tags)
    (fun _ => True).
Proof.
  apply tg_seq.
  - apply tg_read_existing_metadata, any_event_other.
  - apply tg_write_sidecar; [apply any_event_other | intros; exact I | intros; exact I].
Qed.


(** ** Reading metadata leaves the caller's files alone *)

Section UserFrame.

Variable env : Env.

Local Abbreviation UF := user_frame.

Lemma uf_ret {A} (x : A) (Q : A -> Prop) : Q x -> hoare UF (mret x) Q.
Proof. apply hoare_ret, user_frame_refl. Qed.

Lemma uf_bind {A B} (c : M A) (f : A -> M B) (Q : A -> Prop) (Q' : B -> Prop) :
  hoare UF c Q -> (forall x, Q x -> hoare UF (f x) Q') -> hoare UF (c ≫= f) Q'.
Proof. apply hoare_bind, user_frame_trans. Qed.

Lemma uf_same_fs {A} (c : M A) :
  (forall w, fs (snd (c w)) = fs w) -> hoare UF c (fun _ => True).
Proof. intros H w. split; [|trivial]. intros u d _. now rewrite H. Qed.

Lemma uf_seq {A B} (c : M A) (d : M B) (Q : B -> Prop) :
  hoare UF c (fun _ => True) -> hoare UF d Q -> hoare UF (c ;; d) Q.
Proof. intros Hc Hd. eapply uf_bind; [exact Hc | intros _ _; exact Hd]. Qed.

Lemma temp_not_user (p u : Path) (k : nat) (d : str) :
  parent p = TempDir k -> parent u = UserDir d -> p <> u.
Proof. intros Hp Hu ->. congruence. Qed.

Lemma uf_unlink (p : Path) (k : nat) :
  parent p = TempDir k -> hoare UF (unlink env p) (fun _ => True).
Proof.
  intros Hp w. split; [|trivial]. intros u d Hu.
  unfold unlink, mbind, M_bind; simpl.
  destruct (os_fails env (clock w) || _); simpl; [reflexivity|].
  apply lookup_delete_ne. now apply temp_not_user with k d.
Qed.

Lemma uf_copy2 (src dst : Path) (k : nat) :
  parent dst = TempDir k -> hoare UF (copy2 env src dst) (fun _ => True).
Proof.
  intros Hp w. split; [|trivial]. intros u d Hu.
  unfold copy2, mbind, M_bind; simpl.
  destruct (fs w !! src); [destruct (os_fails env (clock w))|]; simpl;
    try reflexivity.
  apply lookup_insert_ne. now apply temp_not_user with k d.
Qed.

Lemma uf_rmdir (k : nat) : hoare UF (rmdir env k) (fun _ => True).
Proof.
  apply uf_same_fs. intros w. unfold rmdir, mbind, M_bind; simpl.
  now destruct (os_fails env (clock w) || _ || _).
Qed.

Lemma uf_mkdtemp : hoare UF (mkdtemp env) (fun _ => True).
Proof.
  apply uf_same_fs. intros w. unfold mkdtemp, mbind, M_bind; simpl.
  now destruct (os_fails env (clock w)).
Qed.

Lemma uf_rmdir_user (d : str) : hoare UF (rmdir_user env d) (fun _ => True).
Proof.
  apply uf_same_fs. intros w. unfold rmdir_user, mbind, M_bind; simpl.
  now destruct (os_fails env (clock w) || _).
Qed.

Lemma uf_create_temp_copy (p : Path) :
  hoare UF (_create_temp_copy_for_exiftool env p)
    (fun x => match x with
              | Ok (q, true) => exists k, parent q = TempDir k
              | _ => True
              end).
Proof.
  unfold _create_temp_copy_for_exiftool.
  destruct (negb _); [now apply uf_ret|].
  eapply uf_bind; [apply uf_mkdtemp | intros [k|e] _]; [|now apply uf_ret].
  eapply uf_bind; [now apply uf_same_fs | intros u _].
  eapply uf_bind; [now apply uf_copy2 with k | intros ok _].
  destruct ok; apply uf_ret; simpl; [eauto | exact I].
Qed.

Lemma uf_cleanup (p : Path) (k : nat) :
  parent p = TempDir k -> hoare UF (_cleanup_temp_file env p) (fun _ => True).
Proof.
  intros Hp. unfold _cleanup_temp_file.
  eapply uf_bind; [now apply uf_same_fs | intros e _].
  eapply uf_bind with (Q := fun _ => True).
  { destruct e; [now apply uf_unlink with k | now apply uf_ret]. }
  intros ok _. destruct ok; [|now apply uf_ret].
  rewrite Hp.
  eapply uf_bind; [now apply uf_same_fs | intros d _].
  destruct (_ && _); [|now apply uf_ret].
  apply uf_seq; [apply uf_rmdir | now apply uf_ret].
Qed.

Lemma uf_read_existing_metadata (p : Path) :
  hoare UF (read_existing_metadata env p) (fun _ => True).
Proof.
  unfold read_existing_metadata.
  eapply uf_bind;
    [apply uf_create_temp_copy | intros [[temp_file was_copied]|e] Ht];
    [|now apply uf_ret].
  eapply uf_bind; [now apply uf_same_fs | intros f _].
  destruct (exiftool_read env temp_file f) as [st stdout].
  apply uf_seq; [now apply uf_same_fs|].
  apply uf_seq; [|now apply uf_ret].
  destruct was_copied; [|now apply uf_ret].
  destruct Ht as [k Hk]. now apply uf_cleanup with k.
Qed.

End UserFrame.

(** A format whose lowercase form is not ["xmp"] is refused: the call returns
    failure, after at most reading the image's metadata, with no file of the
    caller changed and the tool never started in write mode. *)
Lemma generate_sidecar_unsupported (env : Env) (blacklist : gset str)
    (image_file : Path) (tags : list str) (format_type : str)
    (overwrite : bool) (w : World) :
  PyStr.lower format_type <> "xmp" ->
  let '(r, w') := generate_sidecar env blacklist image_file tags format_type overwrite w in
  r = Returned false
  /\ user_frame w w'
  /\ Forall (fun e => match e with EvExifWrite _ _ _ _ => False | _ => True end)
       (new_events w w').
Proof.
  intros Hx.
  destruct (filter_tags blacklist tags) as [|t ts] eqn:Hf.
  { rewrite generate_sidecar_no_tags by exact Hf. split; [reflexivity|].
    split; [apply user_frame_refl|]. unfold new_events. rewrite drop_all. constructor. }
  unfold generate_sidecar. destruct tags as [|t0 ts0]; [discriminate|].
  rewrite Hf. rewrite (bool_decide_eq_false_2 _ Hx). simpl.
  unfold mbind at 1, M_bind at 1. unfold mret at 1, M_ret at 1.
  unfold mbind at 1, M_bind at 1. unfold mret at 1, M_ret at 1. simpl negb.
  unfold mbind, M_bind. cbn [negb]. cbv beta iota.
  destruct (uf_read_existing_metadata env image_file w) as [Huf _].
  destruct (tg_read_existing_metadata env
              (fun e => match e with EvExifWrite _ _ _ _ => False | _ => True end)
              (fun e => ltac:(destruct e; exact I)) image_file w) as [Htg _].
  destruct (read_existing_metadata env image_file w) as [m w1]. simpl in *.
  split; [reflexivity|]. split; [exact Huf|].
  now apply new_events_grows in Htg as [_ ?].
Qed.

(** C6: with [overwrite] set, the format ["xmp"] and a sidecar present, the
    first thing done is to delete that sidecar: at most 3 attempts, each
    failed one followed by a delay, and nothing before them.  When the 3
    attempts fail the call returns failure having started no tool and changed
    no file, directory or name supply.  Otherwise an attempt succeeds and the
    sidecar is gone from then on: the metadata is read and the sidecar written
    from a world that differs from the initial one by the missing sidecar
    alone, and, the image being in a directory of the caller, the sidecar is
    still absent when the writing starts.  (A call with no eligible tag
    returns failure before this step and does nothing.) *)
Theorem overwrite_deletes_first_three_attempts :
  forall (env : Env) (blacklist : gset str) (image_file : Path)
         (tags : list str) (format_type : str) (w : World) (c : Content),
    PyStr.lower format_type = "xmp" ->
    fs w !! sidecar_of image_file = Some c ->
    let dest := sidecar_of image_file in
    let k := failures (os_fails env) (clock w) 3 in
    let '(r, w') := generate_sidecar env blacklist image_file tags format_type true w in
    (filter_tags blacklist tags = [] -> r = Returned false /\ w' = w)
    /\ (filter_tags blacklist tags <> [] ->
        k <= 3
        /\ exists rest,
            new_events w w' = failed_attempts k dest ++ rest
            /\ (k = 3 ->
                rest = [] /\ r = Returned false
                /\ fs w' = fs w /\ tmpdirs w' = tmpdirs w /\ fresh w' = fresh w)
            /\ (k < 3 ->
                exists rest' w1 m w2,
                  rest = EvUnlink dest true :: rest'
                  /\ fs w1 = delete dest (fs w)
                  /\ tmpdirs w1 = tmpdirs w
                  /\ fresh w1 = fresh w
                  /\ trace w1 = trace w ++ failed_attempts k dest ++ [EvUnlink dest true]
                  /\ read_existing_metadata env image_file w1 = (m, w2)
                  /\ ((exists d, parent image_file = UserDir d) -> fs w2 !! dest = None)
                  /\ write_sidecar env image_file (filter_tags blacklist tags) w2
                     = (r, w'))).
Proof.
  intros env blacklist image_file tags format_type w c Hx He dest k.
  destruct (generate_sidecar env blacklist image_file tags format_type true w)
    as [r w'] eqn:Hrun.
  split.
  - intros Hnil. rewrite generate_sidecar_no_tags in Hrun by exact Hnil.
    now inversion Hrun.
  - intros Hne.
    destruct (filter_tags blacklist tags) as [|t ts] eqn:Hf; [congruence|].
    rewrite (generate_sidecar_overwrite_run env blacklist image_file tags
               format_type w c t ts Hf Hx He) in Hrun.
    pose proof (delete_attempts_run env dest c 3 w He) as Hdel.
    cbv zeta in Hdel. fold k in Hdel. fold dest in Hrun. rewrite Hdel in Hrun.
    split; [apply failures_le|].
    destruct (k <? 3)%nat eqn:Hk.
    + apply Nat.ltb_lt in Hk.
      set (w1 := mkWorld (delete dest (fs w)) (tmpdirs w) (fresh w) (clock w + k + 1)
                   (trace w ++ failed_attempts k dest ++ [EvUnlink dest true])) in *.
      destruct (read_then_write_grows env image_file (t :: ts) w1)
        as [(ext & Hext & _) _].
      rewrite Hrun in Hext. cbn [snd] in Hext.
      unfold mbind, M_bind in Hrun.
      destruct (read_existing_metadata env image_file w1) as [m w2] eqn:Hread.
      exists (EvUnlink dest true :: ext). split; [|split].
      * unfold new_events. rewrite Hext. cbn [trace w1].
        rewrite <- !app_assoc, drop_app_length. reflexivity.
      * intros ->. lia.
      * intros _. exists ext, w1, m, w2.
        split; [reflexivity|]. split; [reflexivity|]. split; [reflexivity|].
        split; [reflexivity|]. split; [reflexivity|]. split; [exact Hread|].
        split; [|exact Hrun].
        intros [d Hd].
        destruct (uf_read_existing_metadata env image_file w1) as [Huf _].
        rewrite Hread in Huf. cbn [snd] in Huf.
        rewrite (Huf dest d) by exact Hd.
        cbn [fs w1]. apply lookup_delete_eq.
    + apply Nat.ltb_ge in Hk. pose proof (failures_le (os_fails env) (clock w) 3).
      assert (k = 3) as Hk3 by (subst k; lia).
      inversion Hrun; subst r w'. exists []. split; [|split].
      * unfold new_events. simpl trace. rewrite drop_app_length, Hk3, app_nil_r.
        reflexivity.
      * intros _. simpl. now repeat split.
      * intros Hlt. lia.
Qed.

(** ** The loop of the batch thread *)

Lemma completed_consume (format_type : str) (total : nat)
    (r : Image * bool * option str) (st : RunState) :
  completed (consume format_type total r st) = S (completed st).
Proof.
  destruct r as [[image success] error]. unfold consume.
  destruct success; destruct (_ || _); simpl; lia.
Qed.

Lemma run_loop_fold (stop : option nat) (format_type : str) (total : nat)
    (results : list (Image * bool * option str)) (st : RunState) :
  run_loop stop format_type total results st
  = fold_left (fun st r => consume format_type total r st)
      (seen (option_map (fun k => k - completed st) stop) results) st.
Proof.
  revert st. induction results as [|r rs IH]; intros st.
  - destruct stop; simpl; [now rewrite take_nil | reflexivity].
  - simpl run_loop. destruct stop as [k|]; simpl.
    + destruct (k <=? completed st)%nat eqn:Hk.
      * apply Nat.leb_le in Hk. replace (k - completed st) with 0 by lia. reflexivity.
      * apply Nat.leb_gt in Hk. rewrite IH. simpl. rewrite completed_consume.
        replace (k - completed st) with (S (k - S (completed st))) by lia.
        reflexivity.
    + rewrite IH. reflexivity.
Qed.

(** What consuming a list of results does to the counters. *)
Lemma fold_consume_counts (format_type : str) (total : nat)
    (rs : list (Image * bool * option str)) (st : RunState) :
  let st' := fold_left (fun st r => consume format_type total r st) rs st in
  processed_count st' = processed_count st + length (List.filter success_of rs)
  /\ error_count st' = error_count st
                       + length (List.filter (fun r => negb (success_of r)) rs)
  /\ completed st' = completed st + length rs
  /\ successful_images st' = successful_images st
                             ++ map image_of (List.filter success_of rs).
Proof.
  revert st. induction rs as [|r rs IH]; intros st; simpl.
  - rewrite app_nil_r. repeat split; lia.
  - destruct (IH (consume format_type total r st)) as (Hp & He & Hc & Hs).
    rewrite Hp, He, Hc, Hs. clear IH Hp He Hc Hs.
    destruct r as [[image success] error]. unfold consume, success_of, image_of.
    destruct success; destruct (_ || _); simpl; rewrite <- ?app_assoc; simpl;
      repeat split; first [lia | reflexivity].
Qed.

Lemma filter_split_length {A} (f : A -> bool) (l : list A) :
  length (List.filter f l) + length (List.filter (fun x => negb (f x)) l) = length l.
Proof.
  induction l as [|x l IH]; simpl; [reflexivity|].
  destruct (f x); simpl; lia.
Qed.

Lemma consume_flush (format_type : str) (total : nat)
    (r : Image * bool * option str) (st : RunState) :
  flushes_at total (S (completed st)) = true ->
  exists b f,
    signals (consume format_type total r st)
    = signals st ++ [log_updated b; progress_updated (S (completed st)) f total]
    /\ log_batch (consume format_type total r st) = [].
Proof.
  intros H. destruct r as [[image success] error]. unfold consume.
  unfold flushes_at in H. cbv zeta.
  rewrite <- (Nat.add_1_r (completed st)) in H |- *.
  destruct success; cbv beta iota; rewrite H; simpl; eauto.
Qed.

Lemma consume_no_flush (format_type : str) (total : nat)
    (r : Image * bool * option str) (st : RunState) :
  flushes_at total (S (completed st)) = false ->
  signals (consume format_type total r st) = signals st.
Proof.
  intros H. destruct r as [[image success] error]. unfold consume.
  unfold flushes_at in H. cbv zeta.
  rewrite <- (Nat.add_1_r (completed st)) in H.
  destruct success; cbv beta iota; rewrite H; reflexivity.
Qed.

Lemma flush_counts_app_pair (s : list Signal) (b : list LogLine) (c : nat)
    (f : Name) (t : nat) :
  flush_counts (s ++ [log_updated b; progress_updated c f t]) = flush_counts s ++ [c].
Proof.
  induction s as [|x s IH]; [reflexivity|].
  destruct x; simpl; try exact IH.
  rewrite IH. destruct s as [|y s]; [reflexivity|].
  destruct y; reflexivity.
Qed.

Lemma progress_counts_app (s1 s2 : list Signal) :
  progress_counts (s1 ++ s2) = progress_counts s1 ++ progress_counts s2.
Proof.
  induction s1 as [|x s1 IH]; [reflexivity|].
  destruct x; simpl; now rewrite IH.
Qed.

(** The signals of the loop are flush signals, added in pairs exactly at the
    counts that pass the test; the log batch is empty right after a flush. *)
Lemma fold_consume_signals (format_type : str) (total : nat)
    (rs : list (Image * bool * option str)) (st : RunState) :
  let st' := fold_left (fun st r => consume format_type total r st) rs st in
  exists ext,
    signals st' = signals st ++ ext
    /\ forallb is_flush_signal ext = true
    /\ (forall s, flush_counts (s ++ ext)
                  = flush_counts s
                    ++ List.filter (flushes_at total) (seq (S (completed st)) (length rs)))
    /\ progress_counts ext
       = List.filter (flushes_at total) (seq (S (completed st)) (length rs))
    /\ length (List.filter is_log ext)
       = length (List.filter (flushes_at total) (seq (S (completed st)) (length rs)))
    /\ (rs <> [] -> flushes_at total (completed st') = true -> log_batch st' = []).
Proof.
  revert st. induction rs as [|r rs IH]; intros st.
  - exists []. simpl. rewrite app_nil_r. repeat split; try reflexivity.
    + intros s. now rewrite !app_nil_r.
    + congruence.
  - simpl fold_left.
    destruct (IH (consume format_type total r st))
      as (ext & Hsig & Hfl & Hfc & Hpc & Hlog & Hbatch).
    rewrite completed_consume in Hfc, Hpc, Hlog.
    simpl length. simpl seq. simpl List.filter.
    destruct (flushes_at total (S (completed st))) eqn:Hf.
    + destruct (consume_flush format_type total r st Hf) as (b & f & Hc & Hb).
      exists ([log_updated b; progress_updated (S (completed st)) f total] ++ ext).
      rewrite Hsig, Hc, <- app_assoc. split; [reflexivity|].
      split; [simpl; exact Hfl|].
      split; [|split; [|split]].
      * intros s. rewrite app_assoc, Hfc, flush_counts_app_pair, <- app_assoc.
        reflexivity.
      * simpl. now rewrite Hpc.
      * simpl. now rewrite Hlog.
      * intros _ Hlast. destruct rs as [|r' rs'].
        -- simpl. exact Hb.
        -- apply Hbatch; [discriminate | exact Hlast].
    + pose proof (consume_no_flush format_type total r st Hf) as Hc.
      exists ext. rewrite Hsig, Hc. split; [reflexivity|].
      split; [exact Hfl|].
      split; [exact Hfc|]. split; [exact Hpc|]. split; [exact Hlog|].
      intros _ Hlast. destruct rs as [|r' rs'].
      * simpl in Hlast. rewrite completed_consume in Hlast. congruence.
      * apply Hbatch; [discriminate | exact Hlast].
Qed.

(** ** The signals of a whole run *)

Lemma seen_from_zero (stop : option nat) (results : list (Image * bool * option str)) :
  seen (option_map (fun k => k - 0) stop) results = seen stop results.
Proof. destruct stop as [k|]; simpl; [now rewrite Nat.sub_0_r | reflexivity]. Qed.

Lemma summary_after_flushes (s1 s2 : list Signal) :
  forallb is_flush_signal s1 = true -> summary (s1 ++ s2) = summary s2.
Proof.
  induction s1 as [|x s1 IH]; [reflexivity|].
  simpl. intros H. apply andb_prop in H as [Hx H].
  destruct x; try discriminate; now apply IH.
Qed.

Lemma succeeded_after_flushes (s1 s2 : list Signal) :
  forallb is_flush_signal s1 = true -> succeeded (s1 ++ s2) = succeeded s2.
Proof.
  induction s1 as [|x s1 IH]; [reflexivity|].
  simpl. intros H. apply andb_prop in H as [Hx H].
  destruct x; try discriminate; now apply IH.
Qed.

Lemma flush_counts_tail (s t : list Signal) :
  forallb (fun x => negb (is_flush_signal x)) t = true ->
  flush_counts (s ++ t) = flush_counts s.
Proof.
  intros Ht.
  assert (Hnil : forall t', forallb (fun x => negb (is_flush_signal x)) t' = true ->
                            flush_counts t' = []).
  { induction t' as [|y t' IH]; [reflexivity|]. simpl. intros H.
    apply andb_prop in H as [Hy H]. destruct y; try discriminate; now apply IH. }
  induction s as [|x s IH]; simpl; [now apply Hnil|].
  destruct x; try exact IH. rewrite IH.
  destruct s as [|y s]; simpl; [|reflexivity].
  destruct t as [|y t]; [reflexivity|]. simpl in Ht.
  apply andb_prop in Ht as [Hy _]. now destruct y.
Qed.

Lemma progress_counts_tail (s t : list Signal) :
  forallb (fun x => negb (is_flush_signal x)) t = true ->
  progress_counts (s ++ t) = progress_counts s.
Proof.
  intros Ht. rewrite progress_counts_app.
  assert (progress_counts t = []) as ->; [|apply app_nil_r].
  induction t as [|y t IH]; [reflexivity|]. simpl in Ht.
  apply andb_prop in Ht as [Hy Ht]. destruct y; try discriminate; now apply IH.
Qed.

Lemma logs_tail (s t : list Signal) :
  forallb (fun x => negb (is_flush_signal x)) t = true ->
  List.filter is_log (s ++ t) = List.filter is_log s.
Proof.
  intros Ht. rewrite List.filter_app.
  assert (List.filter is_log t = []) as ->; [|apply app_nil_r].
  induction t as [|y t IH]; [reflexivity|]. simpl in Ht.
  apply andb_prop in Ht as [Hy Ht]. destruct y; try discriminate; now apply IH.
Qed.

(** The state in which the loop of [run] ends. *)
Lemma run_final_state (env : Env) (read_file : str -> FileRead)
    (files : list Image) (format_type : str) (overwrite : bool)
    (blacklist_file : option str) (custom : option (list str))
    (order : list (Image * World)) (stop : option nat) :
  let blacklist := _load_blacklist read_file blacklist_file custom in
  let results := map (process_single_image env blacklist format_type overwrite) order in
  exists st,
    st = fold_left (fun st r => consume format_type (length files) r st)
           (seen stop results) initial_run_state
    /\ run env read_file files format_type overwrite blacklist_file custom order stop
       = signals st
         ++ match successful_images st with
            | [] => []
            | imgs => [sidecars_generated imgs]
            end
         ++ match log_batch st with
            | [] => []
            | batch => [log_updated batch]
            end
         ++ [generation_finished (processed_count st) (error_count st)
               (match stop with Some _ => true | None => false end)].
Proof.
  intros blacklist results. eexists. split; [reflexivity|].
  unfold run. fold blacklist. fold results.
  rewrite run_loop_fold. change (completed initial_run_state) with 0.
  now rewrite seen_from_zero.
Qed.

Lemma run_summary (env : Env) (read_file : str -> FileRead)
    (files : list Image) (format_type : str) (overwrite : bool)
    (blacklist_file : option str) (custom : option (list str))
    (order : list (Image * World)) (stop : option nat) :
  let blacklist := _load_blacklist read_file blacklist_file custom in
  let results := map (process_single_image env blacklist format_type overwrite) order in
  let s := run env read_file files format_type overwrite blacklist_file custom order stop in
  summary s
  = Some (length (List.filter success_of (seen stop results)),
          length (List.filter (fun r => negb (success_of r)) (seen stop results)),
          match stop with Some _ => true | None => false end)
  /\ succeeded s = map image_of (List.filter success_of (seen stop results)).
Proof.
  intros blacklist results s.
  destruct (run_final_state env read_file files format_type overwrite blacklist_file
              custom order stop) as (st & Hst & Hrun).
  fold blacklist results in Hst. subst s. rewrite Hrun. clear Hrun.
  destruct (fold_consume_counts format_type (length files) (seen stop results)
              initial_run_state) as (Hp & He & _ & Hs).
  destruct (fold_consume_signals format_type (length files) (seen stop results)
              initial_run_state) as (ext & Hsig & Hfl & _).
  cbv zeta in Hp, He, Hs, Hsig. rewrite <- Hst in Hp, He, Hs, Hsig.
  simpl in Hp, He, Hs, Hsig. rewrite Hsig, Hp, He, Hs.
  rewrite summary_after_flushes, succeeded_after_flushes by exact Hfl.
  destruct (map image_of _) as [|i is']; destruct (log_batch st); simpl;
    rewrite ?app_nil_r; split; reflexivity.
Qed.

Lemma seen_length (stop : option nat) {A : Type} (order : list A)
    (results : list (Image * bool * option str)) :
  length results = length order ->
  length (seen stop results)
  = match stop with Some k => Nat.min k (length order) | None => length order end.
Proof.
  intros H. destruct stop as [k|]; simpl; [|exact H]. now rewrite length_take, H.
Qed.

(** An image with no tag, or none that passes the filter, is a failure of its
    worker, in whatever world it runs. *)
Lemma no_eligible_tag_fails (env : Env) (blacklist : gset str)
    (format_type : str) (overwrite : bool) (image : Image) (w : World) :
  filter_tags blacklist (tags image) = [] ->
  process_single_image env blacklist format_type overwrite (image, w)
  = (image, false, None).
Proof.
  intros H. unfold process_single_image.
  now rewrite generate_sidecar_no_tags by exact H.
Qed.

(** ** The claims *)

(** C1 (as amended): the counts reported by the terminal signal add up to the
    number of results the loop consumed before it saw the cancellation; when
    the reported [cancelled] is false that number is the batch size; the
    error count is the number of consumed results that are failures, and an
    image with no tag, or none that passes the filter, is such a failure. *)
Theorem counts_cover_consumed_results :
  forall (env : Env) (read_file : str -> FileRead) (files : list Image)
         (format_type : str) (overwrite : bool) (blacklist_file : option str)
         (custom : option (list str)) (order : list (Image * World))
         (stop : option nat),
    map fst order ≡ₚ files ->
    let blacklist := _load_blacklist read_file blacklist_file custom in
    let results := map (process_single_image env blacklist format_type overwrite) order in
    let s := run env read_file files format_type overwrite blacklist_file custom
               order stop in
    exists p e c,
      summary s = Some (p, e, c)
      /\ p + e = consumed stop order
      /\ (c = false -> p + e = length files)
      /\ p = length (List.filter success_of (seen stop results))
      /\ e = length (List.filter (fun r => negb (success_of r)) (seen stop results))
      /\ succeeded s = map image_of (List.filter success_of (seen stop results))
      /\ (forall image w,
             filter_tags blacklist (tags image) = [] ->
             process_single_image env blacklist format_type overwrite (image, w)
             = (image, false, None)).
Proof.
  intros env read_file files format_type overwrite blacklist_file custom order stop
         Hperm blacklist results s.
  destruct (run_summary env read_file files format_type overwrite blacklist_file
              custom order stop) as [Hsum Hsucc].
  fold blacklist results s in Hsum, Hsucc.
  assert (Hlen : length results = length order) by (subst results; apply length_map).
  assert (Hfiles : length order = length files).
  { rewrite <- (Permutation_length Hperm). now rewrite length_map. }
  assert (Hseen : length (List.filter success_of (seen stop results))
                  + length (List.filter (fun r => negb (success_of r)) (seen stop results))
                  = consumed stop order).
  { rewrite filter_split_length. unfold consumed.
    exact (seen_length stop order results Hlen). }
  eexists _, _, _. split; [exact Hsum|].
  split; [exact Hseen|]. split.
  { intros Hc. rewrite Hseen. destruct stop; [discriminate|]. exact Hfiles. }
  split; [reflexivity|]. split; [reflexivity|]. split; [exact Hsucc|].
  intros image w Hno. now apply no_eligible_tag_fails.
Qed.

Lemma counts_cover_consumed_results_witness :
  map fst [(bird, bird_world)] ≡ₚ [bird]
  /\ exists p e c,
       summary (run calm_env (fun _ => NotFound) [bird] "xmp" true None None
                  [(bird, bird_world)] None) = Some (p, e, c)
       /\ p + e = 1.
Proof.
  split; [reflexivity|].
  destruct (counts_cover_consumed_results calm_env (fun _ => NotFound) [bird] "xmp"
              true None None [(bird, bird_world)] None (Permutation_refl _))
    as (p & e & c & Hsum & Hpe & _).
  exists p, e, c. split; [exact Hsum | exact Hpe].
Defined.

(** C1, as stated, fails: [stop()] called after the only result was consumed
    gives [cancelled] true with the counts adding up to the batch size. *)
Lemma full_count_while_cancelled :
  ~ full_count_iff_not_cancelled
      (run calm_env (fun _ => NotFound) [bird] "xmp" true None None
         [(bird, bird_world)] (Some 1)) 1.
Proof.
  unfold full_count_iff_not_cancelled.
  assert (Hs : summary (run calm_env (fun _ => NotFound) [bird] "xmp" true None None
                          [(bird, bird_world)] (Some 1)) = Some (1, 0, true))
    by (vm_compute; reflexivity).
  rewrite Hs. intros [H _]. specialize (H eq_refl). discriminate.
Qed.

Lemma flush_points_last (n : nat) :
  0 < n -> exists rest, flush_points n = rest ++ [n].
Proof.
  intros Hpos. destruct n as [|m]; [lia|].
  unfold flush_points. rewrite seq_S, List.filter_app.
  change (1 + m) with (S m). simpl List.filter at 2.
  rewrite Nat.eqb_refl, orb_true_r. eauto.
Qed.

(** C5: in a run without cancellation the batched log signal and the progress
    signal are emitted together, exactly at the completion counts that are
    multiples of 50 and at the last one; there is no other log signal; a batch
    of 120 flushes at 50, 100 and 120. *)
Theorem flushes_at_multiples_of_50_and_last :
  forall (env : Env) (read_file : str -> FileRead) (files : list Image)
         (format_type : str) (overwrite : bool) (blacklist_file : option str)
         (custom : option (list str)) (order : list (Image * World)),
    map fst order ≡ₚ files ->
    let s := run env read_file files format_type overwrite blacklist_file custom
               order None in
    let n := length files in
    flush_counts s = flush_points n
    /\ progress_counts s = flush_points n
    /\ length (List.filter is_log s) = length (flush_points n)
    /\ (n = 120 -> flush_counts s = [50; 100; 120])
    /\ (0 < n -> exists rest, flush_points n = rest ++ [n]).
Proof.
  intros env read_file files format_type overwrite blacklist_file custom order Hperm s n.
  assert (Hfiles : length order = n).
  { subst n. rewrite <- (Permutation_length Hperm). now rewrite length_map. }
  destruct (run_final_state env read_file files format_type overwrite blacklist_file
              custom order None) as (st & Hst & Hrun).
  fold s in Hrun. simpl seen in Hst. fold n in Hst.
  set (results := map (process_single_image env
                         (_load_blacklist read_file blacklist_file custom)
                         format_type overwrite) order) in *.
  assert (Hlen : length results = n) by (subst results; now rewrite length_map).
  destruct (fold_consume_signals format_type n results initial_run_state)
    as (ext & Hsig & Hfl & Hfc & Hpc & Hlog & Hbatch).
  destruct (fold_consume_counts format_type n results initial_run_state)
    as (_ & _ & Hcompl & _).
  cbv zeta in Hsig, Hbatch, Hcompl. rewrite <- Hst in Hsig, Hbatch, Hcompl.
  simpl in Hsig, Hcompl. rewrite Hlen in Hfc, Hpc, Hlog, Hcompl.
  change (completed initial_run_state) with 0 in Hfc, Hpc, Hlog.
  assert (Hempty : log_batch st = []).
  { destruct results as [|r rs] eqn:Hres.
    - subst st. reflexivity.
    - apply Hbatch; [discriminate|]. rewrite Hcompl. unfold flushes_at.
      rewrite Nat.eqb_refl. apply orb_true_r. }
  rewrite Hempty, Hsig in Hrun. simpl in Hrun.
  assert (Htail : forallb (fun x => negb (is_flush_signal x))
                    (match successful_images st with
                     | [] => []
                     | imgs => [sidecars_generated imgs]
                     end ++ [generation_finished (processed_count st) (error_count st)
                               false]) = true)
    by (destruct (successful_images st); reflexivity).
  assert (Hfc' : flush_counts s = flush_points n).
  { rewrite Hrun, flush_counts_tail by exact Htail.
    specialize (Hfc []). simpl in Hfc. exact Hfc. }
  split; [exact Hfc'|]. split; [|split; [|split]].
  - rewrite Hrun, progress_counts_tail by exact Htail. exact Hpc.
  - rewrite Hrun, logs_tail by exact Htail. exact Hlog.
  - intros H120. rewrite Hfc', H120. reflexivity.
  - apply flush_points_last.
Qed.

Lemma flushes_at_multiples_of_50_and_last_witness :
  map fst (map (fun i => (i, bird_world)) (repeat bird 120)) ≡ₚ repeat bird 120
  /\ flush_counts
       (run calm_env (fun _ => NotFound) (repeat bird 120) "xmp" false None None
          (map (fun i => (i, bird_world)) (repeat bird 120)) None)
     = [50; 100; 120].
Proof.
  assert (H : map fst (map (fun i => (i, bird_world)) (repeat bird 120))
              ≡ₚ repeat bird 120)
    by (rewrite map_map, map_id; reflexivity).
  split; [exact H|].
  destruct (flushes_at_multiples_of_50_and_last calm_env (fun _ => NotFound)
              (repeat bird 120) "xmp" false None None
              (map (fun i => (i, bird_world)) (repeat bird 120)) H)
    as (_ & _ & _ & H120 & _).
  apply H120. apply repeat_length.
Defined.


(** C8 (as amended): a format whose lowercase form is not ["xmp"] is refused:
    [generate_sidecar] returns failure without starting the tool in write
    mode, and a whole batch run with such a format, not cancelled, reports
    no success and as many errors as there are images. *)
Theorem format_not_xmp_is_refused :
  forall (format_type : str),
    PyStr.lower format_type <> "xmp" ->
    (forall (env : Env) (blacklist : gset str) (image_file : Path)
            (tags : list str) (overwrite : bool) (w : World),
        let '(r, w') := generate_sidecar env blacklist image_file tags format_type
                          overwrite w in
        r = Returned false
        /\ Forall (fun e => match e with EvExifWrite _ _ _ _ => False | _ => True end)
             (new_events w w'))
    /\ (forall (env : Env) (read_file : str -> FileRead) (files : list Image)
               (overwrite : bool) (blacklist_file : option str)
               (custom : option (list str)) (order : list (Image * World)),
           map fst order ≡ₚ files ->
           summary (run env read_file files format_type overwrite blacklist_file
                      custom order None)
           = Some (0, length files, false)).
Proof.
  intros format_type Hx. split.
  - intros env blacklist image_file tags overwrite w.
    pose proof (generate_sidecar_unsupported env blacklist image_file tags format_type
                  overwrite w Hx) as H.
    destruct (generate_sidecar env blacklist image_file tags format_type overwrite w)
      as [r w']. destruct H as (Hr & _ & Hev). now split.
  - intros env read_file files overwrite blacklist_file custom order Hperm.
    destruct (run_summary env read_file files format_type overwrite blacklist_file
                custom order None) as [Hsum _].
    cbv zeta in Hsum. rewrite Hsum. clear Hsum. simpl seen.
    set (blacklist := _load_blacklist read_file blacklist_file custom).
    assert (Hall : forall job,
               success_of (process_single_image env blacklist format_type overwrite job)
               = false).
    { intros [image w]. unfold process_single_image.
      pose proof (generate_sidecar_unsupported env blacklist (path image) (tags image)
                    format_type overwrite w Hx) as H.
      destruct (generate_sidecar env blacklist (path image) (tags image) format_type
                  overwrite w) as [r w']. destruct H as (-> & _). reflexivity. }
    assert (Hlen : length order = length files).
    { rewrite <- (Permutation_length Hperm). now rewrite length_map. }
    rewrite <- Hlen. clear Hperm Hlen.
    induction order as [|job order IH]; [reflexivity|].
    simpl. rewrite (Hall job). simpl.
    injection IH as Hp He. now rewrite Hp, He.
Qed.

Lemma format_not_xmp_is_refused_witness :
  PyStr.lower "png" <> "xmp"
  /\ fst (generate_sidecar calm_env default_blacklist bird_jpg ["orange cat"] "png"
            true bird_world) = Returned false.
Proof.
  assert (H : PyStr.lower "png" <> "xmp") by (vm_compute; discriminate).
  split; [exact H|].
  pose proof (proj1 (format_not_xmp_is_refused "png" H) calm_env default_blacklist
                bird_jpg ["orange cat"] true bird_world) as Hr.
  destruct (generate_sidecar calm_env default_blacklist bird_jpg ["orange cat"] "png"
              true bird_world) as [r w']. exact (proj1 Hr).
Defined.

(** C8, as stated, fails: ["XMP"] is not the str ["xmp"], yet it is
    accepted and a sidecar is written. *)
Lemma uppercase_xmp_is_accepted : ~ other_formats_rejected.
Proof.
  intros H.
  specialize (H "XMP" ltac:(discriminate) calm_env default_blacklist bird_jpg
                ["orange cat"] true bird_world).
  vm_compute in H. discriminate.
Qed.

Lemma overwrite_deletes_first_three_attempts_witness :
  PyStr.lower "xmp" = "xmp"
  /\ fs bird_world !! sidecar_of bird_jpg = Some "old sidecar"
  /\ (let '(r, w') := generate_sidecar locked_env default_blacklist bird_jpg
                        ["orange cat"] "xmp" true bird_world in
      new_events bird_world w' = failed_attempts 3 (sidecar_of bird_jpg)
      /\ r = Returned false /\ fs w' = fs bird_world)
  /\ (let '(r, w') := generate_sidecar flaky_env default_blacklist bird_jpg
                        ["orange cat"] "xmp" true bird_world in
      exists rest' w1,
        new_events bird_world w'
        = failed_attempts 1 (sidecar_of bird_jpg)
          ++ EvUnlink (sidecar_of bird_jpg) true :: rest'
        /\ fs w1 = delete (sidecar_of bird_jpg) (fs bird_world)).
Proof.
  assert (Hx : PyStr.lower "xmp" = "xmp") by (vm_compute; reflexivity).
  assert (He : fs bird_world !! sidecar_of bird_jpg = Some "old sidecar")
    by (vm_compute; reflexivity).
  split; [exact Hx|]. split; [exact He|]. split.
  - pose proof (overwrite_deletes_first_three_attempts locked_env default_blacklist
                  bird_jpg ["orange cat"] "xmp" bird_world "old sidecar" Hx He) as H.
    cbv zeta in H.
    destruct (generate_sidecar locked_env default_blacklist bird_jpg
                ["orange cat"] "xmp" true bird_world) as [r w'].
    destruct H as [_ H].
    destruct H as (_ & rest & Hev & H3 & _); [vm_compute; discriminate|].
    destruct (H3 eq_refl) as (-> & Hr & Hfs & _).
    rewrite app_nil_r in Hev. now repeat split.
  - pose proof (overwrite_deletes_first_three_attempts flaky_env default_blacklist
                  bird_jpg ["orange cat"] "xmp" bird_world "old sidecar" Hx He) as H.
    cbv zeta in H.
    destruct (generate_sidecar flaky_env default_blacklist bird_jpg
                ["orange cat"] "xmp" true bird_world) as [r w'].
    destruct H as [_ H].
    destruct H as (_ & rest & Hev & _ & H1); [vm_compute; discriminate|].
    destruct (H1 ltac:(vm_compute; lia)) as (rest' & w1 & m & w2 & -> & Hfs & _).
    exists rest', w1. split; [exact Hev | exact Hfs].
Defined.

Lemma load_blacklist_union_or_disabled_witness :
  _load_blacklist (fun _ => Lines blacklist_file_lines) (Some "DISABLED")
    (Some ["Lens Flare"]) = ∅
  /\ "lens flare" ∈ _load_blacklist (fun _ => Lines blacklist_file_lines)
                      (Some "blacklist.txt") (Some [" Bokeh "]).
Proof.
  split.
  - exact (proj1 (load_blacklist_union_or_disabled
                    (fun _ => Lines blacklist_file_lines) (Some "DISABLED")
                    (Some ["Lens Flare"])) eq_refl).
  - apply (proj1 (proj2 (load_blacklist_union_or_disabled
                    (fun _ => Lines blacklist_file_lines) (Some "blacklist.txt")
                    (Some [" Bokeh "]))) ltac:(discriminate)).
    right. right. exists "Lens Flare
". split; [|split; [|split]].
    + simpl. apply list_elem_of_In. simpl. tauto.
    + vm_compute. discriminate.
    + reflexivity.
    + reflexivity.
Defined.

(** ** Face regions *)

(** A region line changes the first face record only: the records of the
    faces named later are never touched. *)
Lemma region_line_sets_first_record (fields : list (str * RegionKey)) (line : str)
    (n : str) (r : FaceRegion) (rest : list (str * FaceRegion)) :
  exists r', region_field_chain fields line ((n, r) :: rest) = (n, r') :: rest.
Proof.
  induction fields as [|[field key] fields IH]; simpl; [eauto|].
  destruct (PyStr.contains field line); [|exact IH].
  destruct (Re.search_field field line); simpl; eauto.
Qed.

(** C2 fails on the code: after the names Alice and then Bob, the rectangle
    line is attached to Alice, the first name seen, and Bob, the most recent
    one, gets nothing. *)
Theorem rectangle_goes_to_first_face :
  faces (parse_lines two_faces_lines) = ["Alice"; "Bob"]
  /\ face_regions (parse_lines two_faces_lines)
     = [ set_key KRectangle "0.5, 0.4, 0.1, 0.2" (new_region "Alice");
         new_region "Bob" ].
Proof. split; vm_compute; reflexivity. Qed.

(** ** Existing sidecars when [overwrite] is off *)

(** C4 fails on the code: with [overwrite] off and a file name that needs the
    Unicode-safe copy, the existing sidecar is deleted and the tool's output
    moved in its place, and the call reports success; with a plain name the
    same call leaves the sidecar as it was. *)
Theorem existing_sidecar_replaced_despite_no_overwrite :
  _has_unicode_surrogates (name camera_jpg) = true
  /\ (let '(r, w') := generate_sidecar calm_env default_blacklist camera_jpg
                        ["orange cat"] "xmp" false camera_world in
      r = Returned true
      /\ fs camera_world !! sidecar_of camera_jpg = Some "old sidecar"
      /\ fs w' !! sidecar_of camera_jpg = Some "new sidecar"
      /\ EvUnlink (sidecar_of camera_jpg) true ∈ new_events camera_world w')
  /\ (let '(r, w') := generate_sidecar calm_env default_blacklist bird_jpg
                        ["orange cat"] "xmp" false bird_world in
      r = Returned false
      /\ fs w' !! sidecar_of bird_jpg = Some "old sidecar").
Proof.
  split; [vm_compute; reflexivity|]. split.
  - destruct (generate_sidecar calm_env default_blacklist camera_jpg
                ["orange cat"] "xmp" false camera_world) as [r w'] eqn:Hrun.
    vm_compute in Hrun. inversion Hrun; subst r w'. clear Hrun.
    split; [reflexivity|]. split; [vm_compute; reflexivity|].
    split; [vm_compute; reflexivity|].
    apply list_elem_of_In. vm_compute. tauto.
  - destruct (generate_sidecar calm_env default_blacklist bird_jpg
                ["orange cat"] "xmp" false bird_world) as [r w'] eqn:Hrun.
    vm_compute in Hrun. inversion Hrun; subst r w'. clear Hrun.
    split; [reflexivity | vm_compute; reflexivity].
Qed.


(** * Further properties of the code *)

(** ** More on strings *)

Module LowerFacts.
Import PyStr UnicodeChecks.

Local Open Scope Z_scope.

Lemma settled_lower_char (x : Z) :
  settled x = true -> lower_char x = [x] /\ x <> 0x3A3.
Proof.
  unfold settled, lower_char. intros H. apply andb_prop in H as [H1 H2].
  apply negb_true_iff, Z.eqb_neq in H1.
  destruct (Unicode.mapped x Unicode.lowercase_mapping); [discriminate|].
  now split.
Qed.

(** What a character becomes is made of characters that are left alone. *)
Lemma lower_char_settled (c : Z) :
  c <> 0x3A3 -> forallb settled (lower_char c) = true.
Proof.
  intros Hc. unfold lower_char.
  destruct (Unicode.mapped c Unicode.lowercase_mapping) as [v|] eqn:Hm.
  - apply UnicodeFacts.mapped_ok in Hm. unfold entry_ok in Hm. cbn [fst snd] in Hm.
    apply andb_prop in Hm as [_ Hall].
    apply forallb_forall. intros x Hx.
    apply (proj1 (forallb_forall _ _) Hall) in Hx. now apply andb_prop in Hx as [_ ?].
  - cbn [forallb]. unfold settled. rewrite Hm.
    apply Z.eqb_neq in Hc. now rewrite Hc.
Qed.

(** What a character that is no whitespace becomes is not empty and holds
    no whitespace. *)
Lemma lower_char_no_space (c : Z) :
  is_space c = false ->
  lower_char c <> [] /\ forallb (fun x => negb (is_space x)) (lower_char c) = true.
Proof.
  intros Hc. unfold lower_char.
  destruct (Unicode.mapped c Unicode.lowercase_mapping) as [v|] eqn:Hm.
  - apply UnicodeFacts.mapped_ok in Hm. unfold entry_ok in Hm. cbn [fst snd] in Hm.
    apply andb_prop in Hm as [Hm Hall]. apply andb_prop in Hm as [_ Hne].
    split; [now destruct v|].
    apply forallb_forall. intros x Hx.
    apply (proj1 (forallb_forall _ _) Hall) in Hx. now apply andb_prop in Hx as [? _].
  - split; [discriminate|]. cbn [forallb]. now rewrite Hc.
Qed.

Lemma lower_from_cons (b : bool) (c : Z) (s : str) :
  lower_from b (c :: s)
  = step_output b c s
    ++ lower_from (if is_case_ignorable c then b else is_cased c) s.
Proof. reflexivity. Qed.

Lemma step_output_settled (b : bool) (c : Z) (s : str) :
  forallb settled (step_output b c s) = true.
Proof.
  unfold step_output. destruct (c =? 0x3A3) eqn:E.
  - now destruct (final_sigma b s).
  - apply lower_char_settled. now apply Z.eqb_neq.
Qed.

Lemma step_output_no_space (b : bool) (c : Z) (s : str) :
  is_space c = false ->
  step_output b c s <> []
  /\ forallb (fun x => negb (is_space x)) (step_output b c s) = true.
Proof.
  intros Hc. unfold step_output. destruct (c =? 0x3A3) eqn:E.
  - split; [discriminate|]. now destruct (final_sigma b s).
  - now apply lower_char_no_space.
Qed.

Lemma step_output_space (b : bool) (c : Z) (s : str) :
  is_space c = true ->
  step_output b c s = [c] /\ is_case_ignorable c = false /\ is_cased c = false.
Proof.
  intros Hc. apply UnicodeFacts.is_space_ok in Hc. unfold space_ok in Hc.
  apply andb_prop in Hc as [Hc Hs]. apply andb_prop in Hc as [Hc Hi].
  apply andb_prop in Hc as [_ Hcased].
  apply negb_true_iff in Hi, Hcased.
  apply settled_lower_char in Hs as [Hl Hne].
  unfold step_output. apply Z.eqb_neq in Hne. rewrite Hne. now repeat split.
Qed.

Lemma lower_from_settled (b : bool) (s : str) :
  forallb settled (lower_from b s) = true.
Proof.
  revert b. induction s as [|c s IH]; intros b; [reflexivity|].
  rewrite lower_from_cons, forallb_app, step_output_settled, IH. reflexivity.
Qed.

Lemma lower_from_of_settled (b : bool) (s : str) :
  forallb settled s = true -> lower_from b s = s.
Proof.
  revert b. induction s as [|c s IH]; intros b H; [reflexivity|].
  cbn [forallb] in H. apply andb_prop in H as [Hc Hs].
  apply settled_lower_char in Hc as [Hl Hne].
  rewrite lower_from_cons. unfold step_output.
  apply Z.eqb_neq in Hne. rewrite Hne, Hl, IH by exact Hs. reflexivity.
Qed.

Lemma lower_from_nil (b : bool) (s : str) : lower_from b s = [] <-> s = [].
Proof.
  split; [|intros ->; reflexivity].
  destruct s as [|c s]; [reflexivity|]. rewrite lower_from_cons. intros H.
  apply app_eq_nil in H as [H _]. exfalso. revert H.
  unfold step_output. destruct (c =? 0x3A3); [discriminate|].
  unfold lower_char.
  destruct (Unicode.mapped c Unicode.lowercase_mapping) as [v|] eqn:Hm;
    [|discriminate].
  apply UnicodeFacts.mapped_ok in Hm. unfold entry_ok in Hm. cbn [fst snd] in Hm.
  apply andb_prop in Hm as [Hm _]. apply andb_prop in Hm as [_ Hne].
  now destruct v.
Qed.

(** Whitespace at the start is passed through and tells nothing about case. *)
Lemma lower_from_space (b : bool) (c : Z) (s : str) :
  is_space c = true -> lower_from b (c :: s) = c :: lower_from false s.
Proof.
  intros Hc. rewrite lower_from_cons.
  destruct (step_output_space b c s Hc) as (-> & -> & ->). reflexivity.
Qed.

Lemma lower_from_all_space (b : bool) (s : str) :
  all_space s = true -> lower_from b s = s.
Proof.
  revert b. induction s as [|c s IH]; intros b H; [reflexivity|].
  cbn [all_space] in H. apply andb_prop in H as [Hc Hs].
  rewrite (lower_from_space b c s Hc), IH by exact Hs. reflexivity.
Qed.

Lemma skip_ignorable_space (ws : str) :
  all_space ws = true ->
  match skip_ignorable ws with [] => true | c :: _ => negb (is_cased c) end = true.
Proof.
  destruct ws as [|c ws]; [reflexivity|]. cbn [all_space skip_ignorable].
  intros H. apply andb_prop in H as [Hc _].
  destruct (step_output_space false c [] Hc) as (_ & -> & ->). reflexivity.
Qed.

(** Whitespace after a capital sigma ends the word as the end of the string
    does. *)
Lemma final_sigma_app_space (b : bool) (s ws : str) :
  all_space ws = true -> final_sigma b (s ++ ws) = final_sigma b s.
Proof.
  intros Hw. unfold final_sigma. f_equal.
  induction s as [|c s IH].
  - cbn [app skip_ignorable]. now apply skip_ignorable_space.
  - cbn [app skip_ignorable]. destruct (is_case_ignorable c); [exact IH | reflexivity].
Qed.

Lemma lower_from_app_space (b : bool) (s ws : str) :
  all_space ws = true -> lower_from b (s ++ ws) = lower_from b s ++ ws.
Proof.
  intros Hw. revert b. induction s as [|c s IH]; intros b.
  - cbn [app]. now apply lower_from_all_space.
  - rewrite <- app_comm_cons, !lower_from_cons, IH, app_assoc. f_equal.
    unfold step_output. now rewrite final_sigma_app_space.
Qed.

End LowerFacts.

Module StripFacts.
Import PyStr.

Lemma rstrip_cons (c : Z) (s : str) :
  rstrip (c :: s)
  = match rstrip s with
    | [] => if is_space c then [] else [c]
    | r => c :: r
    end.
Proof. reflexivity. Qed.

Lemma rstrip_all_space (s : str) : all_space s = true -> rstrip s = [].
Proof.
  induction s as [|c s IH]; [reflexivity|]. cbn [all_space]. intros H.
  apply andb_prop in H as [Hc Hs]. now rewrite rstrip_cons, IH, Hc.
Qed.

Lemma rstrip_nil (s : str) : rstrip s = [] -> all_space s = true.
Proof.
  induction s as [|c s IH]; [reflexivity|]. rewrite rstrip_cons.
  destruct (rstrip s) as [|a r]; [|discriminate].
  destruct (is_space c) eqn:Hc; [|discriminate].
  intros _. cbn [all_space]. now rewrite Hc, IH.
Qed.

(** What [rstrip] removes is whitespace at the end. *)
Lemma rstrip_split (s : str) :
  exists ws, s = rstrip s ++ ws /\ all_space ws = true.
Proof.
  induction s as [|c s (ws & Hs & Hw)]; [now exists []|].
  rewrite rstrip_cons. destruct (rstrip s) as [|a r] eqn:Hr.
  - destruct (is_space c) eqn:Hc.
    + exists (c :: s). split; [reflexivity|]. cbn [all_space].
      rewrite Hc. apply rstrip_nil, Hr.
    + exists s. split; [reflexivity|]. apply rstrip_nil, Hr.
  - exists ws. split; [|exact Hw]. cbn [app]. now rewrite Hs at 1.
Qed.

Lemma rstrip_app_space (s ws : str) :
  all_space ws = true -> rstrip (s ++ ws) = rstrip s.
Proof.
  intros Hw. induction s as [|c s IH]; [now apply rstrip_all_space|].
  cbn [app]. now rewrite !rstrip_cons, IH.
Qed.

Lemma rstrip_app_kept (a s : str) : rstrip s <> [] -> rstrip (a ++ s) = a ++ rstrip s.
Proof.
  intros Hs. induction a as [|c a IH]; [reflexivity|].
  cbn [app]. rewrite rstrip_cons, IH.
  destruct (a ++ rstrip s) as [|x r] eqn:E; [|reflexivity].
  apply app_eq_nil in E as [_ E]. contradiction.
Qed.

Lemma rstrip_no_space (s : str) :
  forallb (fun x => negb (is_space x)) s = true -> rstrip s = s.
Proof.
  induction s as [|c s IH]; [reflexivity|]. cbn [forallb]. intros H.
  apply andb_prop in H as [Hc Hs]. apply negb_true_iff in Hc.
  rewrite rstrip_cons, IH by exact Hs. destruct s; [now rewrite Hc | reflexivity].
Qed.

Lemma rstrip_idem (s : str) : rstrip (rstrip s) = rstrip s.
Proof.
  induction s as [|c s IH]; [reflexivity|]. rewrite rstrip_cons.
  destruct (rstrip s) as [|a r] eqn:Hr.
  - destruct (is_space c) eqn:Hc; [reflexivity|]. cbn [rstrip]. now rewrite Hc.
  - rewrite rstrip_cons, IH. reflexivity.
Qed.

Lemma rstrip_keeps_head (c : Z) (r : str) :
  is_space c = false -> exists r', rstrip (c :: r) = c :: r'.
Proof.
  intros Hc. rewrite rstrip_cons. destruct (rstrip r); [rewrite Hc|]; eauto.
Qed.

End StripFacts.

Module LowerStripFacts.
Import PyStr UnicodeChecks LowerFacts StripFacts.

(** Lowercasing keeps a string trimmed at its end. *)
Lemma rstrip_lower_from (b : bool) (u : str) :
  rstrip u = u -> rstrip (lower_from b u) = lower_from b u.
Proof.
  revert b. induction u as [|c u IH]; intros b Hu; [reflexivity|].
  rewrite rstrip_cons in Hu. rewrite lower_from_cons.
  destruct (rstrip u) as [|a r] eqn:Hr.
  - destruct (is_space c) eqn:Hc; [discriminate|].
    injection Hu as <-. cbn [lower_from]. rewrite app_nil_r.
    apply rstrip_no_space. now apply step_output_no_space.
  - injection Hu as Hu. rewrite <- Hu in *.
    assert (Hne : rstrip (lower_from (if is_case_ignorable c then b else is_cased c)
                            (a :: r)) <> []).
    { rewrite IH by reflexivity. intros H. apply lower_from_nil in H. discriminate. }
    rewrite rstrip_app_kept by exact Hne. now rewrite IH.
Qed.

Lemma lower_rstrip (s : str) : lower (rstrip s) = rstrip (lower s).
Proof.
  destruct (rstrip_split s) as (ws & Hs & Hw). unfold lower.
  rewrite Hs at 2. rewrite lower_from_app_space, rstrip_app_space by exact Hw.
  symmetry. apply rstrip_lower_from, rstrip_idem.
Qed.

Lemma lower_lstrip (s : str) : lower (lstrip s) = lstrip (lower s).
Proof.
  unfold lower. induction s as [|c s IH]; [reflexivity|].
  cbn [lstrip]. destruct (is_space c) eqn:Hc.
  - rewrite (lower_from_space false c s Hc). cbn [lstrip]. now rewrite Hc.
  - rewrite lower_from_cons.
    destruct (step_output_no_space false c s Hc) as [Hne Hall].
    destruct (step_output false c s) as [|x v]; [contradiction|].
    cbn [forallb] in Hall. apply andb_prop in Hall as [Hx _].
    apply negb_true_iff in Hx. cbn [app lstrip]. now rewrite Hx.
Qed.

End LowerStripFacts.

Lemma lower_idem (s : str) : PyStr.lower (PyStr.lower s) = PyStr.lower s.
Proof.
  unfold PyStr.lower at 1.
  apply LowerFacts.lower_from_of_settled, LowerFacts.lower_from_settled.
Qed.

(** Lowercasing and trimming commute. *)
Lemma lower_strip (s : str) :
  PyStr.lower (PyStr.strip s) = PyStr.strip (PyStr.lower s).
Proof.
  unfold PyStr.strip.
  now rewrite LowerStripFacts.lower_rstrip, LowerStripFacts.lower_lstrip.
Qed.

Lemma strip_head (s : str) :
  PyStr.strip s = []
  \/ exists c r, PyStr.strip s = c :: r /\ PyStr.is_space c = false.
Proof.
  unfold PyStr.strip. destruct (PyStr.all_space s) eqn:Hs.
  - left. now rewrite (PyStrFacts.lstrip_all_space s Hs).
  - right. destruct (PyStrFacts.lstrip_head s Hs) as (c & r & -> & Hc).
    destruct (StripFacts.rstrip_keeps_head c r Hc) as [r' ->]. eauto.
Qed.

Lemma strip_idem (s : str) : PyStr.strip (PyStr.strip s) = PyStr.strip s.
Proof.
  destruct (strip_head s) as [H | (c & r & H & Hc)].
  - now rewrite H.
  - unfold PyStr.strip at 1. rewrite H. cbn [PyStr.lstrip]. rewrite Hc.
    rewrite <- H. unfold PyStr.strip. apply StripFacts.rstrip_idem.
Qed.

Lemma lower_empty (s : str) : PyStr.lower s = [] <-> s = [].
Proof. apply LowerFacts.lower_from_nil. Qed.

(** The form in which the filter looks a tag up is a fixed point of
    lowercasing and of trimming. *)
Lemma normal_form (t : str) :
  PyStr.lower (PyStr.lower (PyStr.strip t)) = PyStr.lower (PyStr.strip t)
  /\ PyStr.strip (PyStr.lower (PyStr.strip t)) = PyStr.lower (PyStr.strip t).
Proof.
  split; [apply lower_idem|]. now rewrite <- lower_strip, strip_idem.
Qed.

(** ** More on the tag filter and the blacklist *)

Lemma filter_filter_same {A} (f : A -> bool) (l : list A) :
  List.filter f (List.filter f l) = List.filter f l.
Proof.
  induction l as [|x l IH]; simpl; [reflexivity|].
  destruct (f x) eqn:Hx; simpl; [now rewrite Hx, IH | exact IH].
Qed.

(** X1: filtering is idempotent: a list that went through [filter_tags] is
    left as it is by a second pass with the same blacklist. *)
Theorem filter_tags_idempotent :
  forall (blacklist : gset str) (tags : list str),
    filter_tags blacklist (filter_tags blacklist tags) = filter_tags blacklist tags.
Proof.
  intros blacklist tags. rewrite !filter_tags_filter. apply filter_filter_same.
Qed.

Lemma keeps_mono (b1 b2 : gset str) (t : str) :
  b1 ⊆ b2 -> keeps b2 t = true -> keeps b1 t = true.
Proof.
  unfold keeps. intros Hsub H. apply andb_prop in H as [H1 H2].
  rewrite H1. simpl. apply bool_decide_eq_true in H2.
  apply bool_decide_eq_true. intros Hin. apply H2, Hsub, Hin.
Qed.

(** X2: [filter_tags] works tag by tag: the result for a concatenation is
    the concatenation of the results; and a larger blacklist never lets more
    through: its result is what it keeps of the smaller blacklist's result. *)
Theorem filter_tags_compose :
  forall (b1 b2 : gset str) (tags1 tags2 : list str),
    filter_tags b1 (tags1 ++ tags2) = filter_tags b1 tags1 ++ filter_tags b1 tags2
    /\ (b1 ⊆ b2 ->
        filter_tags b2 tags1 = filter_tags b2 (filter_tags b1 tags1)
        /\ filter_tags b2 tags1 `sublist_of` filter_tags b1 tags1).
Proof.
  intros b1 b2 tags1 tags2. split.
  - rewrite !filter_tags_filter. apply List.filter_app.
  - intros Hsub.
    assert (H : filter_tags b2 tags1 = filter_tags b2 (filter_tags b1 tags1)).
    { rewrite !filter_tags_filter. induction tags1 as [|t ts IH]; [reflexivity|].
      simpl. destruct (keeps b2 t) eqn:H2.
      - rewrite (keeps_mono b1 b2 t Hsub H2). simpl. now rewrite H2, IH.
      - destruct (keeps b1 t); simpl; [now rewrite H2|]; exact IH. }
    split; [exact H|]. rewrite H at 1. rewrite (filter_tags_filter b2).
    apply filter_sublist.
Qed.

Lemma filter_tags_compose_witness :
  default_blacklist ⊆ default_blacklist ∪ {["cat"]}
  /\ filter_tags (default_blacklist ∪ {["cat"]}) ["Cat"; "dog"; "blurry"]
     `sublist_of` filter_tags default_blacklist ["Cat"; "dog"; "blurry"].
Proof.
  assert (H : default_blacklist ⊆ default_blacklist ∪ {["cat"]})
    by apply union_subseteq_l.
  split; [exact H|].
  exact (proj2 (proj2 (filter_tags_compose default_blacklist
                         (default_blacklist ∪ {["cat"]})
                         ["Cat"; "dog"; "blurry"] []) H)).
Defined.

Lemma default_entries_normal :
  Forall (fun x => PyStr.lower x = x /\ PyStr.strip x = x /\ x <> [])
    default_blacklist_list.
Proof.
  unfold default_blacklist_list.
  repeat (constructor;
            [split; [vm_compute; reflexivity
                    | split; [vm_compute; reflexivity | discriminate]]|]).
  constructor.
Qed.

Lemma load_blacklist_elem (read_file : str -> FileRead)
    (blacklist_file : option str) (custom : option (list str)) (x : str) :
  x ∈ _load_blacklist read_file blacklist_file custom ->
  x ∈ default_blacklist_list
  \/ exists t, PyStr.strip t <> [] /\ x = PyStr.lower (PyStr.strip t).
Proof.
  destruct (decide (blacklist_file = Some "DISABLED")) as [-> | Hne].
  - intros H. unfold _load_blacklist in H. simpl in H. set_solver.
  - rewrite (load_blacklist_enabled _ _ _ Hne).
    rewrite !elem_of_union, elem_of_custom_tags, elem_of_file_blacklist.
    unfold default_blacklist. rewrite elem_of_list_to_set.
    intros [[H | (t & _ & Ht & ->)] | (l & _ & Hl & _ & ->)]; eauto.
Qed.

(** X3: every entry of a loaded blacklist is in the form the filter looks
    tags up in (lowercase, trimmed, not empty), so every entry is effective:
    a tag equal to it is removed. *)
Theorem blacklist_entries_normal_and_effective :
  forall (read_file : str -> FileRead) (blacklist_file : option str)
         (custom : option (list str)) (x : str),
    x ∈ _load_blacklist read_file blacklist_file custom ->
    PyStr.lower x = x /\ PyStr.strip x = x /\ x <> []
    /\ filter_tags (_load_blacklist read_file blacklist_file custom) [x] = [].
Proof.
  intros read_file blacklist_file custom x Hin.
  assert (Hn : PyStr.lower x = x /\ PyStr.strip x = x /\ x <> []).
  { destruct (load_blacklist_elem _ _ _ _ Hin) as [Hd | (t & Ht & ->)].
    - pose proof default_entries_normal as Hall.
      rewrite Forall_forall in Hall. apply Hall. exact Hd.
    - destruct (normal_form t) as [Hl Hs]. split; [exact Hl|].
      split; [exact Hs|]. intros He. apply Ht. now apply lower_empty. }
  destruct Hn as (Hl & Hs & Hne). repeat split; try assumption.
  rewrite filter_tags_filter. simpl. unfold keeps. rewrite Hl, Hs.
  rewrite (bool_decide_eq_false_2 _ (fun H => H Hin)).
  now rewrite andb_false_r.
Qed.

Lemma blacklist_entries_normal_and_effective_witness :
  "lens flare" ∈ _load_blacklist (fun _ => Lines blacklist_file_lines)
                   (Some "blacklist.txt") None
  /\ filter_tags (_load_blacklist (fun _ => Lines blacklist_file_lines)
                    (Some "blacklist.txt") None) ["lens flare"] = [].
Proof.
  assert (H : "lens flare" ∈ _load_blacklist (fun _ => Lines blacklist_file_lines)
                               (Some "blacklist.txt") None).
  { rewrite load_blacklist_enabled by discriminate.
    apply elem_of_union_r, elem_of_file_blacklist.
    exists "Lens Flare
". split; [|split; [|split]]; try reflexivity.
    - apply list_elem_of_In. simpl. tauto.
    - vm_compute. discriminate. }
  split; [exact H|].
  exact (proj2 (proj2 (proj2 (blacklist_entries_normal_and_effective _ _ _ _ H)))).
Defined.

(** X4: a custom blacklist entry works whatever its case and padding, and
    whatever the case and padding of the tag: unless blacklisting is disabled,
    a tag whose lowercased, trimmed form equals that of a non-blank custom
    entry never passes the filter. *)
Theorem custom_entry_blocks_case_insensitively :
  forall (read_file : str -> FileRead) (blacklist_file : option str)
         (custom : list str) (entry tag : str) (tags : list str),
    blacklist_file <> Some "DISABLED" ->
    entry ∈ custom ->
    PyStr.strip (PyStr.lower tag) = PyStr.strip (PyStr.lower entry) ->
    tag ∉ filter_tags (_load_blacklist read_file blacklist_file (Some custom)) tags.
Proof.
  intros read_file blacklist_file custom entry tag tags Hne Hin Heq Htag.
  apply elem_of_filter_tags in Htag as [_ Hk].
  apply keeps_not_blacklisted in Hk as [Hnb Hnot]. apply Hnot.
  rewrite (load_blacklist_enabled _ _ _ Hne). apply elem_of_union_l, elem_of_union_r.
  apply elem_of_custom_tags. exists entry. simpl. split; [exact Hin|].
  rewrite Heq, <- lower_strip in *. split; [|reflexivity].
  intros He. apply Hnb. now rewrite He.
Qed.

Lemma custom_entry_blocks_case_insensitively_witness :
  (None : option str) <> Some "DISABLED"
  /\ " Lens Flare " ∈ [" Lens Flare "]
  /\ "LENS FLARE" ∉ filter_tags
       (_load_blacklist (fun _ => NotFound) None (Some [" Lens Flare "]))
       ["LENS FLARE"; "tree"].
Proof.
  assert (H1 : (None : option str) <> Some "DISABLED") by discriminate.
  assert (H2 : " Lens Flare " ∈ [" Lens Flare "]) by apply list_elem_of_here.
  split; [exact H1|]. split; [exact H2|].
  exact (custom_entry_blocks_case_insensitively (fun _ => NotFound) None
           [" Lens Flare "] " Lens Flare " "LENS FLARE" ["LENS FLARE"; "tree"]
           H1 H2 ltac:(vm_compute; reflexivity)).
Defined.

(** X5: loading fails open: when the blacklist file is missing or cannot be
    read, the blacklist is the built-in one with the custom tags, as if no
    file had been named; and unless disabled the built-in entries are always
    part of it. *)
Theorem load_blacklist_fails_open :
  forall (read_file : str -> FileRead) (path : str)
         (custom : option (list str)),
    path <> "DISABLED" ->
    (read_file path = NotFound \/ read_file path = ReadError ->
     _load_blacklist read_file (Some path) custom
     = _load_blacklist read_file None custom)
    /\ default_blacklist ⊆ _load_blacklist read_file (Some path) custom
    /\ default_blacklist ⊆ _load_blacklist read_file None custom.
Proof.
  intros read_file path custom Hp.
  assert (Hne : Some path <> Some "DISABLED") by congruence.
  split; [|split].
  - intros Hr. rewrite !load_blacklist_enabled by (exact Hne || discriminate).
    f_equal. unfold file_lines. destruct path as [|c p]; [reflexivity|].
    now destruct Hr as [-> | ->].
  - rewrite load_blacklist_enabled by exact Hne.
    etrans; [|apply union_subseteq_l]. apply union_subseteq_l.
  - rewrite load_blacklist_enabled by discriminate.
    etrans; [|apply union_subseteq_l]. apply union_subseteq_l.
Qed.

Lemma load_blacklist_fails_open_witness :
  "gone.txt" <> "DISABLED"
  /\ _load_blacklist (fun _ => NotFound) (Some "gone.txt") (Some ["Bokeh"])
     = _load_blacklist (fun _ => NotFound) None (Some ["Bokeh"]).
Proof.
  assert (H : "gone.txt" <> "DISABLED") by discriminate.
  split; [exact H|].
  exact (proj1 (load_blacklist_fails_open (fun _ => NotFound) "gone.txt"
                  (Some ["Bokeh"]) H) (or_introl eq_refl)).
Defined.


(** ** File names that need the safe copy *)

Lemma has_unicode_app (a b : Name) :
  _has_unicode_surrogates (a ++ b)
  = _has_unicode_surrogates a || _has_unicode_surrogates b.
Proof.
  unfold _has_unicode_surrogates. rewrite !existsb_app.
  repeat match goal with |- context [existsb ?f ?l] =>
    let x := fresh "x" in set (x := existsb f l) end.
  repeat match goal with x : bool |- _ => destruct x end; reflexivity.
Qed.

Lemma has_unicode_low (n : Name) :
  Forall (fun c => (c < 0x2600)%Z) n -> _has_unicode_surrogates n = false.
Proof.
  intros H. unfold _has_unicode_surrogates.
  apply orb_false_intro; apply not_true_is_false; intros Hex;
    apply existsb_exists in Hex as (c & Hin & Hc);
    rewrite Forall_forall in H; apply list_elem_of_In in Hin; specialize (H c Hin);
    unfold in_range in Hc; lia.
Qed.

(** X6: whether a name needs the safe copy is decided code point by code
    point: a concatenation needs it exactly when one of its parts does, and
    a name made of code points below U+2600 (all of ASCII) never does. *)
Theorem unicode_check_by_code_point :
  forall (a b : Name),
    _has_unicode_surrogates (a ++ b)
    = _has_unicode_surrogates a || _has_unicode_surrogates b
    /\ (Forall (fun c => (c < 0x2600)%Z) a -> _has_unicode_surrogates a = false).
Proof.
  intros a b. split; [apply has_unicode_app | apply has_unicode_low].
Qed.

Lemma unicode_check_by_code_point_witness :
  Forall (fun c => (c < 0x2600)%Z) "bird.jpg"
  /\ _has_unicode_surrogates "bird.jpg" = false.
Proof.
  assert (H : Forall (fun c => (c < 0x2600)%Z) "bird.jpg")
    by (repeat constructor).
  split; [exact H|].
  exact (proj2 (unicode_check_by_code_point "bird.jpg" []) H).
Defined.

Lemma name_stem_suffix (p : Path) : name p = stem p ++ suffix p.
Proof.
  unfold stem, suffix. destruct (cut_point (name p)) as [i|].
  - symmetry. apply take_drop.
  - now rewrite app_nil_r.
Qed.

Lemma sidecar_check_is_stem_check (image_file : Path) :
  _has_unicode_surrogates (name (sidecar_of image_file))
  = _has_unicode_surrogates (stem image_file).
Proof. simpl. rewrite has_unicode_app. apply orb_false_r. Qed.

Lemma stem_unsafe_name_unsafe (image_file : Path) :
  _has_unicode_surrogates (stem image_file) = true ->
  _has_unicode_surrogates (name image_file) = true.
Proof.
  rewrite (name_stem_suffix image_file), has_unicode_app. intros ->. reflexivity.
Qed.

(** X7: the sidecar's name needs the safe copy exactly when the image's stem
    does, and then the image's name needs it too: an unsafe sidecar name never
    comes with a safe image name. *)
Theorem sidecar_unsafe_only_with_image :
  forall (image_file : Path),
    _has_unicode_surrogates (name (sidecar_of image_file))
    = _has_unicode_surrogates (stem image_file)
    /\ (_has_unicode_surrogates (name (sidecar_of image_file)) = true ->
        _has_unicode_surrogates (name image_file) = true).
Proof.
  intros image_file. split; [apply sidecar_check_is_stem_check|].
  rewrite sidecar_check_is_stem_check. apply stem_unsafe_name_unsafe.
Qed.

Lemma sidecar_unsafe_only_with_image_witness :
  _has_unicode_surrogates (name (sidecar_of camera_jpg)) = true
  /\ _has_unicode_surrogates (name camera_jpg) = true.
Proof.
  assert (H : _has_unicode_surrogates (name (sidecar_of camera_jpg)) = true)
    by (vm_compute; reflexivity).
  split; [exact H|].
  exact (proj2 (sidecar_unsafe_only_with_image camera_jpg) H).
Defined.

Lemma plain_image_plain_sidecar (image_file : Path) :
  _has_unicode_surrogates (name image_file) = false ->
  _has_unicode_surrogates (name (sidecar_of image_file)) = false.
Proof.
  intros H. destruct (_has_unicode_surrogates (name (sidecar_of image_file))) eqn:Hs;
    [|reflexivity].
  rewrite sidecar_check_is_stem_check in Hs.
  apply stem_unsafe_name_unsafe in Hs. congruence.
Qed.

(** ** What the tool is asked to write *)

Lemma hex_digit_low (d : Z) : (0 <= d < 16)%Z -> (hex_digit d < 0x2600)%Z.
Proof. intros H. unfold hex_digit. destruct (d <? 10)%Z; lia. Qed.

Lemma hex_go_low (n : nat) (u : Z) (acc : Name) :
  Forall (fun c => (c < 0x2600)%Z) acc ->
  Forall (fun c => (c < 0x2600)%Z) (hex_go n u acc).
Proof.
  revert u acc. induction n as [|n IH]; intros u acc H; simpl; [exact H|].
  apply IH. constructor; [|exact H].
  apply hex_digit_low, Z.mod_pos_bound. lia.
Qed.

Lemma temp_sidecar_name_safe (u : nat) :
  _has_unicode_surrogates (temp_sidecar_name u) = false.
Proof.
  unfold temp_sidecar_name. rewrite !has_unicode_app.
  rewrite (has_unicode_low (uuid_hex u)) by (apply hex_go_low; constructor).
  reflexivity.
Qed.

Lemma temp_copy_name_check (u : nat) (p : Path) :
  _has_unicode_surrogates (temp_copy_name u p) = _has_unicode_surrogates (suffix p).
Proof.
  unfold temp_copy_name. rewrite !has_unicode_app.
  rewrite (has_unicode_low (uuid_hex u)) by (apply hex_go_low; constructor).
  reflexivity.
Qed.

Lemma tags_of_cmd_app (a b : list Arg) :
  tags_of_cmd (a ++ b) = tags_of_cmd a ++ tags_of_cmd b.
Proof.
  induction a as [|x a IH]; [reflexivity|].
  destruct x; simpl; now rewrite IH.
Qed.

Lemma tags_of_cmd_lits (l : list str) : tags_of_cmd (map Lit l) = [].
Proof. induction l as [|x l IH]; [reflexivity | exact IH]. Qed.

Lemma tags_of_cmd_tag_args (d : str) (ts : list str) :
  tags_of_cmd (map (TagArg d) ts) = map (pair d) ts.
Proof. induction ts as [|t ts IH]; [reflexivity|]. simpl. now rewrite IH. Qed.

Lemma tags_of_exiftool_cmd (src out : Path) (ts : list str) :
  tags_of_cmd (exiftool_cmd src out ts) = list_prod tag_directives ts.
Proof.
  unfold exiftool_cmd. rewrite !tags_of_cmd_app, !tags_of_cmd_lits,
    !tags_of_cmd_tag_args. simpl. now rewrite !app_nil_r.
Qed.

Section WriteEvents.

Variable env : Env.
Variable P : Event -> Prop.
Hypothesis P_other :
  forall e, match e with EvExifWrite _ _ _ _ => True | _ => P e end.
Variable image_file : Path.
Variable kept : list str.
Hypothesis P_write :
  forall src out st wr,
    (out = sidecar_of image_file /\ _has_unicode_surrogates (name out) = false)
    \/ (exists k u, out = mkPath (TempDir k) (temp_sidecar_name u)) ->
    P (EvExifWrite (exiftool_cmd src out kept) out st wr).

Lemma tg_write_sidecar_cmd :
  hoare (trace_grows P) (write_sidecar env image_file kept) (fun _ => True).
Proof.
  unfold write_sidecar.
  eapply tg_bind; [now apply tg_create_temp_copy | intros [[temp was_copied]|e] _];
    [|now apply tg_ret].
  eapply tg_bind;
    [now apply tg_sidecar_output | intros [[temp_sidecar_dir out]|e] Hout];
    [|now apply tg_ret].
  cbn [output_choice] in Hout.
  eapply tg_bind with (Q := fun _ => True).
  { apply tg_run_exiftool_write. intros st wr. apply P_write.
    destruct Hout as [H | (-> & Hu & _)]; [now right | now left]. }
  intros st _.
  apply tg_seq; [now apply tg_move_to_final|].
  apply tg_seq.
  { destruct was_copied; [now apply tg_cleanup | now apply tg_ret]. }
  apply tg_seq; [|now apply tg_ret].
  destruct temp_sidecar_dir; [now apply tg_rmdir_if_exists | now apply tg_ret].
Qed.

End WriteEvents.

Lemma tg_generate_sidecar_cmd (env : Env) (P : Event -> Prop)
    (blacklist : gset str) (image_file : Path) (tags : list str)
    (format_type : str) (overwrite : bool) :
  (forall e, match e with EvExifWrite _ _ _ _ => True | _ => P e end) ->
  (forall src out st wr,
      (out = sidecar_of image_file /\ _has_unicode_surrogates (name out) = false)
      \/ (exists k u, out = mkPath (TempDir k) (temp_sidecar_name u)) ->
      P (EvExifWrite (exiftool_cmd src out (filter_tags blacklist tags)) out st wr)) ->
  hoare (trace_grows P)
    (generate_sidecar env blacklist image_file tags format_type overwrite)
    (fun _ => True).
Proof.
  intros P_other P_write. unfold generate_sidecar.
  destruct tags as [|t ts]; [now apply tg_ret|].
  destruct (filter_tags blacklist (t :: ts)) as [|t' ts'] eqn:Hf; [now apply tg_ret|].
  eapply tg_bind with (Q := fun _ => True).
  { destruct (_ && overwrite); [now apply tg_path_exists | now apply tg_ret]. }
  intros e _.
  eapply tg_bind with (Q := fun _ => True).
  { destruct e; [now apply tg_delete_attempts | now apply tg_ret]. }
  intros deleted _. destruct deleted; simpl; [|now apply tg_ret].
  apply tg_seq; [now apply tg_read_existing_metadata|].
  destruct (bool_decide _); [|now apply tg_ret].
  now apply tg_write_sidecar_cmd.
Qed.

Lemma hoare_new_events (env : Env) (P : Event -> Prop) {A} (c : M A) (w : World) :
  hoare (trace_grows P) c (fun _ => True) -> Forall P (new_events w (snd (c w))).
Proof.
  intros H. destruct (H w) as [Htg _]. now apply new_events_grows in Htg as [_ ?].
Qed.

(** X8: whatever the names of the image and of its sidecar, the output path
    the tool is given in write mode has a name that needs no safe copy: the
    sidecar's own name when that is safe, a generated name otherwise. *)
Theorem tool_output_path_is_safe :
  forall (env : Env) (blacklist : gset str) (image_file : Path)
         (tags : list str) (format_type : str) (overwrite : bool) (w : World),
    Forall output_named_safely
      (new_events w (snd (generate_sidecar env blacklist image_file tags
                            format_type overwrite w))).
Proof.
  intros. apply (hoare_new_events env). apply tg_generate_sidecar_cmd.
  - intros e. destruct e; exact I.
  - intros src out st wr [[_ H] | (k & u & ->)]; simpl; [exact H|].
    apply temp_sidecar_name_safe.
Qed.

(** X17: the tool is only ever asked to write the tags that passed the
    filter: each write command names exactly the filtered tags, every one of
    them under the four tag directives, so no blacklisted or blank tag
    reaches a sidecar. *)
Theorem only_filtered_tags_are_written :
  forall (env : Env) (blacklist : gset str) (image_file : Path)
         (tags : list str) (format_type : str) (overwrite : bool) (w : World),
    let evs := new_events w (snd (generate_sidecar env blacklist image_file tags
                                    format_type overwrite w)) in
    Forall (writes_tags (filter_tags blacklist tags)) evs
    /\ Forall (only_kept_tags blacklist) evs.
Proof.
  intros env blacklist image_file tags format_type overwrite w evs. subst evs.
  split; apply (hoare_new_events env); apply tg_generate_sidecar_cmd.
  - intros e. destruct e; exact I.
  - intros src out st wr _. unfold writes_tags. apply tags_of_exiftool_cmd.
  - intros e. destruct e; exact I.
  - intros src out st wr _. unfold only_kept_tags. intros d t Hin.
    rewrite tags_of_exiftool_cmd in Hin.
    apply list_elem_of_In, in_prod_iff in Hin as [_ Hin].
    apply list_elem_of_In, elem_of_filter_tags in Hin. tauto.
Qed.


(** ** The result of a call and the way the tool ended *)



Lemma not_a_write_other :
  forall e, match e with EvExifWrite _ _ _ _ => True | _ => not_a_write e end.
Proof. intros e. destruct e; exact I. Qed.












(** ** Calls for plain file names *)

Lemma hoare_ret_bind {A B} (R : World -> World -> Prop) (x : A) (f : A -> M B)
    (Q : B -> Prop) :
  hoare R (f x) Q -> hoare R (mret x ≫= f) Q.
Proof. intros H w. exact (H w). Qed.

Section PlainNames.

Variable env : Env.
Variable image_file : Path.
Variable kept : list str.
Hypothesis Hplain : _has_unicode_surrogates (name image_file) = false.

Local Abbreviation PR := (plain_rel image_file kept).
Local Abbreviation dest := (sidecar_of image_file).

Lemma plain_rel_refl (w : World) : PR w w.
Proof. repeat split; try reflexivity. apply trace_grows_refl. Qed.

Lemma plain_rel_trans (w1 w2 w3 : World) : PR w1 w2 -> PR w2 w3 -> PR w1 w3.
Proof.
  intros (Hf1 & Hd1 & Hn1 & Ht1) (Hf2 & Hd2 & Hn2 & Ht2). repeat split.
  - intros u Hu. rewrite (Hf2 u Hu). now apply Hf1.
  - congruence.
  - congruence.
  - now apply trace_grows_trans with w2.
Qed.

Lemma pr_ret {A} (x : A) (Q : A -> Prop) : Q x -> hoare PR (mret x) Q.
Proof. apply hoare_ret, plain_rel_refl. Qed.

Lemma pr_bind {A B} (c : M A) (f : A -> M B) (Q : A -> Prop) (Q' : B -> Prop) :
  hoare PR c Q -> (forall x, Q x -> hoare PR (f x) Q') -> hoare PR (c ≫= f) Q'.
Proof. apply hoare_bind, plain_rel_trans. Qed.

Lemma pr_seq {A B} (c : M A) (d : M B) (Q : B -> Prop) :
  hoare PR c (fun _ => True) -> hoare PR d Q -> hoare PR (c ;; d) Q.
Proof. intros Hc Hd. eapply pr_bind; [exact Hc | intros _ _; exact Hd]. Qed.

Lemma pr_path_exists (p : Path) : hoare PR (path_exists p) (fun _ => True).
Proof. intros w. split; [apply plain_rel_refl | trivial]. Qed.

Lemma pr_emit (e : Event) :
  plain_event image_file kept e -> hoare PR (emit e) (fun _ => True).
Proof.
  intros He w. split; [|trivial]. repeat split; try reflexivity.
  exists [e]. split; [reflexivity | now constructor].
Qed.

Lemma pr_unlink : hoare PR (unlink env dest) (fun _ => True).
Proof.
  intros w. split; [|trivial]. unfold unlink, mbind, M_bind; simpl.
  destruct (os_fails env (clock w) || _); simpl; repeat split; try reflexivity.
  - eexists. split; [reflexivity|]. now repeat constructor.
  - intros u Hu. now apply lookup_delete_ne.
  - eexists. split; [reflexivity|]. now repeat constructor.
Qed.

Lemma pr_delete_attempts (n : nat) :
  hoare PR (delete_attempts env n dest) (fun _ => True).
Proof.
  induction n as [|n IH]; simpl; [now apply pr_ret|].
  eapply pr_bind; [apply pr_unlink | intros ok _].
  destruct ok; [now apply pr_ret|].
  apply pr_seq; [now apply pr_emit | exact IH].
Qed.

Lemma pr_read_existing_metadata :
  hoare PR (read_existing_metadata env image_file) (fun _ => True).
Proof.
  unfold read_existing_metadata, _create_temp_copy_for_exiftool.
  rewrite Hplain. cbn [negb]. apply hoare_ret_bind. cbv beta iota.
  eapply pr_bind with (Q := fun _ => True).
  { intros w. split; [apply plain_rel_refl | trivial]. }
  intros f _. destruct (exiftool_read env image_file f) as [st stdout].
  apply pr_seq; [now apply pr_emit|].
  apply pr_seq; now apply pr_ret.
Qed.

Lemma pr_run_exiftool_write :
  hoare PR (run_exiftool_write env (exiftool_cmd image_file dest kept) dest)
    (fun _ => True).
Proof.
  intros w. split; [|trivial]. unfold run_exiftool_write, mbind, M_bind; simpl.
  destruct (exiftool_write env _ (fs w)) as [st written].
  destruct (match st with NotInstalled => None | _ => written end) as [c|]; simpl;
    repeat split; try reflexivity.
  - intros u Hu. now apply lookup_insert_ne.
  - eexists. split; [reflexivity|]. now repeat constructor.
  - eexists. split; [reflexivity|]. now repeat constructor.
Qed.

Lemma pr_write_sidecar :
  hoare PR (write_sidecar env image_file kept) (fun _ => True).
Proof.
  unfold write_sidecar, _create_temp_copy_for_exiftool, sidecar_output.
  rewrite Hplain, (plain_image_plain_sidecar image_file Hplain).
  cbn [negb orb]. apply hoare_ret_bind. cbv beta iota. cbn [orb].
  apply hoare_ret_bind. cbv beta iota.
  eapply pr_bind; [apply pr_run_exiftool_write | intros st _].
  unfold move_to_final. rewrite bool_decide_eq_false_2 by (intros H; now apply H).
  apply pr_seq; [now apply pr_ret|].
  apply pr_seq; [now apply pr_ret|].
  apply pr_seq; now apply pr_ret.
Qed.

End PlainNames.

Lemma pr_generate_sidecar (env : Env) (blacklist : gset str) (image_file : Path)
    (tags : list str) (format_type : str) (overwrite : bool) :
  _has_unicode_surrogates (name image_file) = false ->
  hoare (plain_rel image_file (filter_tags blacklist tags))
    (generate_sidecar env blacklist image_file tags format_type overwrite)
    (fun _ => True).
Proof.
  intros Hplain. unfold generate_sidecar.
  destruct tags as [|t ts]; [now apply pr_ret|].
  destruct (filter_tags blacklist (t :: ts)) as [|t' ts'] eqn:Hf;
    [now apply pr_ret|].
  eapply pr_bind with (Q := fun _ => True).
  { destruct (_ && overwrite); [apply pr_path_exists | now apply pr_ret]. }
  intros e _.
  eapply pr_bind with (Q := fun _ => True).
  { destruct e; [apply pr_delete_attempts | now apply pr_ret]. }
  intros deleted _. destruct deleted; cbn [negb]; [|now apply pr_ret].
  apply pr_seq; [now apply pr_read_existing_metadata|].
  destruct (bool_decide _); [now apply pr_write_sidecar | now apply pr_ret].
Qed.

(** X19: for an image whose name needs no safe copy, a call changes no file
    other than the sidecar, makes no temporary directory or copy, and does
    nothing but try to delete the sidecar, read the image itself and run the
    tool once from the image itself to the sidecar itself. *)
Theorem plain_name_touches_only_sidecar :
  forall (env : Env) (blacklist : gset str) (image_file : Path)
         (tags : list str) (format_type : str) (overwrite : bool) (w : World),
    _has_unicode_surrogates (name image_file) = false ->
    let w' := snd (generate_sidecar env blacklist image_file tags format_type
                     overwrite w) in
    (forall u, u <> sidecar_of image_file -> fs w' !! u = fs w !! u)
    /\ tmpdirs w' = tmpdirs w
    /\ fresh w' = fresh w
    /\ Forall (plain_event image_file (filter_tags blacklist tags)) (new_events w w').
Proof.
  intros env blacklist image_file tags format_type overwrite w Hplain w'.
  destruct (pr_generate_sidecar env blacklist image_file tags format_type overwrite
              Hplain w)
    as [(Hf & Hd & Hn & Ht) _].
  fold w' in Hf, Hd, Hn, Ht.
  repeat split; try assumption.
  now apply new_events_grows in Ht as [_ ?].
Qed.

Lemma plain_name_touches_only_sidecar_witness :
  _has_unicode_surrogates (name bird_jpg) = false
  /\ fs (snd (generate_sidecar calm_env default_blacklist bird_jpg ["orange cat"]
                "xmp" true bird_world)) !! bird_jpg = Some "jpeg data".
Proof.
  split; [reflexivity|].
  destruct (plain_name_touches_only_sidecar calm_env default_blacklist bird_jpg
              ["orange cat"] "xmp" true bird_world eq_refl) as [H _].
  rewrite H; [vm_compute; reflexivity | vm_compute; discriminate].
Defined.

(** ** What a call does to the sidecar *)

Section DestFrame.

Variable env : Env.
Variable image_file : Path.
Variable d : str.
Hypothesis Hd : parent image_file = UserDir d.

Local Abbreviation DR := (dest_rel image_file).
Local Abbreviation dest := (sidecar_of image_file).

Lemma dest_rel_refl (w : World) : DR w w.
Proof. exists []. split; [now rewrite app_nil_r|]. split; [constructor | reflexivity]. Qed.

Lemma dest_rel_trans (w1 w2 w3 : World) : DR w1 w2 -> DR w2 w3 -> DR w1 w3.
Proof.
  intros (e1 & H1 & F1 & K1) (e2 & H2 & F2 & K2). exists (e1 ++ e2). split.
  - now rewrite H2, H1, <- app_assoc.
  - split; [apply Forall_app; now split|].
    intros [N1 N2]%Forall_app. rewrite (K2 N2). exact (K1 N1).
Qed.

Lemma dr_ret {A} (x : A) (Q : A -> Prop) : Q x -> hoare DR (mret x) Q.
Proof. apply hoare_ret, dest_rel_refl. Qed.

Lemma dr_bind {A B} (c : M A) (f : A -> M B) (Q : A -> Prop) (Q' : B -> Prop) :
  hoare DR c Q -> (forall x, Q x -> hoare DR (f x) Q') -> hoare DR (c ≫= f) Q'.
Proof. apply hoare_bind, dest_rel_trans. Qed.

Lemma dr_seq {A B} (c : M A) (c' : M B) (Q : B -> Prop) :
  hoare DR c (fun _ => True) -> hoare DR c' Q -> hoare DR (c ;; c') Q.
Proof. intros Hc Hd'. eapply dr_bind; [exact Hc | intros _ _; exact Hd']. Qed.

Lemma dr_silent {A} (c : M A) :
  (forall w, trace (snd (c w)) = trace w /\ fs (snd (c w)) = fs w) ->
  hoare DR c (fun _ => True).
Proof.
  intros H w. split; [|trivial]. destruct (H w) as [Ht Hf]. exists [].
  rewrite Ht, Hf, app_nil_r. split; [reflexivity|]. split; [constructor | reflexivity].
Qed.

(** One event that leaves the files alone. *)
Lemma dr_one_same (w w' : World) (e : Event) :
  trace w' = trace w ++ [e] -> fs w' = fs w -> dest_event image_file e -> DR w w'.
Proof.
  intros Ht Hf He. exists [e]. split; [exact Ht|].
  split; [now repeat constructor | now rewrite Hf].
Qed.

(** One event that changes the files, the sidecar only when it says so. *)
Lemma dr_one (w w' : World) (e : Event) :
  trace w' = trace w ++ [e] -> dest_event image_file e ->
  (~ touches dest e -> fs w' !! dest = fs w !! dest) -> DR w w'.
Proof.
  intros Ht He Hf. exists [e]. split; [exact Ht|].
  split; [now repeat constructor|]. intros N. apply Hf. now inversion N.
Qed.

Lemma dest_not_temp (p : Path) (k : nat) : parent p = TempDir k -> p <> dest.
Proof. intros Hp ->. unfold sidecar_of in Hp. simpl in Hp. congruence. Qed.

Lemma dr_emit (e : Event) : dest_event image_file e -> hoare DR (emit e) (fun _ => True).
Proof. intros He w. split; [|trivial]. now apply dr_one_same with e. Qed.

Lemma dr_unlink (p : Path) :
  p = dest \/ (exists k, parent p = TempDir k) ->
  hoare DR (unlink env p) (fun _ => True).
Proof.
  intros Hp w. split; [|trivial]. unfold unlink, mbind, M_bind; simpl.
  destruct (os_fails env (clock w) || _); simpl.
  - now apply dr_one_same with (EvUnlink p false).
  - apply dr_one with (EvUnlink p true); [reflexivity | exact Hp |].
    simpl. intros N. apply lookup_delete_ne. congruence.
Qed.

Lemma dr_mkdtemp : hoare DR (mkdtemp env) (fun _ => True).
Proof.
  intros w. split; [|trivial]. unfold mkdtemp, mbind, M_bind; simpl.
  destruct (os_fails env (clock w)); simpl.
  - now apply dr_one_same with (EvMkdtempFailed (os_error env (clock w))).
  - now apply dr_one_same with (EvMkdtemp (fresh w)).
Qed.

Lemma dr_rmdir (k : nat) : hoare DR (rmdir env k) (fun _ => True).
Proof.
  intros w. split; [|trivial]. unfold rmdir, mbind, M_bind; simpl.
  destruct (os_fails env (clock w) || _ || _); simpl.
  - now apply dr_one_same with (EvRmdir k false).
  - now apply dr_one_same with (EvRmdir k true).
Qed.

Lemma dr_copy2 (src dst : Path) (k : nat) :
  parent dst = TempDir k -> hoare DR (copy2 env src dst) (fun _ => True).
Proof.
  intros Hp w. split; [|trivial]. unfold copy2, mbind, M_bind; simpl.
  destruct (fs w !! src); [destruct (os_fails env (clock w))|]; simpl.
  - apply dr_one_same with (EvCopy src dst false); simpl; eauto.
  - apply dr_one with (EvCopy src dst true); [reflexivity | simpl; eauto |].
    intros _. simpl. apply lookup_insert_ne. now apply dest_not_temp with k.
  - apply dr_one_same with (EvCopy src dst false); simpl; eauto.
Qed.

Lemma dr_move (src : Path) (k : nat) :
  parent src = TempDir k -> hoare DR (move env src dest) (fun _ => True).
Proof.
  intros Hp w. split; [|trivial]. unfold move, mbind, M_bind; simpl.
  destruct (fs w !! src); [destruct (os_fails env (clock w))|]; simpl.
  - apply dr_one_same with (EvMove src dest false); simpl; eauto.
  - apply dr_one with (EvMove src dest true); [reflexivity | simpl; eauto |].
    simpl. intros N. now contradiction N.
  - apply dr_one_same with (EvMove src dest false); simpl; eauto.
Qed.

Lemma dr_run_exiftool_write (cmd : list Arg) (out : Path) :
  out = dest \/ (exists k, parent out = TempDir k) ->
  hoare DR (run_exiftool_write env cmd out) (fun _ => True).
Proof.
  intros Ho w. split; [|trivial]. unfold run_exiftool_write, mbind, M_bind; simpl.
  destruct (exiftool_write env cmd (fs w)) as [st written].
  destruct (match st with NotInstalled => None | _ => written end) as [c|]; simpl.
  - apply dr_one with (EvExifWrite cmd out st (Some c)); [reflexivity | exact Ho |].
    simpl. intros N. apply lookup_insert_ne. congruence.
  - now apply dr_one_same with (EvExifWrite cmd out st None).
Qed.

Lemma dr_create_temp_copy :
  hoare DR (_create_temp_copy_for_exiftool env image_file)
    (fun x => match x with
              | Ok (q, true) => exists k, parent q = TempDir k
              | _ => True
              end).
Proof.
  unfold _create_temp_copy_for_exiftool.
  destruct (negb _); [now apply dr_ret|].
  eapply dr_bind; [apply dr_mkdtemp | intros [k|e] _]; [|now apply dr_ret].
  eapply dr_bind; [now apply dr_silent | intros u _].
  eapply dr_bind; [now apply dr_copy2 with k | intros ok _].
  destruct ok; apply dr_ret; simpl; [eauto | exact I].
Qed.

Lemma dr_cleanup (p : Path) (k : nat) :
  parent p = TempDir k -> hoare DR (_cleanup_temp_file env p) (fun _ => True).
Proof.
  intros Hp. unfold _cleanup_temp_file.
  eapply dr_bind; [now apply dr_silent | intros e _].
  eapply dr_bind with (Q := fun _ => True).
  { destruct e; [apply dr_unlink; eauto | now apply dr_ret]. }
  intros ok _. destruct ok; [|now apply dr_ret].
  rewrite Hp.
  eapply dr_bind; [now apply dr_silent | intros ds _].
  destruct (_ && _); [|now apply dr_ret].
  apply dr_seq; [apply dr_rmdir | now apply dr_ret].
Qed.

Lemma dr_read_existing_metadata :
  hoare DR (read_existing_metadata env image_file) (fun _ => True).
Proof.
  unfold read_existing_metadata.
  eapply dr_bind;
    [apply dr_create_temp_copy | intros [[temp_file was_copied]|e] Ht];
    [|now apply dr_ret].
  eapply dr_bind; [now apply dr_silent | intros f _].
  destruct (exiftool_read env temp_file f) as [st stdout].
  apply dr_seq; [now apply dr_emit|].
  apply dr_seq; [|now apply dr_ret].
  destruct was_copied; [|now apply dr_ret].
  destruct Ht as [k Hk]. now apply dr_cleanup with k.
Qed.

Lemma dr_delete_attempts (n : nat) :
  hoare DR (delete_attempts env n dest) (fun _ => True).
Proof.
  induction n as [|n IH]; simpl; [now apply dr_ret|].
  eapply dr_bind; [apply dr_unlink; now left | intros ok _].
  destruct ok; [now apply dr_ret|].
  apply dr_seq; [now apply dr_emit | exact IH].
Qed.

Lemma dr_sidecar_output (b1 b2 : bool) :
  hoare DR (sidecar_output env dest b1 b2)
    (fun x => match x with
              | Ok (_, out) => out = dest \/ exists k, parent out = TempDir k
              | Raise _ => True
              end).
Proof.
  unfold sidecar_output. destruct (b1 || b2); [|apply dr_ret; now left].
  eapply dr_bind; [apply dr_mkdtemp | intros [k|e] _]; [|now apply dr_ret].
  eapply dr_bind; [now apply dr_silent | intros u _].
  apply dr_ret. right. now exists k.
Qed.

Lemma dr_move_to_final (out : Path) :
  out = dest \/ (exists k, parent out = TempDir k) ->
  hoare DR (move_to_final env out dest) (fun _ => True).
Proof.
  intros Ho. unfold move_to_final.
  destruct (bool_decide (out ≠ dest)) eqn:Hne; [|now apply dr_ret].
  apply bool_decide_eq_true_1 in Hne. destruct Ho as [->|[k Hk]]; [congruence|].
  eapply dr_bind; [now apply dr_silent | intros e _].
  destruct e; [|now apply dr_ret].
  eapply dr_bind; [now apply dr_silent | intros e' _].
  eapply dr_bind with (Q := fun _ => True).
  { destruct e'; [apply dr_unlink; now left | now apply dr_ret]. }
  intros ok _. destruct ok; [|now apply dr_ret].
  apply dr_seq; [now apply dr_move with k | now apply dr_ret].
Qed.

Lemma dr_write_sidecar (tags : list str) :
  hoare DR (write_sidecar env image_file tags) (fun _ => True).
Proof.
  unfold write_sidecar.
  eapply dr_bind; [apply dr_create_temp_copy | intros [[temp was_copied]|e] Ht];
    [|now apply dr_ret].
  eapply dr_bind; [apply dr_sidecar_output | intros [[temp_sidecar_dir out]|e] Hout];
    [|now apply dr_ret].
  eapply dr_bind; [now apply dr_run_exiftool_write | intros st _].
  apply dr_seq; [now apply dr_move_to_final|].
  apply dr_seq.
  { destruct was_copied; [|now apply dr_ret].
    destruct Ht as [k Hk]. now apply dr_cleanup with k. }
  apply dr_seq; [|now apply dr_ret].
  destruct temp_sidecar_dir as [k|]; [|now apply dr_ret].
  eapply dr_bind; [now apply dr_silent | intros ds _].
  destruct (bool_decide _); [|now apply dr_ret].
  apply dr_seq; [apply dr_rmdir | now apply dr_ret].
Qed.

Lemma dr_generate_sidecar (blacklist : gset str) (tags : list str)
    (format_type : str) (overwrite : bool) :
  hoare DR (generate_sidecar env blacklist image_file tags format_type overwrite)
    (fun _ => True).
Proof.
  unfold generate_sidecar.
  destruct tags as [|t ts]; [now apply dr_ret|].
  destruct (filter_tags blacklist (t :: ts)) as [|t' ts']; [now apply dr_ret|].
  eapply dr_bind with (Q := fun _ => True).
  { destruct (_ && overwrite); [now apply dr_silent | now apply dr_ret]. }
  intros e _.
  eapply dr_bind with (Q := fun _ => True).
  { destruct e; [apply dr_delete_attempts | now apply dr_ret]. }
  intros deleted _. destruct deleted; cbn [negb]; [|now apply dr_ret].
  apply dr_seq; [apply dr_read_existing_metadata|].
  destruct (bool_decide _); [apply dr_write_sidecar | now apply dr_ret].
Qed.

End DestFrame.

(** C3 (as amended): for an image in a directory of the caller,
    - a call that fails for want of an eligible tag changes nothing, one that
      fails for a format other than xmp leaves the file at the true
      destination as it was, and one that fails because the three delete
      attempts of the overwrite step failed changes no file;
    - whatever its result, a call only deletes the destination or files of
      temporary directories, only copies into temporary directories, only
      moves a file of a temporary directory onto the destination, and only
      gives the tool the destination itself or a path of a temporary
      directory as output path;
    - the file at the destination is as before unless a delete of it
      succeeded, a move onto it succeeded, or the tool was run with the
      destination itself as output path and left a file;
    - when the sidecar's name needs the Unicode-safe workaround the tool is
      only given output paths in temporary directories, and when the image's
      name does not need it the tool is only given the destination itself. *)
Theorem early_failure_keeps_destination :
  forall (env : Env) (blacklist : gset str) (image_file : Path) (d : str)
         (tags : list str) (format_type : str) (overwrite : bool) (w : World),
    parent image_file = UserDir d ->
    let dest := sidecar_of image_file in
    let '(r, w') := generate_sidecar env blacklist image_file tags format_type
                      overwrite w in
    (filter_tags blacklist tags = [] -> r = Returned false /\ w' = w)
    /\ (PyStr.lower format_type <> "xmp" ->
        r = Returned false /\ fs w' !! dest = fs w !! dest)
    /\ (PyStr.lower format_type = "xmp" -> overwrite = true ->
        is_Some (fs w !! dest) -> filter_tags blacklist tags <> [] ->
        failures (os_fails env) (clock w) 3 = 3 ->
        r = Returned false /\ fs w' = fs w)
    /\ Forall (dest_event image_file) (new_events w w')
    /\ (Forall (fun e => ~ touches dest e) (new_events w w') ->
        fs w' !! dest = fs w !! dest)
    /\ (_has_unicode_surrogates (name dest) = true ->
        Forall writes_to_temp (new_events w w'))
    /\ (_has_unicode_surrogates (name image_file) = false ->
        Forall (writes_to dest) (new_events w w')).
Proof.
  intros env blacklist image_file d tags format_type overwrite w Hd dest.
  pose proof (dr_generate_sidecar env image_file d Hd blacklist tags format_type
                overwrite w) as [Hdr _].
  pose proof (fun Hp => pr_generate_sidecar env blacklist image_file tags format_type
                          overwrite Hp w) as Hpr.
  destruct (generate_sidecar env blacklist image_file tags format_type overwrite w)
    as [r w'] eqn:Hrun.
  cbn [snd] in Hdr, Hpr.
  split; [|split; [|split; [|split; [|split; [|split]]]]].
  - intros Hnil. rewrite generate_sidecar_no_tags in Hrun by exact Hnil.
    now inversion Hrun.
  - intros Hx.
    pose proof (generate_sidecar_unsupported env blacklist image_file tags format_type
                  overwrite w Hx) as H.
    rewrite Hrun in H. destruct H as (Hr & Huf & _). split; [exact Hr|].
    apply Huf with d. exact Hd.
  - intros Hx -> [c He] Hne Hk.
    destruct (filter_tags blacklist tags) as [|t ts] eqn:Hf; [congruence|].
    rewrite (generate_sidecar_overwrite_run env blacklist image_file tags
               format_type w c t ts Hf Hx He) in Hrun.
    pose proof (delete_attempts_run env dest c 3 w He) as Hdel.
    cbv zeta in Hdel. rewrite Hk in Hdel. simpl Nat.ltb in Hdel.
    fold dest in Hrun. rewrite Hdel in Hrun. inversion Hrun. now split.
  - destruct Hdr as (ext & Ht & Hev & _).
    unfold new_events. now rewrite Ht, drop_app_length.
  - destruct Hdr as (ext & Ht & _ & Hfr).
    unfold new_events. rewrite Ht, drop_app_length. exact Hfr.
  - intros Hu.
    assert (Hother : forall e, match e with
                               | EvExifWrite _ _ _ _ => True
                               | _ => writes_to_temp e
                               end) by (intros e; destruct e; exact I).
    assert (Htemp : forall cmd k n st wr,
               writes_to_temp (EvExifWrite cmd (mkPath (TempDir k) n) st wr))
      by (intros; simpl; eauto).
    destruct (tg_generate_sidecar env writes_to_temp Hother Htemp blacklist image_file
                tags format_type overwrite
                ltac:(fold dest; rewrite Hu; discriminate) w) as [Htg _].
    rewrite Hrun in Htg. simpl in Htg.
    now apply new_events_grows in Htg as [_ ?].
  - intros Hp. destruct (Hpr Hp) as [(_ & _ & _ & Htg) _].
    apply new_events_grows in Htg as [_ Htg].
    eapply Forall_impl; [exact Htg|].
    intros e He. destruct e; try exact I. simpl in He |- *. now destruct He.
Qed.

Lemma early_failure_keeps_destination_witness :
  parent bird_jpg = UserDir "/photos"
  /\ (let '(r, w') := generate_sidecar locked_env default_blacklist bird_jpg
                        ["orange cat"] "xmp" true bird_world in
      r = Returned false /\ fs w' = fs bird_world).
Proof.
  split; [reflexivity|].
  pose proof (early_failure_keeps_destination locked_env default_blacklist bird_jpg
                "/photos" ["orange cat"] "xmp" true bird_world eq_refl) as H.
  cbv zeta in H.
  destruct (generate_sidecar locked_env default_blacklist bird_jpg
              ["orange cat"] "xmp" true bird_world) as [r w'].
  destruct H as (_ & _ & H & _). apply H.
  - reflexivity.
  - reflexivity.
  - exists "old sidecar". vm_compute. reflexivity.
  - vm_compute. discriminate.
  - reflexivity.
Defined.

(** C3, as stated, fails.  With [overwrite] set and a plain file name, the
    sidecar that was there is deleted, the tool is given the true destination
    itself as output path, and when the tool then fails the call returns
    failure with the old sidecar gone.  And with a name that needs the
    Unicode-safe workaround, what a failing tool has left in the temporary
    directory is moved onto the true destination all the same: the call
    returns failure and the destination holds the partial output. *)
Lemma old_sidecar_lost_when_tool_fails :
  ~ destination_kept_on_failure failing_tool_env default_blacklist bird_jpg
      ["orange cat"] "xmp" true bird_world
  /\ ~ tool_never_given_destination failing_tool_env default_blacklist bird_jpg
         ["orange cat"] "xmp" true bird_world
  /\ (let '(r, w') := generate_sidecar partial_tool_env default_blacklist camera_jpg
                        ["orange cat"] "xmp" false camera_only_world in
      r = Returned false
      /\ fs camera_only_world !! sidecar_of camera_jpg = None
      /\ fs w' !! sidecar_of camera_jpg = Some "partial output").
Proof.
  split; [|split].
  - unfold destination_kept_on_failure.
    destruct (generate_sidecar failing_tool_env default_blacklist bird_jpg
                ["orange cat"] "xmp" true bird_world) as [r w'] eqn:Hrun.
    vm_compute in Hrun. inversion Hrun; subst r w'. clear Hrun.
    intros H. specialize (H ltac:(discriminate)).
    vm_compute in H. discriminate.
  - unfold tool_never_given_destination.
    destruct (generate_sidecar failing_tool_env default_blacklist bird_jpg
                ["orange cat"] "xmp" true bird_world) as [r w'] eqn:Hrun.
    vm_compute in Hrun. inversion Hrun; subst r w'. clear Hrun.
    intros H. vm_compute in H.
    inversion H as [|? ? _ H1]; subst. inversion H1 as [|? ? _ H2]; subst.
    inversion H2 as [|? ? Hw _]; subst. apply Hw. reflexivity.
  - destruct (generate_sidecar partial_tool_env default_blacklist camera_jpg
                ["orange cat"] "xmp" false camera_only_world) as [r w'] eqn:Hrun.
    vm_compute in Hrun. inversion Hrun; subst r w'. clear Hrun.
    split; [reflexivity|]. split; vm_compute; reflexivity.
Qed.

(** ** The temporary copy and its cleanup *)

Lemma dir_empty_fresh (f : gmap Path Content) (k : nat) :
  (forall n, f !! mkPath (TempDir k) n = None) -> dir_empty f k = true.
Proof.
  intros H. unfold dir_empty. apply forallb_forall. intros p Hin.
  apply in_map_iff in Hin as ([p' c] & <- & Hin). simpl.
  apply list_elem_of_In, elem_of_map_to_list in Hin.
  apply negb_true_iff, bool_decide_eq_false. intros Hp.
  destruct p' as [d n]. simpl in Hp. subst d. rewrite H in Hin. discriminate.
Qed.

(** The directories of [mkdtemp] carry the prefix [_cleanup_temp_file] asks
    for. *)
Lemma temp_dir_name_tmp (k : nat) :
  PyStr.startswith "tmp" (dir_name (TempDir k)) = true.
Proof. reflexivity. Qed.

Lemma create_unicode_run (env : Env) (p : Path) (w : World) :
  _has_unicode_surrogates (name p) = true ->
  _create_temp_copy_for_exiftool env p w =
    if os_fails env (clock w)
    then (Raise (os_error env (clock w)),
          mkWorld (fs w) (tmpdirs w) (fresh w) (S (clock w))
            (trace w ++ [EvMkdtempFailed (os_error env (clock w))]))
    else
      let q := mkPath (TempDir (fresh w)) (temp_copy_name (S (fresh w)) p) in
      match fs w !! p with
      | Some c =>
          if os_fails env (S (clock w))
          then (Ok (p, false),
                mkWorld (fs w) ({[fresh w]} ∪ tmpdirs w) (S (S (fresh w)))
                  (S (S (clock w)))
                  ((trace w ++ [EvMkdtemp (fresh w)]) ++ [EvCopy p q false]))
          else (Ok (q, true),
                mkWorld (<[q := c]> (fs w)) ({[fresh w]} ∪ tmpdirs w) (S (S (fresh w)))
                  (S (S (clock w)))
                  ((trace w ++ [EvMkdtemp (fresh w)]) ++ [EvCopy p q true]))
      | None =>
          (Ok (p, false),
           mkWorld (fs w) ({[fresh w]} ∪ tmpdirs w) (S (S (fresh w))) (S (S (clock w)))
             ((trace w ++ [EvMkdtemp (fresh w)]) ++ [EvCopy p q false]))
      end.
Proof.
  intros Hu. unfold _create_temp_copy_for_exiftool. rewrite Hu.
  unfold mkdtemp, copy2.
  unfold mbind, M_bind, next_fresh, emit, get_tmpdirs, put_tmpdirs, put_fs, get_fs,
    tick, mret, M_ret.
  cbn [negb fs tmpdirs fresh clock trace fst snd].
  destruct (os_fails env (clock w)); [reflexivity|].
  cbn [negb fs tmpdirs fresh clock trace fst snd].
  destruct (fs w !! p); [destruct (os_fails env (S (clock w)))|]; reflexivity.
Qed.

Lemma cleanup_run_quiet (env : Env) (q : Path) (w : World) (c : Content) (k : nat) :
  os_quiet env ->
  parent q = TempDir k ->
  fs w !! q = Some c ->
  k ∈ tmpdirs w ->
  dir_empty (delete q (fs w)) k = true ->
  _cleanup_temp_file env q w
  = (tt, mkWorld (delete q (fs w)) (tmpdirs w ∖ {[k]}) (fresh w) (S (S (clock w)))
           ((trace w ++ [EvUnlink q true]) ++ [EvRmdir k true])).
Proof.
  intros Hq Hp Hc Hk He. unfold _cleanup_temp_file, path_exists, unlink, rmdir.
  rewrite Hp, temp_dir_name_tmp.
  assert (Hb : bool_decide (is_Some (Some c)) = true)
    by (apply bool_decide_eq_true_2; eauto).
  assert (Hb2 : bool_decide (k ∈ tmpdirs w) = true)
    by (now apply bool_decide_eq_true_2).
  unfold mbind, M_bind, emit, get_tmpdirs, put_tmpdirs, put_fs, get_fs, tick, mret, M_ret.
  repeat (progress (rewrite ?Hc, ?Hq, ?Hb, ?Hb2, ?He;
                    cbn [negb orb andb fs tmpdirs fresh clock trace fst snd])).
  reflexivity.
Qed.

(** X9: [_create_temp_copy_for_exiftool] never changes a file of the caller.
    For a name that needs no copy it does nothing and hands back the path it
    was given.  When it reports a copy, the copy lies in a temporary
    directory, under a generated name that keeps the suffix, and holds the
    content of the original.  When the copy fails it falls back to the
    original path, and the directory made for the copy is left behind.  It
    raises only when [tempfile.mkdtemp()] does, for a name that needs a
    copy, having changed no file and made no directory. *)
Theorem temp_copy_behaviour :
  forall (env : Env) (file_path : Path) (w : World),
    let '(r, w') := _create_temp_copy_for_exiftool env file_path w in
    user_frame w w'
    /\ match r with
       | Ok (q, copied) =>
           (copied = false -> q = file_path)
           /\ (_has_unicode_surrogates (name file_path) = false ->
               w' = w /\ copied = false)
           /\ (copied = true ->
               _has_unicode_surrogates (name file_path) = true
               /\ q = mkPath (TempDir (fresh w))
                        (temp_copy_name (S (fresh w)) file_path)
               /\ exists c, fs w !! file_path = Some c /\ fs w' !! q = Some c)
           /\ (_has_unicode_surrogates (name file_path) = true -> copied = false ->
               fs w' = fs w /\ tmpdirs w' = {[fresh w]} ∪ tmpdirs w)
       | Raise e =>
           _has_unicode_surrogates (name file_path) = true
           /\ fs w' = fs w /\ tmpdirs w' = tmpdirs w
           /\ new_events w w' = [EvMkdtempFailed e]
       end.
Proof.
  intros env file_path w.
  pose proof (uf_create_temp_copy env file_path w) as [Huf _].
  destruct (_create_temp_copy_for_exiftool env file_path w) as [r w'] eqn:Hrun.
  simpl in Huf. split; [exact Huf|]. clear Huf.
  destruct (_has_unicode_surrogates (name file_path)) eqn:Hu.
  - rewrite (create_unicode_run env file_path w Hu) in Hrun. cbv zeta in Hrun.
    destruct (os_fails env (clock w)).
    { inversion Hrun; subst; clear Hrun. cbn [fs tmpdirs]. repeat split.
      unfold new_events. cbn [trace]. now rewrite drop_app_length. }
    destruct (fs w !! file_path) as [c|] eqn:Hc;
      [destruct (os_fails env (S (clock w)))|]; inversion Hrun; subst; clear Hrun;
      cbn [fs tmpdirs]; repeat split; try congruence; try discriminate.
    exists c. split; [reflexivity|]. apply lookup_insert_eq.
  - unfold _create_temp_copy_for_exiftool in Hrun. rewrite Hu in Hrun.
    inversion Hrun; subst. repeat split; try congruence; discriminate.
Qed.

Lemma temp_copy_behaviour_witness :
  _has_unicode_surrogates (name camera_jpg) = true
  /\ (let '(r, w') := _create_temp_copy_for_exiftool flaky_env camera_jpg
                        camera_world in
      fs w' = fs camera_world /\ tmpdirs w' = tmpdirs camera_world)
  /\ (let '(r, w') := _create_temp_copy_for_exiftool
                        (mkEnv (fun n => (n =? 1)%nat) access_denied no_output
                           exiftool_no_clobber) camera_jpg camera_world in
      fs w' = fs camera_world /\ tmpdirs w' = {[0]} ∪ tmpdirs camera_world).
Proof.
  split; [reflexivity|]. split.
  - pose proof (temp_copy_behaviour flaky_env camera_jpg camera_world) as H.
    destruct (_create_temp_copy_for_exiftool flaky_env camera_jpg camera_world)
      as [r w'] eqn:Hrun.
    vm_compute in Hrun. inversion Hrun; subst r w'. clear Hrun.
    destruct H as (_ & _ & H1 & H2 & _). now split.
  - pose proof (temp_copy_behaviour
                  (mkEnv (fun n => (n =? 1)%nat) access_denied no_output
                     exiftool_no_clobber) camera_jpg camera_world) as H.
    destruct (_create_temp_copy_for_exiftool _ camera_jpg camera_world)
      as [r w'] eqn:Hrun.
    vm_compute in Hrun. inversion Hrun; subst r w'. clear Hrun.
    destruct H as (_ & _ & _ & _ & H). apply H; reflexivity.
Defined.

Lemma fresh_dir_gone (k : nat) (d : gset nat) : k ∉ d -> ({[k]} ∪ d) ∖ {[k]} = d.
Proof.
  intros Hk. apply set_eq. intros x.
  rewrite elem_of_difference, elem_of_union, !elem_of_singleton.
  split; [intros [[->|H] Hx]; [contradiction | exact H] |].
  intros H. split; [now right | intros ->; contradiction].
Qed.

(** X10: round trip of the safe copy.  When no file-system call fails and
    the file exists, the copy is made without an exception, and making it and
    then cleaning it up leaves the files and the temporary directories
    exactly as they were. *)
Theorem temp_copy_cleanup_round_trip :
  forall (env : Env) (file_path : Path) (w : World) (c : Content),
    os_quiet env ->
    fresh_ahead w ->
    fs w !! file_path = Some c ->
    match _create_temp_copy_for_exiftool env file_path w with
    | (Ok (q, copied), w1) =>
        let w2 := snd ((if copied : bool then _cleanup_temp_file env q else mret tt) w1) in
        copied = _has_unicode_surrogates (name file_path)
        /\ fs w2 = fs w
        /\ tmpdirs w2 = tmpdirs w
    | (Raise _, _) => False
    end.
Proof.
  intros env file_path w c Hq Hfresh Hc.
  destruct (_has_unicode_surrogates (name file_path)) eqn:Hu.
  2:{ unfold _create_temp_copy_for_exiftool. rewrite Hu. simpl. now repeat split. }
  destruct (Hfresh (fresh w) (le_n _)) as [Hk Hnone].
  rewrite (create_unicode_run env file_path w Hu), Hc, !Hq. cbv beta iota zeta.
  set (q := mkPath (TempDir (fresh w)) (temp_copy_name (S (fresh w)) file_path)).
  erewrite (cleanup_run_quiet env q _ c (fresh w) Hq eq_refl).
  - cbn [snd fs tmpdirs]. split; [reflexivity|]. split.
    + apply delete_insert_id, Hnone.
    + now apply fresh_dir_gone.
  - apply lookup_insert_eq.
  - cbn [tmpdirs]. apply elem_of_union_l, elem_of_singleton_2. reflexivity.
  - cbn [fs]. rewrite delete_insert_id by apply Hnone.
    now apply dir_empty_fresh.
Qed.

Lemma temp_copy_cleanup_round_trip_witness :
  os_quiet calm_env
  /\ fresh_ahead camera_world
  /\ match _create_temp_copy_for_exiftool calm_env camera_jpg camera_world with
     | (Ok (q, copied), w1) =>
         fs (snd ((if copied : bool then _cleanup_temp_file calm_env q else mret tt) w1))
         = fs camera_world
     | (Raise _, _) => False
     end.
Proof.
  assert (Hq : os_quiet calm_env) by (intros n; reflexivity).
  assert (Hf : fresh_ahead camera_world).
  { intros k _. split; [apply not_elem_of_empty|]. intros n.
    unfold camera_world, world_with. simpl.
    rewrite !lookup_insert_ne by discriminate. apply lookup_empty. }
  split; [exact Hq|]. split; [exact Hf|].
  pose proof (temp_copy_cleanup_round_trip calm_env camera_jpg camera_world
                "jpeg data" Hq Hf ltac:(vm_compute; reflexivity)) as H.
  destruct (_create_temp_copy_for_exiftool calm_env camera_jpg camera_world)
    as [[[q copied]|e] w1]; [|exact H].
  exact (proj1 (proj2 H)).
Defined.

(** ** Reading metadata *)

(** X11: [read_existing_metadata] never raises and never changes a file of
    the caller, whatever the tool and the file system do; and when the tool
    cannot be run successfully the result is the empty record. *)
Theorem read_metadata_is_harmless :
  forall (env : Env) (image_file : Path) (w : World),
    let '(m, w') := read_existing_metadata env image_file w in
    user_frame w w'
    /\ Forall not_a_write (new_events w w')
    /\ ((forall p f, fst (exiftool_read env p f) <> Exit0) -> m = empty_metadata).
Proof.
  intros env image_file w.
  assert (H : hoare user_frame (read_existing_metadata env image_file)
                (fun m => (forall p f, fst (exiftool_read env p f) <> Exit0) ->
                          m = empty_metadata)).
  { unfold read_existing_metadata.
    eapply uf_bind;
      [apply uf_create_temp_copy | intros [[temp_file was_copied]|e] Ht];
      [|now apply uf_ret].
    eapply uf_bind; [now apply uf_same_fs | intros f _].
    destruct (exiftool_read env temp_file f) as [st stdout] eqn:Hr.
    apply uf_seq; [now apply uf_same_fs|].
    apply uf_seq.
    - destruct was_copied; [|now apply uf_ret].
      destruct Ht as [k Hk]. now apply uf_cleanup with k.
    - apply uf_ret. intros Hfail. specialize (Hfail temp_file f).
      rewrite Hr in Hfail. simpl in Hfail. now destruct st. }
  pose proof (hoare_new_events env not_a_write
                (read_existing_metadata env image_file) w
                (tg_read_existing_metadata env not_a_write not_a_write_other
                   image_file)) as Hev.
  destruct (H w) as [Huf Hm].
  destruct (read_existing_metadata env image_file w) as [m w']. now repeat split.
Qed.

Lemma read_metadata_is_harmless_witness :
  (forall p f, fst (exiftool_read
                      (mkEnv (fun _ => false) access_denied
                         (fun _ _ => (NotInstalled, [])) exiftool_no_clobber) p f)
               <> Exit0)
  /\ fst (read_existing_metadata
            (mkEnv (fun _ => false) access_denied (fun _ _ => (NotInstalled, []))
               exiftool_no_clobber) camera_jpg camera_world) = empty_metadata.
Proof.
  assert (H : forall p f,
             fst (exiftool_read
                    (mkEnv (fun _ => false) access_denied
                       (fun _ _ => (NotInstalled, [])) exiftool_no_clobber) p f)
             <> Exit0)
    by (intros p f; discriminate).
  split; [exact H|].
  pose proof (read_metadata_is_harmless
                (mkEnv (fun _ => false) access_denied (fun _ _ => (NotInstalled, []))
                   exiftool_no_clobber) camera_jpg camera_world) as Hr.
  destruct (read_existing_metadata _ camera_jpg camera_world) as [m w'].
  destruct Hr as (_ & _ & Hm). exact (Hm H).
Defined.

Lemma read_metadata_quiet (env : Env) (image_file : Path) (w w' : World)
    (c : Content) (m : Metadata) :
  os_quiet env ->
  fresh_ahead w ->
  fs w !! image_file = Some c ->
  read_existing_metadata env image_file w = (m, w') ->
  fs w' = fs w /\ tmpdirs w' = tmpdirs w /\ fresh w <= fresh w'
  /\ exists ext, trace w' = trace w ++ ext /\ written_of ext = [].
Proof.
  intros Hq Hfresh Hc Hrun. unfold read_existing_metadata in Hrun.
  destruct (_has_unicode_surrogates (name image_file)) eqn:Hu.
  - destruct (Hfresh (fresh w) (le_n _)) as [Hk Hnone].
    unfold mbind at 1, M_bind at 1 in Hrun.
    rewrite (create_unicode_run env image_file w Hu), Hc, !Hq in Hrun.
    cbv beta iota zeta in Hrun.
    set (q := mkPath (TempDir (fresh w)) (temp_copy_name (S (fresh w)) image_file))
      in *.
    unfold mbind at 1, M_bind at 1, get_fs in Hrun. cbn [fs] in Hrun.
    destruct (exiftool_read env q _) as [st stdout].
    unfold mbind at 1, M_bind at 1, emit in Hrun.
    cbn [fs tmpdirs fresh clock trace] in Hrun.
    unfold mbind at 1, M_bind at 1 in Hrun.
    erewrite (cleanup_run_quiet env q _ c (fresh w) Hq eq_refl) in Hrun.
    + unfold mret, M_ret in Hrun. inversion Hrun; subst.
      cbn [fs tmpdirs fresh trace]. repeat split.
      * apply delete_insert_id, Hnone.
      * now apply fresh_dir_gone.
      * lia.
      * eexists. split; [rewrite <- !app_assoc; reflexivity | reflexivity].
    + apply lookup_insert_eq.
    + cbn [tmpdirs]. apply elem_of_union_l, elem_of_singleton_2. reflexivity.
    + cbn [fs]. rewrite delete_insert_id by apply Hnone. now apply dir_empty_fresh.
  - unfold _create_temp_copy_for_exiftool in Hrun. rewrite Hu in Hrun.
    cbn [negb] in Hrun.
    unfold mbind, M_bind, mret, M_ret, get_fs, emit in Hrun.
    destruct (exiftool_read env image_file (fs w)) as [st stdout].
    inversion Hrun; subst. cbn [fs tmpdirs fresh trace]. repeat split.
    + lia.
    + eexists. split; reflexivity.
Qed.

(** X12: with a quiet file system, reading the metadata of an existing image
    leaves no trace on disk: the files and the temporary directories are the
    same after the call, also when a safe copy had to be made. *)
Theorem read_metadata_leaves_no_residue :
  forall (env : Env) (image_file : Path) (w : World) (c : Content),
    os_quiet env ->
    fresh_ahead w ->
    fs w !! image_file = Some c ->
    let w' := snd (read_existing_metadata env image_file w) in
    fs w' = fs w /\ tmpdirs w' = tmpdirs w.
Proof.
  intros env image_file w c Hq Hfresh Hc.
  destruct (read_existing_metadata env image_file w) as [m w'] eqn:Hrun.
  cbn [snd].
  destruct (read_metadata_quiet env image_file w w' c m Hq Hfresh Hc Hrun)
    as (H1 & H2 & _).
  now split.
Qed.

Lemma read_metadata_leaves_no_residue_witness :
  os_quiet calm_env
  /\ fresh_ahead camera_world
  /\ fs (snd (read_existing_metadata calm_env camera_jpg camera_world))
     = fs camera_world.
Proof.
  assert (Hq : os_quiet calm_env) by (intros n; reflexivity).
  assert (Hf : fresh_ahead camera_world).
  { intros k _. split; [apply not_elem_of_empty|]. intros n.
    unfold camera_world, world_with. simpl.
    rewrite !lookup_insert_ne by discriminate. apply lookup_empty. }
  split; [exact Hq|]. split; [exact Hf|].
  exact (proj1 (read_metadata_leaves_no_residue calm_env camera_jpg camera_world
                  "jpeg data" Hq Hf ltac:(vm_compute; reflexivity))).
Defined.

(** ** What the parser keeps true *)

Lemma mem_true (s : str) (l : list str) : mem s l = true <-> s ∈ l.
Proof. unfold mem. apply bool_decide_eq_true. Qed.

Lemma mem_false (s : str) (l : list str) : mem s l = false <-> s ∉ l.
Proof. unfold mem. apply bool_decide_eq_false. Qed.

Lemma append_new_NoDup (s : str) (l : list str) :
  NoDup l -> NoDup (append_new s l).
Proof.
  intros H. unfold append_new. destruct (mem s l) eqn:Hm; [exact H|].
  apply mem_false in Hm. apply NoDup_app. split; [exact H|]. split.
  - intros x Hx Hin. apply list_elem_of_singleton in Hin. now subst.
  - apply NoDup_singleton.
Qed.

Lemma append_new_Forall (P : str -> Prop) (s : str) (l : list str) :
  Forall P l -> P s -> Forall P (append_new s l).
Proof.
  intros Hl Hs. unfold append_new. destruct (mem s l); [exact Hl|].
  apply Forall_app. split; [exact Hl | now constructor].
Qed.

Lemma contains_char_cons (a c : Z) (s : str) :
  PyStr.contains [a] (c :: s) = Z.eqb a c || PyStr.contains [a] s.
Proof.
  cbn [PyStr.contains PyStr.startswith]. now destruct (Z.eqb a c).
Qed.

Lemma contains_replaced (s : str) :
  PyStr.contains "/" s = true ->
  PyStr.contains "|" (Re.replace_char 0x2F%Z 0x7C%Z s) = true.
Proof.
  induction s as [|c s IH]; [discriminate|].
  cbn [Re.replace_char]. rewrite !contains_char_cons.
  destruct (Z.eqb c 0x2F) eqn:Hc.
  - intros _. reflexivity.
  - rewrite (Z.eqb_sym 0x2F c), Hc. cbn [orb]. intros H.
    rewrite (IH H). apply orb_true_r.
Qed.

Lemma replaced_not_empty (s : str) :
  s <> [] -> Re.replace_char 0x2F%Z 0x7C%Z s <> [].
Proof. destruct s; [congruence | discriminate]. Qed.

(** The tag block leaves the faces alone and keeps the lists duplicate-free
    and well-formed. *)
Lemma tags_of_line_inv (line : str) (m m' : Metadata) :
  tags_of_line line m = Some m' ->
  faces m' = faces m
  /\ (NoDup (existing_tags m) -> NoDup (existing_tags m'))
  /\ (NoDup (hierarchical_subjects m) -> NoDup (hierarchical_subjects m'))
  /\ (Forall tag_ok (existing_tags m) -> Forall tag_ok (existing_tags m'))
  /\ (Forall subject_ok (hierarchical_subjects m) ->
      Forall subject_ok (hierarchical_subjects m')).
Proof.
  unfold tags_of_line.
  destruct (existsb _ tag_fields); [|intros [= <-]; tauto].
  destruct (Re.search_value line) as [g|]; [|intros [= <-]; tauto].
  cbv zeta.
  destruct (PyStr.truthy (PyStr.strip g)) eqn:Ht; cbn [andb];
    [|intros [= <-]; tauto].
  destruct (bool_decide (PyStr.strip g = "(none)")) eqn:Hn; cbn [negb];
    [intros [= <-]; tauto|].
  destruct (Re.four_integers (PyStr.strip g)) eqn:H4; [discriminate|].
  apply PyStrFacts.truthy_true in Ht. apply bool_decide_eq_false in Hn.
  destruct (PyStr.contains "|" (PyStr.strip g)) eqn:Hbar.
  { intros [= <-]. cbn [faces existing_tags hierarchical_subjects].
    repeat split; try tauto.
    - apply append_new_NoDup.
    - intros H. apply append_new_Forall; [exact H | now split]. }
  destruct (PyStr.contains "/" (PyStr.strip g)) eqn:Hsl; cbn [andb].
  - destruct (PyStr.startswith "http" (PyStr.strip g)) eqn:Hh; cbn [negb].
    + intros [= <-]. cbn [faces existing_tags hierarchical_subjects].
      repeat split; try tauto.
      * apply append_new_NoDup.
      * intros H. apply append_new_Forall; [exact H|].
        repeat split; try assumption; [apply strip_idem | congruence].
    + intros [= <-]. cbn [faces existing_tags hierarchical_subjects].
      repeat split; try tauto.
      * apply append_new_NoDup.
      * intros H. apply append_new_Forall; [exact H|].
        split; [now apply replaced_not_empty | now apply contains_replaced].
  - intros [= <-]. cbn [faces existing_tags hierarchical_subjects].
    repeat split; try tauto.
    + apply append_new_NoDup.
    + intros H. apply append_new_Forall; [exact H|].
      repeat split; try assumption; [apply strip_idem | congruence].
Qed.

Lemma set_on_first_keys (k : RegionKey) (v : str) (d : list (str * FaceRegion)) :
  map fst (set_on_first k v d) = map fst d
  /\ (Forall (fun nr => fr_name (snd nr) = fst nr) d ->
      Forall (fun nr => fr_name (snd nr) = fst nr) (set_on_first k v d)).
Proof.
  destruct d as [|[n r] rest]; simpl; [now split|]. split; [reflexivity|].
  intros H. inversion H as [|? ? Hn Hrest]; subst. constructor; [|exact Hrest].
  simpl in *. now destruct k.
Qed.

Lemma region_field_chain_keys (fields : list (str * RegionKey)) (line : str)
    (d : list (str * FaceRegion)) :
  map fst (region_field_chain fields line d) = map fst d
  /\ (Forall (fun nr => fr_name (snd nr) = fst nr) d ->
      Forall (fun nr => fr_name (snd nr) = fst nr) (region_field_chain fields line d)).
Proof.
  induction fields as [|[field key] fields IH]; simpl; [now split|].
  destruct (PyStr.contains field line); [|exact IH].
  destruct (Re.search_field field line); [apply set_on_first_keys | now split].
Qed.

Lemma faces_of_line_inv (line : str) (st : ParseState) :
  parse_inv st -> parse_inv (faces_of_line line st).
Proof.
  intros (H1 & H2 & H3 & H4 & H5 & H6 & H7). unfold faces_of_line.
  destruct (_ || _).
  - destruct (Re.search_region_name line) as [g|]; [|now repeat split].
    destruct (PyStr.truthy (PyStr.strip g)); [|now repeat split].
    destruct (has_name (PyStr.strip g) (face_regions_by_name st)) eqn:Hn;
      [now repeat split|].
    unfold has_name in Hn. rewrite H4 in Hn.
    unfold parse_inv. simpl. unfold append_new. rewrite Hn.
    apply mem_false in Hn. repeat split; try assumption.
    + apply NoDup_app. split; [exact H3|]. split; [|apply NoDup_singleton].
      intros x Hx Hin. apply list_elem_of_singleton in Hin. now subst.
    + now rewrite map_app, H4.
    + apply Forall_app. split; [exact H5 | now constructor].
  - destruct (region_field_chain_keys region_fields line (face_regions_by_name st))
      as [Hk Hf].
    unfold parse_inv. cbn [md face_regions_by_name]. rewrite Hk.
    repeat split; try assumption. now apply Hf.
Qed.

Lemma parse_line_inv (st : ParseState) (line : str) :
  parse_inv st -> parse_inv (parse_line st line).
Proof.
  intros Hinv. unfold parse_line.
  destruct (negb (PyStr.truthy (PyStr.strip line))); [exact Hinv|].
  destruct Hinv as (H1 & H2 & H3 & H4 & H5 & H6 & H7).
  match goal with |- context [tags_of_line ?l ?m] =>
    destruct (tags_of_line l m) as [m'|] eqn:Ht
  end.
  - apply tags_of_line_inv in Ht as (Hf & T1 & T2 & T3 & T4). simpl in *.
    apply faces_of_line_inv. unfold parse_inv. simpl. rewrite Hf.
    repeat split; auto.
  - unfold parse_inv. simpl. now repeat split.
Qed.

Lemma parse_fold_inv (lines : list str) (st : ParseState) :
  parse_inv st -> parse_inv (fold_left parse_line lines st).
Proof.
  revert st. induction lines as [|l ls IH]; intros st H; simpl; [exact H|].
  now apply IH, parse_line_inv.
Qed.

Lemma parse_inv_initial : parse_inv (mkParseState empty_metadata []).
Proof. unfold parse_inv. simpl. repeat split; constructor. Qed.

Lemma map_name_of_regions (d : list (str * FaceRegion)) :
  Forall (fun nr => fr_name (snd nr) = fst nr) d ->
  map fr_name (map snd d) = map fst d.
Proof.
  induction 1 as [|[n r] d Hn _ IH]; [reflexivity|]. simpl in *. now rewrite Hn, IH.
Qed.

(** X13: the parsed record never lists a tag, a hierarchical subject or a
    face twice, whatever the tool printed. *)
Theorem parsed_lists_have_no_duplicates :
  forall (lines : list str),
    let m := parse_lines lines in
    NoDup (existing_tags m) /\ NoDup (hierarchical_subjects m) /\ NoDup (faces m).
Proof.
  intros lines.
  destruct (parse_fold_inv lines _ parse_inv_initial) as (H1 & H2 & H3 & _).
  now repeat split.
Qed.

(** X14: faces and face regions go together: the region records are, in
    order of first appearance, one per face name in [faces], each carrying
    that name. *)
Theorem face_regions_match_faces :
  forall (lines : list str),
    let m := parse_lines lines in
    map fr_name (face_regions m) = faces m
    /\ length (face_regions m) = length (faces m).
Proof.
  intros lines.
  destruct (parse_fold_inv lines _ parse_inv_initial) as (_ & _ & _ & H4 & H5 & _).
  assert (H : map fr_name (face_regions (parse_lines lines))
              = faces (parse_lines lines)).
  { unfold parse_lines. simpl. now rewrite map_name_of_regions, H4. }
  split; [exact H|]. rewrite <- H. now rewrite length_map.
Qed.

(** X15: the tag values are sorted into the two lists by their shape: an
    existing tag is trimmed, not empty, not ["(none)"], not four integers,
    has no [|], and has a [/] only when it starts with ["http"]; a
    hierarchical subject always has a [|]. *)
Theorem parsed_tags_are_classified :
  forall (lines : list str),
    let m := parse_lines lines in
    Forall tag_ok (existing_tags m) /\ Forall subject_ok (hierarchical_subjects m).
Proof.
  intros lines.
  destruct (parse_fold_inv lines _ parse_inv_initial) as (_ & _ & _ & _ & _ & H6 & H7).
  now split.
Qed.

Lemma parse_line_blank (st : ParseState) (line : str) :
  PyStr.all_space line = true -> parse_line st line = st.
Proof.
  intros H. unfold parse_line. now rewrite PyStrFacts.truthy_strip, H.
Qed.

(** X16: blank lines do not matter: dropping every empty or whitespace-only
    line from the tool's output gives the same record. *)
Theorem blank_lines_are_ignored :
  forall (lines : list str),
    parse_lines (List.filter (fun l => negb (PyStr.all_space l)) lines)
    = parse_lines lines.
Proof.
  intros lines. unfold parse_lines.
  assert (H : forall st,
             fold_left parse_line
               (List.filter (fun l => negb (PyStr.all_space l)) lines) st
             = fold_left parse_line lines st).
  { induction lines as [|l ls IH]; intros st; [reflexivity|]. simpl.
    destruct (PyStr.all_space l) eqn:Hl; simpl.
    - now rewrite (parse_line_blank st l Hl).
    - apply IH. }
  now rewrite H.
Qed.

(** ** More on the signals of a run *)

Lemma log_lines_app (s1 s2 : list Signal) :
  log_lines (s1 ++ s2) = log_lines s1 ++ log_lines s2.
Proof.
  induction s1 as [|x s1 IH]; [reflexivity|].
  destruct x; simpl; rewrite IH; [apply app_assoc | | |]; reflexivity.
Qed.

Lemma consume_logs (format_type : str) (total : nat)
    (r : Image * bool * option str) (st : RunState) :
  log_lines (signals (consume format_type total r st))
  ++ log_batch (consume format_type total r st)
  = (log_lines (signals st) ++ log_batch st) ++ [line_of format_type r].
Proof.
  destruct r as [[image success] error]. unfold consume, line_of. cbv zeta.
  destruct success; cbv beta iota;
    match goal with |- context [if ?b then _ else _] => destruct b end;
    cbn [signals log_batch]; rewrite ?log_lines_app; simpl;
    rewrite ?app_nil_r, <- ?app_assoc; reflexivity.
Qed.

Lemma fold_consume_logs (format_type : str) (total : nat)
    (rs : list (Image * bool * option str)) (st : RunState) :
  let st' := fold_left (fun st r => consume format_type total r st) rs st in
  log_lines (signals st') ++ log_batch st'
  = (log_lines (signals st) ++ log_batch st) ++ map (line_of format_type) rs.
Proof.
  revert st. induction rs as [|r rs IH]; intros st; simpl.
  - now rewrite app_nil_r.
  - rewrite IH, consume_logs, <- app_assoc. reflexivity.
Qed.

(** X20: no log line is lost: the batched log signals of a run carry, in
    order, exactly one line for every result the loop consumed, also when the
    run is cancelled between two flushes. *)
Theorem every_consumed_result_is_logged :
  forall (env : Env) (read_file : str -> FileRead) (files : list Image)
         (format_type : str) (overwrite : bool) (blacklist_file : option str)
         (custom : option (list str)) (order : list (Image * World))
         (stop : option nat),
    let blacklist := _load_blacklist read_file blacklist_file custom in
    let results := map (process_single_image env blacklist format_type overwrite) order in
    log_lines (run env read_file files format_type overwrite blacklist_file custom
                 order stop)
    = map (line_of format_type) (seen stop results).
Proof.
  intros env read_file files format_type overwrite blacklist_file custom order stop
         blacklist results.
  destruct (run_final_state env read_file files format_type overwrite blacklist_file
              custom order stop) as (st & Hst & Hrun).
  fold blacklist results in Hst. rewrite Hrun. clear Hrun.
  pose proof (fold_consume_logs format_type (length files) (seen stop results)
                initial_run_state) as Hlogs.
  cbv zeta in Hlogs. rewrite <- Hst in Hlogs. simpl in Hlogs. rewrite <- Hlogs.
  rewrite !log_lines_app. f_equal.
  destruct (successful_images st); destruct (log_batch st); simpl;
    rewrite ?app_nil_r; reflexivity.
Qed.

(** X21: every run ends with exactly one [generation_finished] signal, its
    last signal, whether it completed, failed on every image or was
    cancelled; and [sidecars_generated] is emitted once, with the images that
    succeeded in the order they completed, or not at all when none did. *)
Theorem terminal_signal_always_fires :
  forall (env : Env) (read_file : str -> FileRead) (files : list Image)
         (format_type : str) (overwrite : bool) (blacklist_file : option str)
         (custom : option (list str)) (order : list (Image * World))
         (stop : option nat),
    let blacklist := _load_blacklist read_file blacklist_file custom in
    let results := map (process_single_image env blacklist format_type overwrite) order in
    let successes := map image_of (List.filter success_of (seen stop results)) in
    exists pre p e,
      run env read_file files format_type overwrite blacklist_file custom order stop
      = pre ++ [generation_finished p e (match stop with Some _ => true | None => false end)]
      /\ List.filter is_finished pre = []
      /\ List.filter is_generated pre
         = match successes with [] => [] | _ => [sidecars_generated successes] end.
Proof.
  intros env read_file files format_type overwrite blacklist_file custom order stop
         blacklist results successes.
  destruct (run_final_state env read_file files format_type overwrite blacklist_file
              custom order stop) as (st & Hst & Hrun).
  fold blacklist results in Hst.
  destruct (fold_consume_counts format_type (length files) (seen stop results)
              initial_run_state) as (_ & _ & _ & Hs).
  destruct (fold_consume_signals format_type (length files) (seen stop results)
              initial_run_state) as (ext & Hsig & Hfl & _).
  cbv zeta in Hs, Hsig. rewrite <- Hst in Hs, Hsig. simpl in Hs, Hsig.
  fold successes in Hs.
  assert (Hext : List.filter is_finished ext = [] /\ List.filter is_generated ext = []).
  { clear -Hfl. induction ext as [|x ext IH]; [now split|]. simpl in Hfl.
    apply andb_prop in Hfl as [Hx Hfl]. destruct (IH Hfl) as [I1 I2].
    destruct x; try discriminate; simpl; now split. }
  destruct Hext as [He1 He2].
  eexists _, _, _. rewrite Hrun, !app_assoc. split; [reflexivity|].
  rewrite Hsig, Hs, !List.filter_app, He1, He2.
  destruct successes; destruct (log_batch st); simpl; now split.
Qed.

(** X22: progress signals under cancellation: whenever [stop()] takes effect,
    the progress signals of a run are exactly those of the counts, among the
    results consumed, that are multiples of 50 or the full batch size; so no
    progress is reported beyond what was consumed. *)
Theorem progress_stops_with_cancellation :
  forall (env : Env) (read_file : str -> FileRead) (files : list Image)
         (format_type : str) (overwrite : bool) (blacklist_file : option str)
         (custom : option (list str)) (order : list (Image * World))
         (stop : option nat),
    let s := run env read_file files format_type overwrite blacklist_file custom
               order stop in
    progress_counts s
    = List.filter (flushes_at (length files)) (seq 1 (consumed stop order))
    /\ Forall (fun c => 1 <= c <= consumed stop order) (progress_counts s).
Proof.
  intros env read_file files format_type overwrite blacklist_file custom order stop s.
  destruct (run_final_state env read_file files format_type overwrite blacklist_file
              custom order stop) as (st & Hst & Hrun).
  fold s in Hrun.
  set (results := map (process_single_image env
                         (_load_blacklist read_file blacklist_file custom)
                         format_type overwrite) order) in *.
  destruct (fold_consume_signals format_type (length files) (seen stop results)
              initial_run_state) as (ext & Hsig & _ & _ & Hpc & _).
  cbv zeta in Hsig. rewrite <- Hst in Hsig. simpl in Hsig.
  change (completed initial_run_state) with 0 in Hpc.
  assert (Hlen : length (seen stop results) = consumed stop order).
  { unfold consumed. apply seen_length. subst results. apply length_map. }
  rewrite Hlen in Hpc.
  assert (H : progress_counts s
              = List.filter (flushes_at (length files)) (seq 1 (consumed stop order))).
  { rewrite Hrun, Hsig, progress_counts_app, Hpc.
    destruct (successful_images st); destruct (log_batch st); simpl;
      now rewrite app_nil_r. }
  split; [exact H|]. rewrite H. apply Forall_forall. intros c Hc.
  apply list_elem_of_In, filter_In in Hc as [Hc _]. apply in_seq in Hc. lia.
Qed.

(** ** What the widget hands to the thread *)

Lemma py_index_elem {A} (l : list A) (i : Z) (x : A) : py_index l i = Some x -> x ∈ l.
Proof.
  unfold py_index. destruct (0 <=? i)%Z; [apply list_elem_of_lookup_2|].
  destruct (_ <=? i)%Z; [apply list_elem_of_lookup_2 | discriminate].
Qed.

Lemma select_images_elem (imgs : list ListedImage) (selected : list Z)
    (files : list ListedImage) :
  select_images imgs selected = Some files ->
  Forall (fun f => f ∈ imgs) files /\ length files <= length selected.
Proof.
  revert files. induction selected as [|i rest IH]; intros files; simpl.
  - intros [= <-]. split; [apply List.Forall_nil | simpl; lia].
  - destruct (i <? Z.of_nat (length imgs))%Z.
    + destruct (py_index imgs i) as [img|] eqn:Hi; [|discriminate].
      destruct (select_images imgs rest) as [fs'|]; [|discriminate].
      intros [= <-]. destruct (IH fs' eq_refl) as [H1 H2]. split.
      * constructor; [now apply py_index_elem with i | exact H1].
      * simpl. lia.
    + intros H. destruct (IH files H) as [H1 H2]. split; [exact H1 | lia].
Qed.

Lemma select_images_nonneg (imgs : list ListedImage) (selected : list Z) :
  Forall (fun i => (0 <= i)%Z) selected -> is_Some (select_images imgs selected).
Proof.
  induction 1 as [|i rest Hi _ IH]; simpl; [eauto|].
  destruct (i <? Z.of_nat (length imgs))%Z eqn:Hlt; [|exact IH].
  apply Z.ltb_lt in Hlt. unfold py_index.
  rewrite (proj2 (Z.leb_le 0 i) Hi).
  destruct (lookup_lt_is_Some_2 imgs (Z.to_nat i) ltac:(lia)) as [img ->].
  destruct IH as [fs' ->]. eauto.
Qed.

Lemma filter_Forall_true {A} (f : A -> bool) (l : list A) :
  Forall (fun x => f x = true) (List.filter f l).
Proof.
  apply Forall_forall. intros x Hx. now apply list_elem_of_In, filter_In in Hx.
Qed.

Lemma filter_length_le {A} (f : A -> bool) (l : list A) :
  length (List.filter f l) <= length l.
Proof. induction l as [|x l IH]; simpl; [lia|]. destruct (f x); simpl; lia. Qed.

Lemma filter_all {A} (f : A -> bool) (l : list A) :
  Forall (fun x => f x = true) l -> List.filter f l = l.
Proof.
  induction 1 as [|x l Hx _ IH]; [reflexivity|]. simpl. now rewrite Hx, IH.
Qed.

(** X23: what [generate_sidecars] asks the user to confirm and hands to the
    thread: at least one image, every one of them taken from the model's
    list and with at least one tag; the format is always ["xmp"]; the number
    of sidecars announced never exceeds the number of images, and equals it
    when overwriting is on or only images without sidecars are processed.  A
    selection of non-negative indices never raises: indices past the end are
    skipped. *)
Theorem widget_hands_over_tagged_images :
  forall (ws : WidgetState),
    (forall n m args,
        generate_sidecars ws = Confirm n m args ->
        n = length (ta_files args) /\ 1 <= n /\ m <= n
        /\ Forall (fun img => tags img <> []) (ta_files args)
        /\ Forall (fun img => exists li, li ∈ images ws /\ listed li = img)
             (ta_files args)
        /\ ta_format_type args = "xmp"
        /\ ta_overwrite args = overwrite_checked ws
        /\ (overwrite_checked ws = true \/ only_no_sidecars ws = true -> m = n))
    /\ (Forall (fun i => (0 <= i)%Z) (selected_image_indices ws) ->
        generate_sidecars ws <> IndexError).
Proof.
  intros ws. split.
  - intros n m args. unfold generate_sidecars.
    destruct (_get_files_to_process ws) as [files|] eqn:Hg; [|discriminate].
    destruct (List.filter has_tags files) as [|f fs'] eqn:Hf; [discriminate|].
    cbv zeta. rewrite <- Hf. set (fwt := List.filter has_tags files) in *.
    intros H. injection H as Hn Hm Ha. subst n m args.
    cbn [ta_files ta_format_type ta_overwrite]. rewrite length_map.
    assert (Hin : Forall (fun li => li ∈ images ws) files
                  /\ (only_no_sidecars ws = true ->
                      Forall (fun li => negb (has_xmp li) = true) files)).
    { unfold _get_files_to_process in Hg. destruct (images ws) as [|i0 is0] eqn:Hi.
      - injection Hg as <-. split; [constructor | intros _; constructor].
      - destruct (select_images (i0 :: is0) (selected_image_indices ws))
          as [sel|] eqn:Hs; [|discriminate].
        apply select_images_elem in Hs as [Hs _]. injection Hg as <-.
        destruct (only_no_sidecars ws).
        + split; [|intros _; apply filter_Forall_true].
          apply Forall_forall. intros x Hx.
          apply list_elem_of_In, filter_In in Hx as [Hx _].
          rewrite Forall_forall in Hs. now apply Hs, list_elem_of_In.
        + split; [exact Hs | discriminate]. }
    destruct Hin as [Hin Hno].
    assert (Hsub : forall li, li ∈ fwt -> li ∈ files /\ has_tags li = true).
    { intros li Hli. subst fwt. apply list_elem_of_In, filter_In in Hli.
      now rewrite list_elem_of_In. }
    split; [reflexivity|]. split; [rewrite Hf; simpl; lia|]. split.
    { destruct (overwrite_checked ws); [lia | apply filter_length_le]. }
    split.
    { apply Forall_forall. intros img Himg.
      apply list_elem_of_fmap in Himg as (li & -> & Hli).
      apply Hsub in Hli as [_ Ht]. unfold has_tags in Ht.
      now destruct (tags (listed li)). }
    split.
    { apply Forall_forall. intros img Himg.
      apply list_elem_of_fmap in Himg as (li & -> & Hli).
      exists li. split; [|reflexivity]. rewrite Forall_forall in Hin.
      now apply Hin, Hsub. }
    split; [reflexivity|]. split; [reflexivity|].
    intros [Ho | Hn]; [now rewrite Ho|].
    destruct (overwrite_checked ws); [reflexivity|]. f_equal.
    apply filter_all. apply Forall_forall. intros li Hli.
    specialize (Hno Hn). rewrite Forall_forall in Hno. now apply Hno, Hsub.
  - intros Hnn. unfold generate_sidecars, _get_files_to_process.
    destruct (images ws) as [|i0 is0].
    + simpl. discriminate.
    + destruct (select_images_nonneg (i0 :: is0) _ Hnn) as [sel ->].
      destruct (List.filter has_tags _); discriminate.
Qed.

Lemma widget_hands_over_tagged_images_witness :
  Forall (fun i => (0 <= i)%Z) (selected_image_indices sample_widget)
  /\ generate_sidecars sample_widget <> IndexError.
Proof.
  assert (H : Forall (fun i => (0 <= i)%Z) (selected_image_indices sample_widget))
    by (repeat constructor; discriminate).
  split; [exact H|].
  exact (proj2 (widget_hands_over_tagged_images sample_widget) H).
Defined.

Lemma elem_of_text_lines (text t : str) :
  t ∈ text_lines text <->
  exists line, line ∈ Re.split_lines text
               /\ PyStr.strip line <> [] /\ t = PyStr.strip line.
Proof.
  unfold text_lines. rewrite list_elem_of_In, in_map_iff. split.
  - intros (l & <- & Hl). apply filter_In in Hl as [Hin Ht].
    exists l. split; [now apply list_elem_of_In|].
    split; [now apply PyStrFacts.truthy_true | reflexivity].
  - intros (l & Hin & Hne & ->). exists l. split; [reflexivity|].
    apply filter_In. split; [now apply list_elem_of_In|].
    now apply PyStrFacts.truthy_true.
Qed.

(** X24: the blacklist the thread builds from the widget's settings.  With
    'Use blacklist' off it is empty, whatever the text box holds, so only
    blank tags are dropped; with it on, no blacklist file is read and the
    blacklist holds exactly the built-in entries and the lowercased, trimmed
    non-blank lines of the text box. *)
Theorem widget_blacklist_settings :
  forall (ws : WidgetState) (n m : nat) (args : ThreadArgs)
         (read_file : str -> FileRead),
    generate_sidecars ws = Confirm n m args ->
    let blacklist := _load_blacklist read_file (ta_blacklist_file args)
                       (ta_custom_blacklist_tags args) in
    (use_blacklist ws = false ->
     blacklist = ∅
     /\ forall tags, filter_tags blacklist tags
                     = List.filter (fun t => negb (PyStr.all_space t)) tags)
    /\ (use_blacklist ws = true ->
        forall x,
          x ∈ blacklist <->
          x ∈ default_blacklist_list
          \/ exists line,
               line ∈ Re.split_lines (PyStr.strip (custom_blacklist_text ws))
               /\ PyStr.strip line <> []
               /\ x = PyStr.lower (PyStr.strip line)).
Proof.
  intros ws n m args read_file. unfold generate_sidecars.
  destruct (_get_files_to_process ws) as [files|]; [|discriminate].
  destruct (List.filter has_tags files) as [|f fs']; [discriminate|].
  intros [= <- <- <-]. cbn [ta_blacklist_file ta_custom_blacklist_tags].
  split.
  - intros ->. split; [reflexivity|]. intros tags.
    change (_load_blacklist read_file (Some "DISABLED") None) with (∅ : gset str).
    rewrite filter_tags_filter. apply filter_ext. intros t.
    apply keeps_empty_blacklist.
  - intros -> x. rewrite load_blacklist_enabled by discriminate.
    change (file_blacklist (file_lines read_file None)) with (∅ : gset str).
    rewrite union_empty_r_L, elem_of_union, elem_of_custom_tags.
    unfold default_blacklist. rewrite elem_of_list_to_set.
    split.
    + intros [H | (t & Ht & Hne & ->)]; [now left|]. right.
      destruct (PyStr.truthy (PyStr.strip (custom_blacklist_text ws)));
        [|simpl in Ht; now apply not_elem_of_nil in Ht].
      simpl in Ht. apply elem_of_text_lines in Ht as (line & Hl & Hs & ->).
      exists line. rewrite strip_idem. now repeat split.
    + intros [H | (line & Hl & Hs & ->)]; [now left|]. right.
      exists (PyStr.strip line). rewrite strip_idem.
      split; [|now split].
      destruct (PyStr.truthy (PyStr.strip (custom_blacklist_text ws))) eqn:Ht.
      * simpl. apply elem_of_text_lines. eauto.
      * destruct (PyStr.strip (custom_blacklist_text ws)); [|discriminate].
        simpl in Hl.
        apply list_elem_of_singleton in Hl. subst line. now contradiction Hs.
Qed.

Lemma widget_blacklist_settings_witness :
  (exists n m args,
      generate_sidecars sample_widget = Confirm n m args
      /\ "lens flare" ∈ _load_blacklist (fun _ => NotFound) (ta_blacklist_file args)
                          (ta_custom_blacklist_tags args)).
Proof.
  destruct (generate_sidecars sample_widget) as [| |n m args] eqn:Hg;
    try (vm_compute in Hg; discriminate).
  exists n, m, args. split; [reflexivity|].
  apply (proj2 (widget_blacklist_settings sample_widget n m args (fun _ => NotFound) Hg)
           eq_refl).
  right. exists "Lens Flare". split; [|split].
  - apply list_elem_of_In. vm_compute. tauto.
  - vm_compute. discriminate.
  - vm_compute. reflexivity.
Defined.

(** ** A whole call on a quiet file system *)

(** ** A whole call on a quiet file system *)

(** ** A whole call on a quiet file system *)

Lemma move_run_quiet (env : Env) (src dst : Path) (w : World) (x : Content) :
  os_quiet env ->
  fs w !! src = Some x ->
  move env src dst w
  = (true, mkWorld (<[dst := x]> (delete src (fs w))) (tmpdirs w) (fresh w)
             (S (clock w)) (trace w ++ [EvMove src dst true])).
Proof.
  intros Hq Hx. unfold move.
  unfold mbind, M_bind, emit, put_fs, get_fs, tick, mret, M_ret.
  cbn [fs tmpdirs fresh clock trace]. now rewrite Hx, Hq.
Qed.

Lemma rmdir_run_quiet (env : Env) (k : nat) (w : World) :
  os_quiet env ->
  k ∈ tmpdirs w ->
  dir_empty (fs w) k = true ->
  rmdir env k w
  = (true, mkWorld (fs w) (tmpdirs w ∖ {[k]}) (fresh w) (S (clock w))
             (trace w ++ [EvRmdir k true])).
Proof.
  intros Hq Hk He. unfold rmdir.
  unfold mbind, M_bind, emit, get_tmpdirs, put_tmpdirs, get_fs, tick, mret, M_ret.
  cbn [fs tmpdirs fresh clock trace].
  now rewrite Hq, (bool_decide_eq_true_2 _ Hk), He.
Qed.

Lemma unlink_run_quiet (env : Env) (p : Path) (w : World) (x : Content) :
  os_quiet env ->
  fs w !! p = Some x ->
  unlink env p w
  = (true, mkWorld (delete p (fs w)) (tmpdirs w) (fresh w) (S (clock w))
             (trace w ++ [EvUnlink p true])).
Proof. intros Hq Hx. now rewrite (unlink_run env p w x Hx), Hq. Qed.

Ltac run_step :=
  unfold mbind, M_bind, mret, M_ret, emit, get_fs, put_fs, tick, next_fresh,
    get_tmpdirs, put_tmpdirs in *;
  cbn [fs tmpdirs fresh clock trace fst snd orb negb andb] in *.

Lemma fresh_ahead_later (w : World) (k : nat) (n : Name) :
  fresh_ahead w -> fresh w <= k -> fs w !! mkPath (TempDir k) n = None.
Proof. intros H Hk. now apply H. Qed.

Lemma two_dirs_gone (k1 k2 : nat) (T : gset nat) :
  k1 ∉ T -> k2 ∉ T -> ({[k2]} ∪ ({[k1]} ∪ T)) ∖ {[k1]} ∖ {[k2]} = T.
Proof.
  intros H1 H2. apply set_eq. intros x.
  rewrite !elem_of_difference, !elem_of_union, !elem_of_singleton.
  split; [intros [[[->|[->|H]] Hx1] Hx2]; try contradiction; exact H |].
  intros H. repeat split; [right; now right | intros ->; contradiction
                          | intros ->; contradiction].
Qed.

Ltac look :=
  repeat first
    [ rewrite lookup_insert_eq | rewrite lookup_delete_eq
    | rewrite lookup_insert_ne by congruence
    | rewrite lookup_delete_ne by congruence ].

Ltac fs_eq q out dest :=
  apply map_eq; intros p;
  destruct (decide (p = q)) as [->|?];
  [|destruct (decide (p = out)) as [->|?];
    [|destruct (decide (p = dest)) as [->|?]]];
  look; congruence.

Lemma write_sidecar_unicode_quiet (env : Env) (image_file : Path)
    (tags : list str) (w w' : World) (r : Outcome) (c : Content) (d : str) :
  os_quiet env ->
  fresh_ahead w ->
  _has_unicode_surrogates (name image_file) = true ->
  fs w !! image_file = Some c ->
  parent image_file = UserDir d ->
  write_sidecar env image_file tags w = (r, w') ->
  exists wr ext,
    trace w' = trace w ++ ext
    /\ written_of ext = [wr]
    /\ fs w' = match wr with
               | Some x => <[sidecar_of image_file := x]> (fs w)
               | None => fs w
               end
    /\ tmpdirs w' = tmpdirs w.
Proof.
  intros Hq Hfresh Hu Hc Hd Hrun.
  unfold write_sidecar in Hrun.
  unfold mbind at 1, M_bind at 1 in Hrun.
  rewrite (create_unicode_run env image_file w Hu), Hc, !Hq in Hrun.
  cbv beta iota zeta in Hrun. unfold sidecar_output in Hrun.
  rewrite orb_true_r in Hrun.
  set (q := mkPath (TempDir (fresh w)) (temp_copy_name (S (fresh w)) image_file)) in *.
  unfold mkdtemp, run_exiftool_write in Hrun. run_step.
  rewrite Hq in Hrun. run_step. cbv beta iota in Hrun.
  set (out := mkPath (TempDir (S (S (fresh w))))
                ("temp_" ++ uuid_hex (S (S (S (fresh w)))) ++ ".xmp")) in *.
  set (dest := sidecar_of image_file) in *.
  assert (Hqo : q <> out) by (intros H; inversion H; lia).
  assert (Hqd : q <> dest) by (intros H; unfold dest, sidecar_of in H; inversion H; congruence).
  assert (Hod : out <> dest) by (intros H; unfold dest, sidecar_of in H; inversion H; congruence).
  assert (Hq0 : fs w !! q = None) by (apply fresh_ahead_later; [exact Hfresh | lia]).
  assert (Ho0 : fs w !! out = None) by (apply fresh_ahead_later; [exact Hfresh | lia]).
  destruct (Hfresh (fresh w) ltac:(lia)) as [Hk1 Hn1].
  destruct (Hfresh (S (S (fresh w))) ltac:(lia)) as [Hk2 Hn2].
  assert (Hdir1 : forall (f : gmap Path Content),
             (forall p, p <> q -> p <> out -> p <> dest -> f !! p = fs w !! p) ->
             dir_empty (delete q f) (fresh w) = true).
  { intros f Hf. apply dir_empty_fresh. intros n.
    set (p := mkPath (TempDir (fresh w)) n).
    destruct (decide (p = q)) as [->|Hne]; [apply lookup_delete_eq|].
    rewrite lookup_delete_ne by congruence. rewrite Hf; [apply Hn1|exact Hne| |].
    - intros Hp; inversion Hp; lia.
    - intros Hp; unfold dest, sidecar_of in Hp; inversion Hp; congruence. }
  assert (Hdir2 : forall (f : gmap Path Content),
             f !! out = None ->
             (forall p, p <> q -> p <> out -> p <> dest -> f !! p = fs w !! p) ->
             dir_empty f (S (S (fresh w))) = true).
  { intros f Ho Hf. apply dir_empty_fresh. intros n.
    set (p := mkPath (TempDir (S (S (fresh w)))) n).
    destruct (decide (p = out)) as [->|Hne]; [exact Ho|].
    rewrite Hf; [apply Hn2| |exact Hne|].
    - intros Hp; inversion Hp; lia.
    - intros Hp; unfold dest, sidecar_of in Hp; inversion Hp; congruence. }
  assert (Hin1 : fresh w ∈ ({[S (S (fresh w))]} ∪ ({[fresh w]} ∪ tmpdirs w) : gset nat)).
  { rewrite !elem_of_union, !elem_of_singleton. right. now left. }
  assert (Hin2 : S (S (fresh w))
            ∈ ({[S (S (fresh w))]} ∪ ({[fresh w]} ∪ tmpdirs w)) ∖ {[fresh w]}).
  { rewrite elem_of_difference, elem_of_union, !elem_of_singleton.
    split; [now left | lia]. }
  destruct (exiftool_write env (exiftool_cmd q out tags) (<[q:=c]> (fs w)))
    as [st written].
  set (wr := match st with NotInstalled => None | _ => written end) in *.
  exists wr. destruct wr as [x|] eqn:Hwr; run_step.
  - unfold move_to_final in Hrun.
    rewrite (bool_decide_eq_true_2 _ Hod) in Hrun.
    unfold path_exists in Hrun. run_step.
    rewrite lookup_insert_eq in Hrun.
    rewrite (bool_decide_eq_true_2 (is_Some (Some x))) in Hrun by eauto.
    cbn [fs] in Hrun.
    rewrite (lookup_insert_ne _ out dest), (lookup_insert_ne _ q dest) in Hrun
      by assumption.
    destruct (fs w !! dest) as [old|] eqn:Hdest.
    + rewrite (bool_decide_eq_true_2 (is_Some (Some old))) in Hrun by eauto.
      rewrite (unlink_run_quiet env dest _ old Hq) in Hrun
        by (cbn [fs]; now rewrite !lookup_insert_ne by congruence).
      cbn [fs tmpdirs fresh clock trace] in Hrun.
      rewrite (move_run_quiet env out dest _ x Hq) in Hrun
        by (cbn [fs]; rewrite lookup_delete_ne by congruence; apply lookup_insert_eq).
      cbn [fs tmpdirs fresh clock trace] in Hrun.
      rewrite (cleanup_run_quiet env q _ c (fresh w) Hq eq_refl) in Hrun;
        [| cbn [fs]; look; reflexivity | exact Hin1
         | cbn [fs]; apply Hdir1; intros p ? ? ?; look; reflexivity ].
      cbn [fs tmpdirs fresh clock trace] in Hrun.
      rewrite (bool_decide_eq_true_2 _ Hin2) in Hrun.
      rewrite (rmdir_run_quiet env _ _ Hq) in Hrun;
        [| exact Hin2
         | cbn [fs]; apply Hdir2; [look; reflexivity | intros p ? ? ?; look; reflexivity] ].
      cbn [fs tmpdirs fresh clock trace] in Hrun.
      injection Hrun as _ <-. cbn [fs tmpdirs fresh clock trace].
      eexists. repeat split;
        [rewrite <- !app_assoc; reflexivity | reflexivity | fs_eq q out dest
        | now apply two_dirs_gone].
    + rewrite (bool_decide_eq_false_2 (is_Some None)) in Hrun
        by (intros [? ?]; discriminate).
      rewrite (move_run_quiet env out dest _ x Hq) in Hrun
        by (cbn [fs]; apply lookup_insert_eq).
      cbn [fs tmpdirs fresh clock trace] in Hrun.
      rewrite (cleanup_run_quiet env q _ c (fresh w) Hq eq_refl) in Hrun;
        [| cbn [fs]; look; reflexivity | exact Hin1
         | cbn [fs]; apply Hdir1; intros p ? ? ?; look; reflexivity ].
      cbn [fs tmpdirs fresh clock trace] in Hrun.
      rewrite (bool_decide_eq_true_2 _ Hin2) in Hrun.
      rewrite (rmdir_run_quiet env _ _ Hq) in Hrun;
        [| exact Hin2
         | cbn [fs]; apply Hdir2; [look; reflexivity | intros p ? ? ?; look; reflexivity] ].
      cbn [fs tmpdirs fresh clock trace] in Hrun.
      injection Hrun as _ <-. cbn [fs tmpdirs fresh clock trace].
      eexists. repeat split;
        [rewrite <- !app_assoc; reflexivity | reflexivity | fs_eq q out dest
        | now apply two_dirs_gone].
  - unfold move_to_final in Hrun.
    rewrite (bool_decide_eq_true_2 _ Hod) in Hrun.
    unfold path_exists in Hrun. run_step.
    rewrite (lookup_insert_ne _ q out), Ho0 in Hrun by assumption.
    rewrite (bool_decide_eq_false_2 (is_Some None)) in Hrun
      by (intros [? ?]; discriminate).
    rewrite (cleanup_run_quiet env q _ c (fresh w) Hq eq_refl) in Hrun;
      [| cbn [fs]; look; reflexivity | exact Hin1
       | cbn [fs]; apply Hdir1; intros p ? ? ?; look; reflexivity ].
    cbn [fs tmpdirs fresh clock trace] in Hrun.
    rewrite (bool_decide_eq_true_2 _ Hin2) in Hrun.
    rewrite (rmdir_run_quiet env _ _ Hq) in Hrun;
      [| exact Hin2
       | cbn [fs]; apply Hdir2; [look; exact Ho0 | intros p ? ? ?; look; reflexivity] ].
    cbn [fs tmpdirs fresh clock trace] in Hrun.
    injection Hrun as _ <-. cbn [fs tmpdirs fresh clock trace].
    eexists. repeat split;
      [rewrite <- !app_assoc; reflexivity | reflexivity | fs_eq q out dest
      | now apply two_dirs_gone].
Qed.

Lemma write_sidecar_plain_quiet (env : Env) (image_file : Path)
    (tags : list str) (w w' : World) (r : Outcome) :
  _has_unicode_surrogates (name image_file) = false ->
  write_sidecar env image_file tags w = (r, w') ->
  exists wr ext,
    trace w' = trace w ++ ext
    /\ written_of ext = [wr]
    /\ fs w' = match wr with
               | Some x => <[sidecar_of image_file := x]> (fs w)
               | None => fs w
               end
    /\ tmpdirs w' = tmpdirs w.
Proof.
  intros Hu Hrun. unfold write_sidecar in Hrun.
  unfold _create_temp_copy_for_exiftool in Hrun.
  rewrite Hu, (plain_image_plain_sidecar image_file Hu) in Hrun.
  unfold sidecar_output in Hrun.
  cbn [negb orb] in Hrun. unfold run_exiftool_write, move_to_final in Hrun.
  run_step. cbv beta iota zeta in Hrun.
  rewrite (bool_decide_eq_false_2 (sidecar_of image_file ≠ sidecar_of image_file))
    in Hrun by (intros H; now apply H).
  run_step.
  destruct (exiftool_write env _ (fs w)) as [st written].
  set (wr := match st with NotInstalled => None | _ => written end) in *.
  exists wr. destruct wr as [x|]; run_step;
    injection Hrun as _ <-; cbn [fs tmpdirs fresh clock trace];
    eexists; repeat split; reflexivity.
Qed.

Lemma write_sidecar_quiet (env : Env) (image_file : Path)
    (tags : list str) (w w' : World) (r : Outcome) (c : Content) (d : str) :
  os_quiet env ->
  fresh_ahead w ->
  fs w !! image_file = Some c ->
  parent image_file = UserDir d ->
  write_sidecar env image_file tags w = (r, w') ->
  exists wr ext,
    trace w' = trace w ++ ext
    /\ written_of ext = [wr]
    /\ fs w' = match wr with
               | Some x => <[sidecar_of image_file := x]> (fs w)
               | None => fs w
               end
    /\ tmpdirs w' = tmpdirs w.
Proof.
  intros Hq Hfresh Hc Hd Hrun.
  destruct (_has_unicode_surrogates (name image_file)) eqn:Hu.
  - now apply (write_sidecar_unicode_quiet env image_file tags w w' r c d).
  - now apply (write_sidecar_plain_quiet env image_file tags w w' r).
Qed.

Lemma written_of_app (l1 l2 : list Event) :
  written_of (l1 ++ l2) = written_of l1 ++ written_of l2.
Proof.
  induction l1 as [|e l1 IH]; [reflexivity|].
  destruct e; cbn [app written_of]; now rewrite ?IH.
Qed.

Lemma new_events_ext (w w' : World) (ext : list Event) :
  trace w' = trace w ++ ext -> new_events w w' = ext.
Proof. intros H. unfold new_events. now rewrite H, drop_app_length. Qed.

Lemma fresh_ahead_same (w w' : World) :
  fresh_ahead w ->
  (forall p, fs w !! p = None -> fs w' !! p = None) ->
  tmpdirs w' = tmpdirs w -> fresh w <= fresh w' ->
  fresh_ahead w'.
Proof.
  intros H Hf Ht Hle k Hk. destruct (H k ltac:(lia)) as [H1 H2].
  split; [now rewrite Ht | intros n; apply Hf, H2].
Qed.

(** The part of [generate_sidecar] after the old sidecar was dealt with. *)
Lemma read_then_write_quiet (env : Env) (image_file : Path) (tags : list str)
    (is_xmp : bool) (w w' : World) (r : Outcome) (c : Content) (d : str) :
  os_quiet env ->
  fresh_ahead w ->
  fs w !! image_file = Some c ->
  parent image_file = UserDir d ->
  (read_existing_metadata env image_file;;
   if is_xmp then write_sidecar env image_file tags else mret (Returned false)) w
  = (r, w') ->
  tmpdirs w' = tmpdirs w
  /\ exists ext,
       trace w' = trace w ++ ext
       /\ if is_xmp
          then exists wr,
                 written_of ext = [wr]
                 /\ fs w' = match wr with
                            | Some x => <[sidecar_of image_file := x]> (fs w)
                            | None => fs w
                            end
          else written_of ext = [] /\ fs w' = fs w.
Proof.
  intros Hq Hfresh Hc Hd Hrun.
  unfold mbind at 1, M_bind at 1 in Hrun.
  destruct (read_existing_metadata env image_file w) as [m w1] eqn:Hread.
  destruct (read_metadata_quiet env image_file w w1 c m Hq Hfresh Hc Hread)
    as (Hfs1 & Ht1 & Hle1 & ext1 & Htr1 & Hwr1).
  destruct is_xmp.
  - assert (Hfresh1 : fresh_ahead w1).
    { apply (fresh_ahead_same w); [exact Hfresh | | exact Ht1 | exact Hle1].
      intros p. now rewrite Hfs1. }
    assert (Hc1 : fs w1 !! image_file = Some c) by now rewrite Hfs1.
    destruct (write_sidecar_quiet env image_file tags w1 w' r c d Hq Hfresh1 Hc1 Hd Hrun)
      as (wr & ext2 & Htr2 & Hwr2 & Hfs2 & Ht2).
    split; [congruence|]. exists (ext1 ++ ext2). split.
    + rewrite Htr2, Htr1. now rewrite app_assoc.
    + exists wr. rewrite written_of_app, Hwr1, Hwr2. split; [reflexivity|].
      now rewrite Hfs2, Hfs1.
  - unfold mret, M_ret in Hrun. injection Hrun as _ <-.
    split; [exact Ht1|]. exists ext1. now repeat split.
Qed.

(** X25: a whole call on a quiet file system.  When no file-system call
    raises, the image exists in a directory of the caller and is not its own
    sidecar, [generate_sidecar] leaves no temporary directory behind, starts
    the tool in write mode at most once, and changes no file but the sidecar:
    nothing changes when the tool was not started; what the tool wrote is at
    the sidecar path when it wrote something; and when it wrote nothing the
    files are as before, less the old sidecar if [overwrite] was set. *)
Theorem quiet_call_changes_only_the_sidecar :
  forall (env : Env) (blacklist : gset str) (image_file : Path)
         (tags : list str) (format_type : str) (overwrite : bool)
         (w : World) (c : Content) (d : str),
    os_quiet env ->
    fresh_ahead w ->
    fs w !! image_file = Some c ->
    parent image_file = UserDir d ->
    image_file <> sidecar_of image_file ->
    let w' := snd (generate_sidecar env blacklist image_file tags format_type
                     overwrite w) in
    tmpdirs w' = tmpdirs w
    /\ match written_of (new_events w w') with
       | [] => fs w' = fs w
       | [Some x] => fs w' = <[sidecar_of image_file := x]> (fs w)
       | [None] =>
           fs w' = if overwrite then delete (sidecar_of image_file) (fs w) else fs w
       | _ => False
       end.
Proof.
  intros env blacklist image_file tags format_type overwrite w c d
         Hq Hfresh Hc Hd Hne.
  destruct (generate_sidecar env blacklist image_file tags format_type overwrite w)
    as [r w'] eqn:Hrun.
  cbn [snd]. unfold generate_sidecar in Hrun.
  assert (Hnothing : forall x : Outcome,
             (mret x : M Outcome) w = (r, w') ->
             tmpdirs w' = tmpdirs w
             /\ match written_of (new_events w w') with
                | [] => fs w' = fs w
                | [Some x] => fs w' = <[sidecar_of image_file := x]> (fs w)
                | [None] =>
                    fs w' = if overwrite then delete (sidecar_of image_file) (fs w)
                            else fs w
                | _ => False
                end).
  { intros x Hx. injection Hx as _ <-. unfold new_events.
    rewrite drop_all. now split. }
  destruct tags as [|t ts]; [now apply (Hnothing (Returned false))|].
  destruct (filter_tags blacklist (t :: ts)) as [|t' ts'];
    [now apply (Hnothing (Returned false))|].
  clear Hnothing.
  set (is_xmp := bool_decide (PyStr.lower format_type = "xmp")) in *.
  set (dest := sidecar_of image_file) in *.
  destruct (is_xmp && overwrite) eqn:Hb.
  - apply andb_true_iff in Hb as [Hx Ho]. subst overwrite.
    unfold mbind at 1, M_bind at 1, path_exists in Hrun.
    unfold mbind at 1, M_bind at 1, get_fs, mret, M_ret in Hrun.
    destruct (fs w !! dest) as [old|] eqn:Hdest.
    + rewrite (bool_decide_eq_true_2 (is_Some (Some old))) in Hrun by eauto.
      unfold mbind at 1, M_bind at 1 in Hrun. cbn [delete_attempts] in Hrun.
      unfold mbind at 1, M_bind at 1 in Hrun.
      rewrite (unlink_run_quiet env dest w old Hq Hdest) in Hrun.
      cbn [negb] in Hrun. unfold mret at 1, M_ret at 1 in Hrun.
      cbn [negb] in Hrun.
      set (w0 := mkWorld (delete dest (fs w)) (tmpdirs w) (fresh w) (S (clock w))
                   (trace w ++ [EvUnlink dest true])) in *.
      assert (Hfresh0 : fresh_ahead w0).
      { apply (fresh_ahead_same w); [exact Hfresh | | reflexivity | apply le_n].
        intros p Hp. cbn [fs w0]. now apply lookup_delete_None; right. }
      assert (Hc0 : fs w0 !! image_file = Some c).
      { cbn [fs w0]. rewrite lookup_delete_ne by congruence. exact Hc. }
      destruct (read_then_write_quiet env image_file (t' :: ts') is_xmp w0 w' r c d
                  Hq Hfresh0 Hc0 Hd Hrun) as (Ht & ext & Htr & Hres).
      split; [exact Ht|].
      rewrite (new_events_ext w w' (EvUnlink dest true :: ext))
        by (rewrite Htr; cbn [trace w0]; now rewrite <- app_assoc).
      cbn [written_of]. rewrite Hx in Hres. destruct Hres as (wr & -> & Hfs).
      destruct wr as [x|]; rewrite Hfs; cbn [fs w0]; [|reflexivity].
      apply insert_delete_eq.
    + rewrite (bool_decide_eq_false_2 (is_Some None)) in Hrun
        by (intros [? ?]; discriminate).
      unfold mbind at 1, M_bind at 1 in Hrun.
      cbn [negb] in Hrun.
      destruct (read_then_write_quiet env image_file (t' :: ts') is_xmp w w' r c d
                  Hq Hfresh Hc Hd Hrun) as (Ht & ext & Htr & Hres).
      split; [exact Ht|].
      rewrite (new_events_ext w w' ext Htr).
      rewrite Hx in Hres. destruct Hres as (wr & -> & Hfs).
      destruct wr as [x|]; rewrite Hfs; [reflexivity|].
      symmetry. now apply delete_id.
  - unfold mbind at 1, M_bind at 1, mret at 1, M_ret at 1 in Hrun.
    unfold mbind at 1, M_bind at 1, mret at 1, M_ret at 1 in Hrun.
    cbn [negb] in Hrun.
    destruct (read_then_write_quiet env image_file (t' :: ts') is_xmp w w' r c d
                Hq Hfresh Hc Hd Hrun) as (Ht & ext & Htr & Hres).
    split; [exact Ht|].
    rewrite (new_events_ext w w' ext Htr).
    destruct is_xmp.
    + destruct Hres as (wr & -> & Hfs). cbn [andb] in Hb. subst overwrite.
      destruct wr as [x|]; exact Hfs.
    + destruct Hres as (-> & Hfs). exact Hfs.
Qed.

Lemma quiet_call_changes_only_the_sidecar_witness :
  os_quiet calm_env
  /\ fresh_ahead camera_world
  /\ camera_jpg <> sidecar_of camera_jpg
  /\ (let w' := snd (generate_sidecar calm_env ∅ camera_jpg ["orange cat"] "xmp"
                      true camera_world) in
      tmpdirs w' = tmpdirs camera_world
      /\ match written_of (new_events camera_world w') with
         | [] => fs w' = fs camera_world
         | [Some x] => fs w' = <[sidecar_of camera_jpg := x]> (fs camera_world)
         | [None] => fs w' = delete (sidecar_of camera_jpg) (fs camera_world)
         | _ => False
         end).
Proof.
  assert (Hq : os_quiet calm_env) by (intros n; reflexivity).
  assert (Hf : fresh_ahead camera_world).
  { intros k _. split; [apply not_elem_of_empty|]. intros n.
    unfold camera_world, world_with. simpl.
    rewrite !lookup_insert_ne by discriminate. apply lookup_empty. }
  assert (Hne : camera_jpg <> sidecar_of camera_jpg)
    by (intros H; apply (f_equal name) in H; vm_compute in H; discriminate).
  split; [exact Hq|]. split; [exact Hf|]. split; [exact Hne|].
  exact (quiet_call_changes_only_the_sidecar calm_env ∅ camera_jpg ["orange cat"]
           "xmp" true camera_world "jpeg data" "/photos" Hq Hf
           ltac:(vm_compute; reflexivity) eq_refl Hne).
Defined.
